(** * Trace buffer, span context and trace identifier of ddtrace/tracer

    A shallow embedding of [ddtrace/tracer/spancontext.go]: the 128-bit trace
    identifier, the nil-safe accessors of [SpanContext], the sampling
    priority / decision protocol of [trace], its push and finish protocol
    (full and partial flush) and the peer.service resolution.

    Go values are embedded as follows.  Unsigned and signed machine integers
    are [Z] with the wrap-around written out; bytes are [Z] below 256; Go
    strings are [string]; [map[string]T] is [gmap string T]; [float64] is the
    IEEE-754 binary64 format of [SpecFloat]; a [*Span] is an address into a
    heap of spans; a run-time panic is the [Panic] outcome. *)

From Stdlib Require Import ZArith String Ascii List Lia Permutation.
From Stdlib Require Import Floats.SpecFloat.
From stdpp Require Import base gmap strings list pretty.

Local Open Scope Z_scope.

(** ** Outcomes of Go calls *)

Inductive panic : Type :=
  | NilDereference    (* invalid memory address or nil pointer dereference *)
  | IndexOutOfRange    (* index out of range *)
  | MakeSliceOutOfRange. (* makeslice: cap out of range *)

Inductive outcome (A : Type) : Type :=
  | Ok (a : A)
  | Panic (e : panic).
Arguments Ok {A} a.
Arguments Panic {A} e.

Definition obind {A B : Type} (m : outcome A) (k : A -> outcome B) : outcome B :=
  match m with
  | Ok a => k a
  | Panic e => Panic e
  end.

#[global] Instance outcome_ret : MRet outcome := fun A a => Ok a.
#[global] Instance outcome_bind : MBind outcome := fun A B k m => obind m k.

(** ** Machine integers *)

Module GoInt.

Definition uint64_mod : Z := 2 ^ 64.
Definition maxUint64 : Z := 2 ^ 64 - 1.
Definition minInt : Z := - 2 ^ 63.
Definition maxInt : Z := 2 ^ 63 - 1.

(** Truncation to [uint64] and to the 64-bit [int]. *)
Definition to_uint64 (z : Z) : Z := z mod uint64_mod.
Definition to_int (z : Z) : Z := (z + 2 ^ 63) mod uint64_mod - 2 ^ 63.

(** [byte(v)]: the low eight bits. *)
Definition to_byte (z : Z) : Z := Z.land z 255.

End GoInt.

(** ** float64 *)

Module Float64.

Definition float64 : Type := spec_float.

Definition prec : Z := 53.
Definition emax : Z := 1024.

(** [float64(p)] for an integer [p]: round to nearest, ties to even. *)
Definition of_int (p : Z) : float64 := binary_normalize prec emax p 0 false.

(** The Go comparison [a != b]: true when unordered (NaN). *)
Definition neq (a b : float64) : bool := negb (SFeqb a b).

(** [int(f)]: the fractional part is discarded (truncation towards zero).
    The language leaves the result open when the value does not fit; the
    value produced on amd64 is taken there. *)
Definition to_int (f : float64) : Z :=
  match f with
  | S754_zero _ => 0
  | S754_finite s m e =>
      let a := if (0 <=? e) then Z.pos m * 2 ^ e else Z.pos m / 2 ^ (- e) in
      let v := if s then - a else a in
      if (GoInt.minInt <=? v) && (v <=? GoInt.maxInt) then v else GoInt.minInt
  | S754_infinity _ | S754_nan => GoInt.minInt
  end.

End Float64.

Abbreviation float64 := Float64.float64.

(** ** encoding/binary, encoding/hex, strconv *)

Module GoLib.

(** [binary.BigEndian.PutUint64]: the eight bytes written, first to last. *)
Definition PutUint64 (v : Z) : list Z :=
  [ GoInt.to_byte (Z.shiftr v 56); GoInt.to_byte (Z.shiftr v 48);
    GoInt.to_byte (Z.shiftr v 40); GoInt.to_byte (Z.shiftr v 32);
    GoInt.to_byte (Z.shiftr v 24); GoInt.to_byte (Z.shiftr v 16);
    GoInt.to_byte (Z.shiftr v 8);  GoInt.to_byte v ].

(** [binary.BigEndian.Uint64] on the first eight bytes of [b]. *)
Definition Uint64 (b : list Z) : Z :=
  fold_left (fun acc x => Z.lor (Z.shiftl acc 8) x) (take 8 b) 0.

Definition hextable : string := "0123456789abcdef".

Definition hexchar (n : Z) : ascii :=
  match String.get (Z.to_nat n) hextable with
  | Some c => c
  | None => "0"%char
  end.

(** [hex.EncodeToString]: two digits per byte, high nibble first. *)
Fixpoint EncodeToString (src : list Z) : string :=
  match src with
  | [] => EmptyString
  | v :: rest =>
      String (hexchar (Z.shiftr v 4))
        (String (hexchar (Z.land v 15)) (EncodeToString rest))
  end.

Inductive NumError : Type :=
  | ErrSyntax
  | ErrRange.

Definition code (c : ascii) : Z := Z.of_N (N_of_ascii c).

(** [lower(c)] of strconv: [c | ('x' - 'X')]. *)
Definition lower (c : Z) : Z := Z.lor c 32.

(** The digit value strconv reads from a byte, before the base check. *)
Definition digit_of (c : Z) : option Z :=
  if (48 <=? c) && (c <=? 57) then Some (c - 48)
  else if (97 <=? lower c) && (lower c <=? 122) then Some (lower c - 97 + 10)
  else None.

(** The loop of [strconv.ParseUint(s, 16, 64)] over the bytes of [s],
    with the accumulator [n]; [cutoff] is [maxUint64/16 + 1]. *)
Fixpoint parse_loop (s : string) (n : Z) : Z * option NumError :=
  match s with
  | EmptyString => (n, None)
  | String c rest =>
      match digit_of (code c) with
      | None => (0, Some ErrSyntax)
      | Some d =>
          if 16 <=? d then (0, Some ErrSyntax)
          else if (GoInt.maxUint64 / 16 + 1) <=? n then (GoInt.maxUint64, Some ErrRange)
          else
            let n' := GoInt.to_uint64 (n * 16) in
            let n1 := GoInt.to_uint64 (n' + d) in
            if (n1 <? n') || (GoInt.maxUint64 <? n1)
            then (GoInt.maxUint64, Some ErrRange)
            else parse_loop rest n1
      end
  end.

Definition ParseUint16 (s : string) : Z * option NumError :=
  match s with
  | EmptyString => (0, Some ErrSyntax)
  | _ => parse_loop s 0
  end.

(** [strconv.Itoa]. *)
Definition Itoa (i : Z) : string := pretty i.

End GoLib.

(** ** Trace identifier *)

Module TraceID.

(** [type traceID [16]byte], big endian: upper half, then lower half. *)
Definition traceID : Type := list Z.

Definition TraceIDZero : string := "00000000000000000000000000000000".

Definition emptyTraceID : traceID := replicate 16 0.

Definition HexEncoded (t : traceID) : string := GoLib.EncodeToString t.

Definition Lower (t : traceID) : Z := GoLib.Uint64 (drop 8 t).

Definition Upper (t : traceID) : Z := GoLib.Uint64 (take 8 t).

Definition SetLower (t : traceID) (i : Z) : traceID :=
  take 8 t ++ GoLib.PutUint64 i.

Definition SetUpper (t : traceID) (i : Z) : traceID :=
  GoLib.PutUint64 i ++ drop 8 t.

(** The error built by [fmt.Errorf("malformed %q: %s", s, err)]. *)
Inductive error : Type :=
  | Malformed (s : string) (err : GoLib.NumError).

Definition SetUpperFromHex (t : traceID) (s : string) : traceID * option error :=
  match GoLib.ParseUint16 s with
  | (_, Some err) => (t, Some (Malformed s err))
  | (u, None) => (SetUpper t u, None)
  end.

Definition Empty (t : traceID) : bool := bool_decide (t = emptyTraceID).

Fixpoint any_nonzero (bs : list Z) : bool :=
  match bs with
  | [] => false
  | b :: rest => if negb (b =? 0) then true else any_nonzero rest
  end.

Definition HasUpper (t : traceID) : bool := any_nonzero (take 8 t).

Definition UpperHex (t : traceID) : string := GoLib.EncodeToString (take 8 t).

(** The setters of the identifier, for sequences of calls. *)
Inductive setter : Type :=
  | CallSetLower (i : Z)
  | CallSetUpper (i : Z)
  | CallSetUpperFromHex (s : string).

Definition apply_setter (t : traceID) (c : setter) : traceID :=
  match c with
  | CallSetLower i => SetLower t i
  | CallSetUpper i => SetUpper t i
  | CallSetUpperFromHex s => fst (SetUpperFromHex t s)
  end.

Definition apply_setters (t : traceID) (cs : list setter) : traceID :=
  fold_left apply_setter cs t.

(** The value a setter call stores into the upper half, if it stores one. *)
Definition stored_upper (c : setter) : option Z :=
  match c with
  | CallSetLower _ => None
  | CallSetUpper i => Some i
  | CallSetUpperFromHex s =>
      match GoLib.ParseUint16 s with
      | (u, None) => Some u
      | (_, Some _) => None
      end
  end.

(** The upper value in force after a call, [v] being the one before, and
    after a sequence of calls on the empty identifier. *)
Definition upper_after (v : Z) (c : setter) : Z :=
  match stored_upper c with
  | Some u => u
  | None => v
  end.

Definition last_upper (cs : list setter) : Z := fold_left upper_after cs 0.

(** The arguments of the setters are [uint64] values. *)
Definition uint64_arg (c : setter) : Prop :=
  match c with
  | CallSetLower i | CallSetUpper i => 0 <= i < 2 ^ 64
  | CallSetUpperFromHex _ => True
  end.

(** The [w]-character lowercase, zero-padded hexadecimal numeral of [v]. *)
Fixpoint padded_hex (w : nat) (v : Z) : string :=
  match w with
  | O => EmptyString
  | S w' =>
      String (GoLib.hexchar ((v / 16 ^ Z.of_nat w') mod 16)) (padded_hex w' v)
  end.

(** ASCII lower-casing of a string and left padding with ['0']. *)
Definition lower_char (c : ascii) : ascii :=
  let n := GoLib.code c in
  if (65 <=? n) && (n <=? 90) then ascii_of_N (Z.to_N (n + 32)) else c.

Fixpoint lower_string (s : string) : string :=
  match s with
  | EmptyString => EmptyString
  | String c rest => String (lower_char c) (lower_string rest)
  end.

Fixpoint zeros (n : nat) : string :=
  match n with
  | O => EmptyString
  | S n' => String "0"%char (zeros n')
  end.

Definition zero_pad (w : nat) (s : string) : string :=
  (zeros (w - String.length s) ++ s)%string.

End TraceID.

Import TraceID.

(** ** Names declared outside the embedded file

    Tag keys of package [tracer] and [ext], the [Unknown] sampler name, the
    process-wide metadata providers and [strings.EqualFold] are declared in
    files that are not part of the embedded sources.  The development is
    parametric in them; [upstream] below instantiates them. *)

Class Extern : Type := {
  keySamplingPriority : string;
  keyDecisionMaker : string;
  keyBaseService : string;
  keyTraceID128 : string;
  keyProcessTags : string;
  keyPeerServiceSource : string;
  keyPeerServiceRemappedFrom : string;
  ext_DBName : string;
  ext_DBInstance : string;
  ext_MessagingSystem : string;
  ext_KafkaBootstrapServers : string;
  ext_RPCSystem : string;
  ext_RPCService : string;
  ext_PeerHostname : string;
  samplernames_Unknown : Z;
  GetTracerGitMetadataTags : gmap string string;
  processtags_GlobalTags_String : string;
  strings_EqualFold : string -> string -> bool
}.

(** Tag names of [ddtrace/ext/tags.go]. *)
Definition ext_TargetHost : string := "out.host".
Definition ext_NetworkDestinationName : string := "network.destination.name".
Definition ext_SpanKind : string := "span.kind".

(** Modelled from the spec: the tag names and values of package [ext] that
    the peer-service example names and that [tags.go] does not declare. *)
Definition ext_PeerService : string := "peer.service".
Definition ext_SpanKindClient : string := "client".
Definition ext_SpanKindProducer : string := "producer".
Definition ext_DBSystem : string := "db.system".
Definition ext_DBSystemCassandra : string := "cassandra".
Definition ext_CassandraContactPoints : string := "db.cassandra.contact.points".

(** An instance with the values the tracer is built with. *)
Definition upstream : Extern := {|
  keySamplingPriority := "_sampling_priority_v1";
  keyDecisionMaker := "_dd.p.dm";
  keyBaseService := "_dd.base_service";
  keyTraceID128 := "_dd.p.tid";
  keyProcessTags := "_dd.tags.process";
  keyPeerServiceSource := "_dd.peer.service.source";
  keyPeerServiceRemappedFrom := "_dd.peer.service.remapped_from";
  ext_DBName := "db.name";
  ext_DBInstance := "db.instance";
  ext_MessagingSystem := "messaging.system";
  ext_KafkaBootstrapServers := "messaging.kafka.bootstrap.servers";
  ext_RPCSystem := "rpc.system";
  ext_RPCService := "rpc.service";
  ext_PeerHostname := "peer.hostname";
  samplernames_Unknown := -1;
  GetTracerGitMetadataTags := ∅;
  processtags_GlobalTags_String := "";
  strings_EqualFold := String.eqb
|}.

(** ** Data model *)

(** Address of a [Span]; an address that holds no span stands for [nil]. *)
Definition ptr : Type := positive.

(** Modelled from the spec: [SpanLink], declared outside the embedded file;
    a reference to a span of another trace plus contextual attributes. *)
Record SpanLink : Type := mkSpanLink {
  link_TraceID : Z;
  link_SpanID : Z;
  link_Attributes : gmap string string
}.

(** [type samplingDecision uint32] and its three constants. *)
Definition samplingDecision : Type := Z.
Definition decisionNone : samplingDecision := 0.
Definition decisionDrop : samplingDecision := 1.
Definition decisionKeep : samplingDecision := 2.

(** [type trace struct]; the mutex is not represented, every method below is
    one atomic step. *)
Record trace : Type := mkTrace {
  spans : list ptr;
  tags : gmap string string;
  propagatingTags : gmap string string;
  finished : Z;
  full : bool;
  priority : option float64;
  locked : bool;
  decision : samplingDecision;
  root : option ptr
}.

(** [type SpanContext struct].  The [trace] pointer is represented by the
    buffer it points to when the accessor runs. *)
Record SpanContext : Type := mkSpanContext {
  updated : bool;
  ctx_trace : option trace;
  ctx_span : option ptr;
  errors : Z;
  reparentID : string;
  isRemote : bool;
  ctx_traceID : traceID;
  ctx_spanID : Z;
  baggage : gmap string string;
  hasBaggage : Z;
  origin : string;
  spanLinks : list SpanLink;
  baggageOnly : bool
}.

(** The fields of [Span] that the embedded file reads or writes.  [Span] is
    declared outside the embedded file; its two maps are taken as allocated. *)
Record Span : Type := mkSpan {
  name : string;
  service : string;
  spanID : Z;
  span_traceID : Z;
  meta : gmap string string;
  metrics : gmap string float64;
  span_finished : bool;
  context : option SpanContext
}.

(** [type chunk struct]: the spans handed to the submission interface. *)
Record chunk : Type := mkChunk {
  chunk_spans : list ptr;
  willSend : bool
}.

(** The view of the tracer configuration that [finishedOne] reads. *)
Record TracerConf : Type := mkTracerConf {
  PeerServiceDefaults : bool;
  PeerServiceMappings : gmap string string;
  ServiceTag : string;
  PartialFlush : bool;
  PartialFlushMinSpans : Z
}.

(** A registered [Tracer]: its configuration and the two dynamic type tests
    [finishedOne] performs on it. *)
Record Tracer : Type := mkTracer {
  conf : TracerConf;
  is_tracer : bool;         (* tr.( *tracer ) succeeds *)
  has_FinishSpan : bool     (* tr.(interface{ FinishSpan( *Span ) }) succeeds *)
}.

Inductive stat : Type :=
  | TracesDropped
  | SpanStarted.

(** What the buffer sends to its collaborators, oldest first. *)
Inductive event : Type :=
  | LogError (format : string) (args : list string)
  | LogDebug (format : string) (args : list string)
  | Signal (s : stat) (n : Z)
  | TelemetryCount (metric : string) (mtags : list string) (v : float64)
  | TelemetryDistribution (metric : string) (v : float64)
  | MockFinishSpan (s : ptr)
  | SubmitChunk (c : chunk).

(** The process: the registered global tracer, one trace buffer, the spans
    and the calls made so far on the collaborators. *)
Record state : Type := mkState {
  globalTracer : option Tracer;
  buf : trace;
  heap : gmap ptr Span;
  events : list event
}.

(** *** Field updates *)

Definition set_spans (l : list ptr) (t : trace) : trace :=
  mkTrace l (tags t) (propagatingTags t) (finished t) (full t) (priority t)
    (locked t) (decision t) (root t).
Definition set_tags (m : gmap string string) (t : trace) : trace :=
  mkTrace (spans t) m (propagatingTags t) (finished t) (full t) (priority t)
    (locked t) (decision t) (root t).
Definition set_propagatingTags (m : gmap string string) (t : trace) : trace :=
  mkTrace (spans t) (tags t) m (finished t) (full t) (priority t)
    (locked t) (decision t) (root t).
Definition set_finished (n : Z) (t : trace) : trace :=
  mkTrace (spans t) (tags t) (propagatingTags t) n (full t) (priority t)
    (locked t) (decision t) (root t).
Definition set_full (b : bool) (t : trace) : trace :=
  mkTrace (spans t) (tags t) (propagatingTags t) (finished t) b (priority t)
    (locked t) (decision t) (root t).
Definition set_priority (p : option float64) (t : trace) : trace :=
  mkTrace (spans t) (tags t) (propagatingTags t) (finished t) (full t) p
    (locked t) (decision t) (root t).
Definition set_locked (b : bool) (t : trace) : trace :=
  mkTrace (spans t) (tags t) (propagatingTags t) (finished t) (full t) (priority t)
    b (decision t) (root t).
Definition set_decision (d : samplingDecision) (t : trace) : trace :=
  mkTrace (spans t) (tags t) (propagatingTags t) (finished t) (full t) (priority t)
    (locked t) d (root t).

Definition set_meta (m : gmap string string) (s : Span) : Span :=
  mkSpan (name s) (service s) (spanID s) (span_traceID s) m (metrics s)
    (span_finished s) (context s).
Definition set_metrics (m : gmap string float64) (s : Span) : Span :=
  mkSpan (name s) (service s) (spanID s) (span_traceID s) (meta s) m
    (span_finished s) (context s).
Definition set_span_finished (b : bool) (s : Span) : Span :=
  mkSpan (name s) (service s) (spanID s) (span_traceID s) (meta s) (metrics s)
    b (context s).

Definition set_buf (t : trace) (σ : state) : state :=
  mkState (globalTracer σ) t (heap σ) (events σ).
Definition set_heap (h : gmap ptr Span) (σ : state) : state :=
  mkState (globalTracer σ) (buf σ) h (events σ).
Definition set_globalTracer (g : option Tracer) (σ : state) : state :=
  mkState g (buf σ) (heap σ) (events σ).
Definition emit (es : list event) (σ : state) : state :=
  mkState (globalTracer σ) (buf σ) (heap σ) (events σ ++ es).

(** Reading through a [*Span]. *)
Definition deref (p : ptr) (σ : state) : outcome Span :=
  match heap σ !! p with
  | Some s => Ok s
  | None => Panic NilDereference
  end.

(** Writing through a [*Span] that has been read. *)
Definition store (p : ptr) (s : Span) (σ : state) : state :=
  set_heap (<[p := s]> (heap σ)) σ.

(** The chunks handed to [submitChunk] so far, oldest first. *)
Fixpoint submitted_of (es : list event) : list chunk :=
  match es with
  | [] => []
  | SubmitChunk c :: rest => c :: submitted_of rest
  | _ :: rest => submitted_of rest
  end.

Definition submitted (σ : state) : list chunk := submitted_of (events σ).

(** The [finished] flag of the span at [p]. *)
Definition is_finished (h : gmap ptr Span) (p : ptr) : bool :=
  match h !! p with
  | Some s => span_finished s
  | None => false
  end.

(** ** Operations *)

Section Operations.

Context `{X : Extern}.

(** *** Accessors of [SpanContext]; the receiver may be [nil] *)

Definition SpanID (c : option SpanContext) : Z :=
  match c with
  | None => 0
  | Some c => ctx_spanID c
  end.

Definition TraceID (c : option SpanContext) : string :=
  match c with
  | None => TraceIDZero
  | Some c => HexEncoded (ctx_traceID c)
  end.

Definition TraceIDBytes (c : option SpanContext) : traceID :=
  match c with
  | None => emptyTraceID
  | Some c => ctx_traceID c
  end.

Definition TraceIDLower (c : option SpanContext) : Z :=
  match c with
  | None => 0
  | Some c => Lower (ctx_traceID c)
  end.

Definition TraceIDUpper (c : option SpanContext) : Z :=
  match c with
  | None => 0
  | Some c => Upper (ctx_traceID c)
  end.

Definition zeroSpanLink : SpanLink := mkSpanLink 0 0 ∅.

(** The builtins [make([]T, n)] and [copy(dst, src)]. *)
Definition make_links (n : nat) : list SpanLink := replicate n zeroSpanLink.
Definition copy_links (dst src : list SpanLink) : list SpanLink :=
  take (length dst) src ++ drop (length src) dst.

(** [SpanLinks] reads [c.spanLinks] without testing the receiver. *)
Definition SpanLinks (c : option SpanContext) : outcome (list SpanLink) :=
  match c with
  | None => Panic NilDereference
  | Some c =>
      let cp := make_links (length (spanLinks c)) in
      Ok (copy_links cp (spanLinks c))
  end.

(** The [range] loop of [ForeachBaggageItem]; the handler threads the
    state [S] of its closure and answers whether to go on. *)
Fixpoint foreach_items {S : Type} (handler : string -> string -> S -> bool * S)
    (items : list (string * string)) (acc : S) : S :=
  match items with
  | [] => acc
  | (k, v) :: rest =>
      let '(go_on, acc') := handler k v acc in
      if go_on then foreach_items handler rest acc' else acc'
  end.

Definition ForeachBaggageItem {S : Type} (c : option SpanContext)
    (handler : string -> string -> S -> bool * S) (acc : S) : S :=
  match c with
  | None => acc
  | Some c =>
      if hasBaggage c =? 0 then acc
      else foreach_items handler (map_to_list (baggage c)) acc
  end.

Definition samplingPriorityLocked (t : trace) : Z * bool :=
  match priority t with
  | None => (0, false)
  | Some f => (Float64.to_int f, true)
  end.

Definition samplingPriority (t : trace) : Z * bool := samplingPriorityLocked t.

Definition SamplingPriority (c : option SpanContext) : Z * bool :=
  match c with
  | None => (0, false)
  | Some c =>
      match ctx_trace c with
      | None => (0, false)
      | Some t => samplingPriority t
      end
  end.

(** *** Sampling decision *)

(** [atomic.CompareAndSwapUint32] on a cell holding [cur]. *)
Definition CompareAndSwapUint32 (cur old new : Z) : Z :=
  if cur =? old then new else cur.

Definition keep (t : trace) : trace :=
  set_decision (CompareAndSwapUint32 (decision t) decisionNone decisionKeep) t.

Definition drop (t : trace) : trace :=
  set_decision (CompareAndSwapUint32 (decision t) decisionNone decisionDrop) t.

(** *** Tags and sampling priority *)

Definition setTagLocked (key value : string) (t : trace) : trace :=
  set_tags (<[key := value]> (tags t)) t.

Definition setTag (key value : string) (t : trace) : trace :=
  setTagLocked key value t.

(** Modelled from the spec: [setPropagatingTagLocked], defined outside the
    embedded file; it stores the propagating tag. *)
Definition setPropagatingTagLocked (key value : string) (t : trace) : trace :=
  set_propagatingTags (<[key := value]> (propagatingTags t)) t.

Definition samplerToDM (sampler : Z) : string :=
  ("-" ++ GoLib.Itoa sampler)%string.

Definition setSamplingPriorityLocked (p sampler : Z) (t : trace) : trace * bool :=
  if locked t then (t, false)
  else
    let updatedPriority :=
      match priority t with
      | None => true
      | Some f => Float64.neq f (Float64.of_int p)
      end in
    let t := set_priority (Some (Float64.of_int p)) t in
    let cur := propagatingTags t !! keyDecisionMaker in
    let curDM := default EmptyString cur in
    let existed := bool_decide (is_Some cur) in
    let dm := samplerToDM sampler in
    let updatedDM := negb existed || negb (String.eqb dm curDM) in
    if (0 <? p) && negb (sampler =? samplernames_Unknown) && updatedDM
    then (setPropagatingTagLocked keyDecisionMaker dm t, true)
    else
      let t :=
        if (p <=? 0) && existed
        then set_propagatingTags (delete keyDecisionMaker (propagatingTags t)) t
        else t in
      (t, updatedPriority).

Definition setSamplingPriority (p sampler : Z) (t : trace) : trace * bool :=
  setSamplingPriorityLocked p sampler t.

Definition isLocked (t : trace) : bool := locked t.

Definition setLocked (b : bool) (t : trace) : trace := set_locked b t.

(** *** Push *)

Definition traceStartSize : Z := 10.
Definition traceMaxSize : Z := 100000.

Definition newTrace : trace :=
  mkTrace [] ∅ ∅ 0 false None false decisionNone None.

Definition len {A : Type} (l : list A) : Z := Z.of_nat (length l).

Definition push (sp : ptr) (σ : state) : outcome state :=
  let t := buf σ in
  if full t then Ok σ
  else
    let tr := globalTracer σ in
    if traceMaxSize <=? len (spans t) then
      let σ := set_buf (set_spans [] (set_full true t)) σ in
      let σ := emit [LogError "trace buffer full (%d spans), dropping trace"
                       [GoLib.Itoa traceMaxSize]] σ in
      Ok (match tr with
          | Some _ => emit [Signal TracesDropped 1] σ
          | None => σ
          end)
    else
      s ← deref sp σ;
      let t :=
        match metrics s !! keySamplingPriority with
        | Some v =>
            fst (setSamplingPriorityLocked (Float64.to_int v) samplernames_Unknown t)
        | None => t
        end in
      let σ := set_buf (set_spans (spans t ++ [sp]) t) σ in
      Ok (match tr with
          | Some _ => emit [Signal SpanStarted 1] σ
          | None => σ
          end).

(** *** Span tags *)

(** Modelled from the spec: [Span.setMeta] and [Span.setMetric], defined
    outside the embedded file; they store a tag, respectively a metric, on
    the span. *)
Definition setMeta (key v : string) (s : Span) : Span :=
  set_meta (<[key := v]> (meta s)) s.

Definition setMetric (key : string) (v : float64) (s : Span) : Span :=
  set_metrics (<[key := v]> (metrics s)) s.

Definition setMetaAll (m : gmap string string) (s : Span) : Span :=
  map_fold (fun k v acc => setMeta k v acc) s m.

Definition setTraceTags (t : trace) (s : Span) : Span :=
  let s := setMetaAll (tags t) s in
  let s := setMetaAll (propagatingTags t) s in
  let s := setMetaAll GetTracerGitMetadataTags s in
  let s :=
    match context s with
    | Some c =>
        if HasUpper (ctx_traceID c)
        then setMeta keyTraceID128 (UpperHex (ctx_traceID c)) s
        else s
    | None => s
    end in
  let pTags := processtags_GlobalTags_String in
  if negb (String.eqb pTags EmptyString) then setMeta keyProcessTags pTags s else s.

(** *** Peer service *)

Definition has (s : Span) (tag : string) : bool :=
  bool_decide (is_Some (meta s !! tag)).

(** [s.meta[k]]: the zero value when the key is absent. *)
Definition meta_get (s : Span) (k : string) : string :=
  default EmptyString (meta s !! k).

(** The [switch] of [setPeerServiceFromSource]: the sources of the first
    matching case and whether the target host tags are appended. *)
Definition source_case (s : Span) : list string * bool :=
  if has s "aws_service" then
    (["queuename"; "topicname"; "streamname"; "tablename"; "bucketname"]%string, true)
  else if String.eqb (meta_get s ext_DBSystem) ext_DBSystemCassandra then
    ([ext_CassandraContactPoints], false)
  else if has s ext_DBSystem then
    ([ext_DBName; ext_DBInstance], true)
  else if has s ext_MessagingSystem then
    ([ext_KafkaBootstrapServers], true)
  else if has s ext_RPCSystem then
    ([ext_RPCService], true)
  else ([], true).

Definition peer_sources (s : Span) : list string :=
  let '(sources, useTargetHost) := source_case s in
  if useTargetHost
  then sources ++ [ext_NetworkDestinationName; ext_PeerHostname; ext_TargetHost]
  else sources.

(** The final loop over the sources. *)
Fixpoint first_source (sources : list string) (s : Span) : Span * string :=
  match sources with
  | [] => (s, EmptyString)
  | source :: rest =>
      match meta s !! source with
      | Some val => (setMeta ext_PeerService val s, source)
      | None => first_source rest s
      end
  end.

Definition setPeerServiceFromSource (s : Span) : Span * string :=
  first_source (peer_sources s) s.

(** The tail of [setPeerService]: the user's remapping. *)
Definition remapPeerService (peerServiceMappings : gmap string string) (s : Span) : Span :=
  let ps := meta_get s ext_PeerService in
  match peerServiceMappings !! ps with
  | Some to => setMeta ext_PeerService to (setMeta keyPeerServiceRemappedFrom ps s)
  | None => s
  end.

Definition setPeerService (s : Span) (peerServiceDefaults : bool)
    (peerServiceMappings : gmap string string) : Span * list event :=
  if has s ext_PeerService then
    (remapPeerService peerServiceMappings
       (setMeta keyPeerServiceSource ext_PeerService s), [])
  else
    let spanKind := meta_get s ext_SpanKind in
    let isOutboundRequest :=
      String.eqb spanKind ext_SpanKindClient || String.eqb spanKind ext_SpanKindProducer in
    let shouldSetDefaultPeerService := isOutboundRequest && peerServiceDefaults in
    if negb shouldSetDefaultPeerService then (s, [])
    else
      let '(s, source) := setPeerServiceFromSource s in
      if String.eqb source EmptyString then
        (s, [LogDebug "No source tag value could be found for span %q, peer.service not set"
               [name s]])
      else
        (remapPeerService peerServiceMappings (setMeta keyPeerServiceSource source s), []).

(** *** Finish *)

(** A method call through a [*Span] that writes the span. *)
Definition update (p : ptr) (f : Span -> Span) (σ : state) : outcome state :=
  sp ← deref p σ;
  Ok (store p (f sp) σ).

Definition finishChunk (ch : chunk) (σ : state) : state :=
  let σ := emit [SubmitChunk ch] σ in
  set_buf (set_finished 0 (buf σ)) σ.

(** The loop of the partial flush: buffered spans are appended to the
    finished or to the leftover slice, in buffer order. *)
Fixpoint split_loop (h : gmap ptr Span) (l : list ptr)
    (finishedSpans leftoverSpans : list ptr) : outcome (list ptr * list ptr) :=
  match l with
  | [] => Ok (finishedSpans, leftoverSpans)
  | s2 :: rest =>
      match h !! s2 with
      | None => Panic NilDereference
      | Some sp2 =>
          if span_finished sp2
          then split_loop h rest (finishedSpans ++ [s2]) leftoverSpans
          else split_loop h rest finishedSpans (leftoverSpans ++ [s2])
      end
  end.

(** [finishedOne], from the tracer configuration to the mock notification:
    tags written on the finishing span, priority lock. *)
Definition finish_annotate (tr : Tracer) (s : ptr) (σ : state) : outcome state :=
  let tc := conf tr in
  sp ← deref s σ;
  let '(sp', logs) :=
    setPeerService sp (PeerServiceDefaults tc) (PeerServiceMappings tc) in
  let σ := emit logs (store s sp' σ) in
  sp ← deref s σ;
  let σ :=
    if negb (String.eqb (service sp) EmptyString)
       && negb (strings_EqualFold (service sp) (ServiceTag tc))
    then store s (set_meta (<[keyBaseService := ServiceTag tc]> (meta sp)) sp) σ
    else σ in
  σ ← match root (buf σ), priority (buf σ) with
      | Some r, Some pr =>
          if (s =? r)%positive then
            σ ← update r (setMetric keySamplingPriority pr) σ;
            Ok (set_buf (set_locked true (buf σ)) σ)
          else Ok σ
      | _, _ => Ok σ
      end;
  σ ← match spans (buf σ) with
      | first :: _ =>
          if (s =? first)%positive then update s (setTraceTags (buf σ)) σ else Ok σ
      | [] => Ok σ
      end;
  Ok (if has_FinishSpan tr then emit [MockFinishSpan s] σ else σ).

Definition will_send (t : trace) : bool := decisionKeep =? decision t.

(** [finishedOne], from the full-flush test to the end. *)
Definition finish_flush (tr : Tracer) (s : ptr) (σ : state) : outcome state :=
  let tc := conf tr in
  let t := buf σ in
  if len (spans t) =? finished t then
    let σ :=
      if is_tracer tr
      then finishChunk (mkChunk (spans t) (will_send t)) σ
      else σ in
    Ok (set_buf (set_spans [] (buf σ)) σ)
  else
    let doPartialFlush :=
      PartialFlush tc && (PartialFlushMinSpans tc <=? finished t) in
    if negb doPartialFlush then Ok σ
    else
      let σ := emit [LogDebug "Partial flush triggered with %d finished spans"
                       [GoLib.Itoa (finished t)];
                     TelemetryCount "trace_partial_flush.count"
                       ["reason:large_trace"%string] (Float64.of_int 1)] σ in
      if (finished t <? 0) || (len (spans t) - finished t <? 0)
      then Panic MakeSliceOutOfRange
      else
        '(finishedSpans, leftoverSpans) ← split_loop (heap σ) (spans t) [] [];
        let σ := emit [TelemetryDistribution "trace_partial_flush.spans_closed"
                         (Float64.of_int (len finishedSpans));
                       TelemetryDistribution "trace_partial_flush.spans_remaining"
                         (Float64.of_int (len leftoverSpans))] σ in
        match finishedSpans with
        | [] => Panic IndexOutOfRange
        | f0 :: _ =>
            match priority t with
            | None => Panic NilDereference
            | Some pr =>
                σ ← update f0 (setMetric keySamplingPriority pr) σ;
                σ ← match spans t with
                    | [] => Panic IndexOutOfRange
                    | first :: _ =>
                        if negb (s =? first)%positive
                        then update f0 (setTraceTags (buf σ)) σ
                        else Ok σ
                    end;
                let σ :=
                  if is_tracer tr
                  then finishChunk (mkChunk finishedSpans (will_send (buf σ))) σ
                  else σ in
                Ok (set_buf (set_spans leftoverSpans (buf σ)) σ)
            end
        end.

Definition finishedOne (s : ptr) (σ : state) : outcome state :=
  sp ← deref s σ;
  let σ := store s (set_span_finished true sp) σ in
  if full (buf σ) then Ok σ
  else
    let σ := set_buf (set_finished (GoInt.to_int (finished (buf σ) + 1)) (buf σ)) σ in
    match globalTracer σ with
    | None => Ok σ
    | Some tr =>
        σ ← finish_annotate tr s σ;
        finish_flush tr s σ
    end.

(** *** Calls on one trace buffer *)

Inductive call : Type :=
  | Push (sp : ptr)
  | Finish (s : ptr)
  | Keep
  | Drop
  | SetSamplingPriority (p sampler : Z)
  | SetTag (key value : string)
  | SetLocked (b : bool)
  | SetGlobalTracer (g : option Tracer).

Definition on_buf (f : trace -> trace) (σ : state) : state :=
  set_buf (f (buf σ)) σ.

Definition exec (c : call) (σ : state) : outcome state :=
  match c with
  | Push sp => push sp σ
  | Finish s => finishedOne s σ
  | Keep => Ok (on_buf keep σ)
  | Drop => Ok (on_buf drop σ)
  | SetSamplingPriority p sampler =>
      Ok (on_buf (fun t => fst (setSamplingPriority p sampler t)) σ)
  | SetTag k v => Ok (on_buf (setTag k v) σ)
  | SetLocked b => Ok (on_buf (setLocked b) σ)
  | SetGlobalTracer g => Ok (set_globalTracer g σ)
  end.

Fixpoint run (cs : list call) (σ : state) : outcome state :=
  match cs with
  | [] => Ok σ
  | c :: rest => σ' ← exec c σ; run rest σ'
  end.

(** The spans a call sequence finishes, in order. *)
Fixpoint finishes (cs : list call) : list ptr :=
  match cs with
  | [] => []
  | Finish s :: rest => s :: finishes rest
  | _ :: rest => finishes rest
  end.

Definition is_push (c : call) : bool :=
  match c with
  | Push _ => true
  | _ => false
  end.

Definition sets_tracer (c : call) : bool :=
  match c with
  | SetGlobalTracer _ => true
  | _ => false
  end.

(** The spans a call sequence pushes, in order. *)
Fixpoint pushes (cs : list call) : list ptr :=
  match cs with
  | [] => []
  | Push sp :: rest => sp :: pushes rest
  | _ :: rest => pushes rest
  end.

Definition is_finish (c : call) : bool :=
  match c with
  | Finish _ => true
  | _ => false
  end.

(** The finished flags of the spans, all the flush protocol reads of them. *)
Definition flags (h : gmap ptr Span) : gmap ptr bool := span_finished <$> h.

Definition flagged (f : gmap ptr bool) (p : ptr) : bool := default false (f !! p).

(** The spans of all the chunks submitted so far. *)
Definition flushed (σ : state) : list ptr :=
  concat (map chunk_spans (submitted σ)).

(** [σ'] differs from [σ] in the lock, in tags and metrics of spans and
    in calls other than chunk submissions. *)
Definition annotated (σ σ' : state) : Prop :=
  globalTracer σ' = globalTracer σ
  /\ (exists b, buf σ' = set_locked b (buf σ))
  /\ flags (heap σ') = flags (heap σ)
  /\ submitted σ' = submitted σ.

(** [σ'] is [σ] after the span at [s] finished: the buffer holds [l'] and
    counts [n] finished spans, the chunks [cs] were submitted. *)
Definition finish_result (s : ptr) (l' : list ptr) (n : Z) (cs : list chunk)
    (σ σ' : state) : Prop :=
  globalTracer σ' = globalTracer σ
  /\ (exists b, buf σ' = set_locked b (set_spans l' (set_finished n (buf σ))))
  /\ flags (heap σ') = <[s := true]> (flags (heap σ))
  /\ submitted σ' = submitted σ ++ cs.

(** Whether the partial flush fires at [n] finished spans. *)
Definition partial_flush_at (tr : Tracer) (n : Z) : bool :=
  PartialFlush (conf tr) && (PartialFlushMinSpans (conf tr) <=? n).

(** Calls that neither push, nor finish, nor register a tracer. *)
Definition quiet (c : call) : bool :=
  negb (is_push c) && negb (is_finish c) && negb (sets_tracer c).

(** Calls of the phase in which spans start, and of the phase in which
    they finish; the registered tracer stays in both. *)
Definition starting (c : call) : bool :=
  negb (is_finish c) && negb (sets_tracer c).

Definition finishing (c : call) : bool :=
  negb (is_push c) && negb (sets_tracer c).

Definition allocated (h : gmap ptr Span) (p : ptr) : Prop := is_Some (h !! p).

(** The buffer between calls while it is not full: its spans are distinct
    and allocated, within capacity, and [finished] counts those of them
    whose flag is set. *)
Definition buffer_ok (σ : state) : Prop :=
  full (buf σ) = false
  /\ NoDup (spans (buf σ))
  /\ Forall (allocated (heap σ)) (spans (buf σ))
  /\ finished (buf σ)
     = len (List.filter (flagged (flags (heap σ))) (spans (buf σ)))
  /\ len (spans (buf σ)) <= traceMaxSize.

(** [σ'] has the tracer, the spans, the chunks and the buffered spans of
    [σ], with [l] appended to the buffer. *)
Definition queue_grown (l : list ptr) (σ σ' : state) : Prop :=
  globalTracer σ' = globalTracer σ
  /\ heap σ' = heap σ
  /\ submitted σ' = submitted σ
  /\ spans (buf σ') = spans (buf σ) ++ l
  /\ finished (buf σ') = finished (buf σ)
  /\ full (buf σ') = full (buf σ)
  /\ (is_Some (priority (buf σ)) -> is_Some (priority (buf σ'))).

(** The buffered spans that have not finished. *)
Definition unfinished (σ : state) : list ptr :=
  List.filter (fun p => negb (flagged (flags (heap σ)) p)) (spans (buf σ)).

(** The buffer between the calls that finish its spans, under the tracer
    [tr]: a priority is set and a buffer that holds spans holds one that
    has not finished. *)
Definition draining (tr : Tracer) (σ : state) : Prop :=
  globalTracer σ = Some tr
  /\ buffer_ok σ
  /\ is_Some (priority (buf σ))
  /\ (spans (buf σ) = [] \/ finished (buf σ) < len (spans (buf σ))).

(** A buffer marked full holds no span: true of a fresh buffer and kept by
    every call. *)
Definition full_inv (σ : state) : Prop :=
  full (buf σ) = true -> spans (buf σ) = [].

(** A process with a fresh trace buffer. *)
Definition init (g : option Tracer) (h : gmap ptr Span) : state :=
  mkState g newTrace h [].

End Operations.

(** ** Sampling decision calls *)

Inductive verdict : Type :=
  | CallKeep
  | CallDrop.

Definition decide_trace (t : trace) (v : verdict) : trace :=
  match v with
  | CallKeep => keep t
  | CallDrop => drop t
  end.

Definition verdict_decision (v : verdict) : samplingDecision :=
  match v with
  | CallKeep => decisionKeep
  | CallDrop => decisionDrop
  end.

Definition decide_all (t : trace) (vs : list verdict) : trace :=
  fold_left decide_trace vs t.

(** Whether [setSamplingPriorityLocked] sees a changed priority. *)
Definition priority_changed (t : trace) (p : Z) : bool :=
  match priority t with
  | None => true
  | Some f => Float64.neq f (Float64.of_int p)
  end.

(** ** Scenarios used by the examples *)

Module Scenario.

Definition blank : Span := mkSpan "op" "" 0 0 ∅ ∅ false None.

Definition heap3 : gmap ptr Span :=
  <[1%positive := blank]> (<[2%positive := blank]> (<[3%positive := blank]> ∅)).

Definition tconf (partial : bool) (min : Z) : TracerConf :=
  mkTracerConf true ∅ "svc" partial min.

(** The tracer proper, and a tracer that is only a mock. *)
Definition tracer (partial : bool) (min : Z) : Tracer :=
  mkTracer (tconf partial min) true false.

Definition mocktracer : Tracer :=
  mkTracer (tconf false 0) false true.

(** Another implementation of the [Tracer] interface, with partial flush
    configured. *)
Definition othertracer (min : Z) : Tracer :=
  mkTracer (tconf true min) false false.

(** A fresh buffer with the sampling priority 1, under the tracer [tr]. *)
Definition sampled (tr : Tracer) : state :=
  set_buf (set_priority (Some (Float64.of_int 1)) newTrace) (init (Some tr) heap3).

(** A buffer at capacity: [traceMaxSize] spans, none finished. *)
Definition at_capacity : state :=
  mkState (Some (tracer false 0))
    (set_spans (replicate (Z.to_nat traceMaxSize) 1%positive) newTrace)
    heap3 [].

Definition cassandra_meta : gmap string string :=
  <["span.kind" := "client"]>
    (<["db.system" := "cassandra"]>
       (<["db.cassandra.contact.points" := "10.0.0.1,10.0.0.2"]>
          (<["network.destination.name" := "db-host"]>
             (<["peer.hostname" := "db-peer"]>
                (<["out.host" := "db-out"]> ∅))))).

Definition cassandra_span : Span :=
  mkSpan "cassandra.query" "" 0 0 cassandra_meta ∅ false None.

Definition cassandra_aws_span : Span :=
  set_meta (<["aws_service" := "keyspaces"]> cassandra_meta) cassandra_span.

Definition remap : gmap string string :=
  <["10.0.0.1,10.0.0.2" := "cassandra-prod"]> ∅.

End Scenario.

(** ** Span contexts: construction, baggage, identifiers in hexadecimal *)

(** *** Field updates of [SpanContext] and of the root of a [trace] *)

Definition set_updated (b : bool) (c : SpanContext) : SpanContext :=
  mkSpanContext b (ctx_trace c) (ctx_span c) (errors c) (reparentID c) (isRemote c)
    (ctx_traceID c) (ctx_spanID c) (baggage c) (hasBaggage c) (origin c)
    (spanLinks c) (baggageOnly c).
Definition set_ctx_trace (t : option trace) (c : SpanContext) : SpanContext :=
  mkSpanContext (updated c) t (ctx_span c) (errors c) (reparentID c) (isRemote c)
    (ctx_traceID c) (ctx_spanID c) (baggage c) (hasBaggage c) (origin c)
    (spanLinks c) (baggageOnly c).
Definition set_ctx_span (s : option ptr) (c : SpanContext) : SpanContext :=
  mkSpanContext (updated c) (ctx_trace c) s (errors c) (reparentID c) (isRemote c)
    (ctx_traceID c) (ctx_spanID c) (baggage c) (hasBaggage c) (origin c)
    (spanLinks c) (baggageOnly c).
Definition set_errors (n : Z) (c : SpanContext) : SpanContext :=
  mkSpanContext (updated c) (ctx_trace c) (ctx_span c) n (reparentID c) (isRemote c)
    (ctx_traceID c) (ctx_spanID c) (baggage c) (hasBaggage c) (origin c)
    (spanLinks c) (baggageOnly c).
Definition set_ctx_traceID (t : traceID) (c : SpanContext) : SpanContext :=
  mkSpanContext (updated c) (ctx_trace c) (ctx_span c) (errors c) (reparentID c)
    (isRemote c) t (ctx_spanID c) (baggage c) (hasBaggage c) (origin c)
    (spanLinks c) (baggageOnly c).
Definition set_ctx_spanID (i : Z) (c : SpanContext) : SpanContext :=
  mkSpanContext (updated c) (ctx_trace c) (ctx_span c) (errors c) (reparentID c)
    (isRemote c) (ctx_traceID c) i (baggage c) (hasBaggage c) (origin c)
    (spanLinks c) (baggageOnly c).
Definition set_baggage (m : gmap string string) (c : SpanContext) : SpanContext :=
  mkSpanContext (updated c) (ctx_trace c) (ctx_span c) (errors c) (reparentID c)
    (isRemote c) (ctx_traceID c) (ctx_spanID c) m (hasBaggage c) (origin c)
    (spanLinks c) (baggageOnly c).
Definition set_hasBaggage (n : Z) (c : SpanContext) : SpanContext :=
  mkSpanContext (updated c) (ctx_trace c) (ctx_span c) (errors c) (reparentID c)
    (isRemote c) (ctx_traceID c) (ctx_spanID c) (baggage c) n (origin c)
    (spanLinks c) (baggageOnly c).
Definition set_origin (o : string) (c : SpanContext) : SpanContext :=
  mkSpanContext (updated c) (ctx_trace c) (ctx_span c) (errors c) (reparentID c)
    (isRemote c) (ctx_traceID c) (ctx_spanID c) (baggage c) (hasBaggage c) o
    (spanLinks c) (baggageOnly c).

Definition set_root (r : option ptr) (t : trace) : trace :=
  mkTrace (spans t) (tags t) (propagatingTags t) (finished t) (full t) (priority t)
    (locked t) (decision t) r.

(** The zero value of [SpanContext]. *)
Definition zeroSpanContext : SpanContext :=
  mkSpanContext false None None 0 EmptyString false emptyTraceID 0 ∅ 0 EmptyString
    [] false.

(** A [SpanContext] that is not nil, with what the record above leaves
    open: whether its [baggage] map is allocated.  A nil map has no entry
    and reads like the empty map; [setBaggageItem] tells the two apart. *)
Record Context : Type := mkContext {
  fields : SpanContext;
  baggage_made : bool
}.

(** [c.baggage] as the entries it holds. *)
Definition baggage_of (c : Context) : gmap string string :=
  if baggage_made c then baggage (fields c) else ∅.

(** The context as the accessors of [SpanContext] read it. *)
Definition as_SpanContext (c : Context) : SpanContext :=
  set_baggage (baggage_of c) (fields c).

(** [spanContextV1Adapter]: what a v1 span context answers. *)
Record spanContextV1Adapter : Type := mkV1Adapter {
  v1_SamplingDecision : Z;
  v1_Origin : string;
  v1_Priority : option float64;
  v1_PropagatingTags : gmap string string;
  v1_Tags : gmap string string
}.

(** A value of the interface [ddtrace.SpanContext], by the methods
    [FromGenericCtx] calls on it and the answer of the type assertion
    [c.(spanContextV1Adapter)].  The baggage iteration threads the state
    [S] of the handler's closure, as [ForeachBaggageItem] above. *)
Record ddtrace_SpanContext : Type := mkGenericCtx {
  generic_SpanID : Z;
  generic_TraceIDBytes : traceID;
  generic_ForeachBaggageItem :
    forall S : Type, (string -> string -> S -> bool * S) -> S -> S;
  generic_V1Adapter : option spanContextV1Adapter
}.

(** A [*SpanContext], possibly nil, as an interface value; [v1] is the
    answer of the type assertion, which depends on methods declared outside
    the embedded file. *)
Definition generic (c : option SpanContext) (v1 : option spanContextV1Adapter)
    : ddtrace_SpanContext :=
  mkGenericCtx (SpanID c) (TraceIDBytes c)
    (fun S handler acc => ForeachBaggageItem c handler acc) v1.

(** The baggage a [*SpanContext] shows to its readers: none on nil and
    none while the [hasBaggage] flag is 0. *)
Definition visible_baggage (c : option SpanContext) : gmap string string :=
  match c with
  | None => ∅
  | Some c => if hasBaggage c =? 0 then ∅ else baggage c
  end.

(** An identifier of the type [[16]byte]. *)
Definition is_byte (b : Z) : Prop := 0 <= b < 256.

Definition wf_traceID (t : traceID) : Prop :=
  length t = 16%nat /\ Forall is_byte t.


(** The spans the registered tracer has been told of through its
    [FinishSpan] method, oldest first. *)
Fixpoint mock_finished (es : list event) : list ptr :=
  match es with
  | [] => []
  | MockFinishSpan s :: rest => s :: mock_finished rest
  | _ :: rest => mock_finished rest
  end.

(** [s'] is [s] with tags written under the keys [K] only, none removed. *)
Definition writes_only (K : list string) (s s' : Span) : Prop :=
  s' = set_meta (meta s') s
  /\ (forall k : string, k ∉ K -> meta s' !! k = meta s !! k)
  /\ (forall k : string, is_Some (meta s !! k) -> is_Some (meta s' !! k)).

Section Contexts.

Context `{X : Extern}.

(** *** Sampling priority of a context *)

(** [(c *SpanContext) setSamplingPriority], on the buffer [c.trace] points
    to; the receiver is not nil. *)
Definition SpanContext_setSamplingPriority (p sampler : Z) (c : SpanContext)
    : SpanContext :=
  let t :=
    match ctx_trace c with
    | None => newTrace
    | Some t => t
    end in
  let '(t, changed) := setSamplingPriority p sampler t in
  let c := set_ctx_trace (Some t) c in
  if changed then set_updated true c else c.

(** The propagating tags [setSamplingPriorityLocked] leaves on a buffer
    that is not locked: the decision maker stored, removed or left. *)
Definition decision_maker_after (p sampler : Z) (m : gmap string string)
    : gmap string string :=
  if (0 <? p) && negb (sampler =? samplernames_Unknown)
  then <[keyDecisionMaker := samplerToDM sampler]> m
  else if p <=? 0 then delete keyDecisionMaker m else m.


(** The priority [finishedOne] locks when [s] finishes: the one of the
    buffer when [s] is its root, none otherwise. *)
Definition root_lock (t : trace) (s : ptr) : option float64 :=
  match root t, priority t with
  | Some r, Some pr => if (s =? r)%positive then Some pr else None
  | _, _ => None
  end.

(** The span [finishedOne] leaves at the finishing span [s] before the
    flush, [x] being the span before the call, [t] the buffer and [tr] the
    tracer: peer service, base service, the priority metric on the root,
    the trace-level tags on the first span of the buffer. *)
Definition annotate_span (tr : Tracer) (t : trace) (s : ptr) (x : Span) : Span :=
  let tc := conf tr in
  let x1 := fst (setPeerService x (PeerServiceDefaults tc) (PeerServiceMappings tc)) in
  let x2 :=
    if negb (String.eqb (service x1) EmptyString)
       && negb (strings_EqualFold (service x1) (ServiceTag tc))
    then set_meta (<[keyBaseService := ServiceTag tc]> (meta x1)) x1
    else x1 in
  let x3 :=
    match root_lock t s with
    | Some pr => setMetric keySamplingPriority pr x2
    | None => x2
    end in
  let t3 :=
    match root_lock t s with
    | Some _ => set_locked true t
    | None => t
    end in
  match spans t with
  | first :: _ => if (s =? first)%positive then setTraceTags t3 x3 else x3
  | [] => x3
  end.

(** The first span of a partially flushed chunk as [finishedOne] leaves
    it, [y] being the span before the flush. *)
Definition chunk_head (t : trace) (s : ptr) (pr : float64) (y : Span) : Span :=
  let y := setMetric keySamplingPriority pr y in
  match spans t with
  | first :: _ => if negb (s =? first)%positive then setTraceTags t y else y
  | [] => y
  end.

(** *** Baggage *)

Definition setBaggageItem (key val : string) (c : Context) : Context :=
  let c :=
    if baggage_made c then c
    else mkContext (set_baggage ∅ (set_hasBaggage 1 (fields c))) true in
  mkContext (set_baggage (<[key := val]> (baggage (fields c))) (fields c)) true.

Definition baggageItem (key : string) (c : Context) : string :=
  if hasBaggage (fields c) =? 0 then EmptyString
  else default EmptyString (baggage_of c !! key).

(** *** Conversion of a generic context *)

Definition FromGenericCtx (c : ddtrace_SpanContext) : Context :=
  let sc := zeroSpanContext in
  let sc := set_ctx_traceID (generic_TraceIDBytes c) sc in
  let sc := set_ctx_spanID (generic_SpanID c) sc in
  let sc := set_baggage ∅ sc in
  let sc :=
    generic_ForeachBaggageItem c SpanContext
      (fun k v sc =>
         (true, set_baggage (<[k := v]> (baggage sc)) (set_hasBaggage 1 sc)))
      sc in
  match generic_V1Adapter c with
  | None => mkContext sc true
  | Some ctx =>
      let sc := set_origin (v1_Origin ctx) sc in
      let t := newTrace in
      let t := set_priority (v1_Priority ctx) t in
      let t := set_decision (v1_SamplingDecision ctx) t in
      let t := set_tags (v1_Tags ctx) t in
      let t := set_propagatingTags (v1_PropagatingTags ctx) t in
      mkContext (set_ctx_trace (Some t) sc) true
  end.

(** *** Context of a new span *)

Definition to_uint32 (z : Z) : Z := z mod 2 ^ 32.

(** [time.Second] in nanoseconds. *)
Definition time_Second : Z := 1000000000.

(** [uint64(uint32(time.Duration(start) / time.Second)) << 32]; the
    division of [int64] truncates towards zero. *)
Definition time_upper (start : Z) : Z :=
  GoInt.to_uint64 (Z.shiftl (to_uint32 (Z.quot start time_Second)) 32).

(** The fields the new context takes from a parent that is not baggage
    only. *)
Definition inherit (parent : SpanContext) (c : SpanContext) : SpanContext :=
  let c := set_ctx_traceID (SetUpper (ctx_traceID c) (Upper (ctx_traceID parent))) c in
  let c := set_ctx_trace (ctx_trace parent) c in
  let c := set_origin (origin parent) c in
  set_errors (errors parent) c.

(** The buffer a new context works on: the one it shares with a parent
    that is not baggage only, a fresh one otherwise. *)
Definition parent_trace (parent : option Context) : trace :=
  match parent with
  | Some parent =>
      if baggageOnly (fields parent) then newTrace
      else default newTrace (ctx_trace (fields parent))
  | None => newTrace
  end.

(** [newSpanContext(span, parent)].  [start] is [span.start], which the
    record [Span] does not carry, and [gen128] the answer of
    [BoolEnv("DD_TRACE_128_BIT_TRACEID_GENERATION_ENABLED", true)].  The
    buffer the parent points to is the one it carries; the call leaves the
    buffer of the new context as the buffer of the state. *)
Definition newSpanContext (span : ptr) (start : Z) (parent : option Context)
    (gen128 : bool) (σ : state) : outcome (Context * state) :=
  sp ← deref span σ;
  let context :=
    set_ctx_span (Some span) (set_ctx_spanID (spanID sp) zeroSpanContext) in
  let context :=
    set_ctx_traceID (SetLower (ctx_traceID context) (span_traceID sp)) context in
  let c := mkContext context false in
  let c :=
    match parent with
    | Some parent =>
        let c :=
          if negb (baggageOnly (fields parent))
          then mkContext (inherit (fields parent) (fields c)) (baggage_made c)
          else c in
        ForeachBaggageItem (Some (as_SpanContext parent))
          (fun k v c => (true, setBaggageItem k v c)) c
    | None =>
        if gen128
        then mkContext
               (set_ctx_traceID (SetUpper (ctx_traceID (fields c)) (time_upper start))
                  (fields c))
               (baggage_made c)
        else c
    end in
  let t :=
    match ctx_trace (fields c) with
    | None => newTrace
    | Some t => t
    end in
  let t :=
    match root t with
    | None => set_root (Some span) t
    | Some _ => t
    end in
  σ ← push span (set_buf t σ);
  Ok (mkContext (set_updated false (set_ctx_trace (Some (buf σ)) (fields c)))
        (baggage_made c), σ).

(** *** Span identifier in hexadecimal *)







End Contexts.

(** ** Contexts and spans used by the examples *)

Module Examples.

(** An identifier with both halves set. *)
Definition id128 : traceID :=
  SetLower (SetUpper emptyTraceID 1311768467463790320) 255.

(** A context with a buffer that carries the priority 2, and two baggage
    items. *)
Definition parent : Context :=
  mkContext
    (mkSpanContext false (Some (set_priority (Some (Float64.of_int 2)) newTrace))
       None 3 "" false id128 77
       (<["a" := "1"]> (<["b" := "2"]> ∅)) 1 "synthetics" [] false)
    true.

(** A context as [FromGenericCtx] returns it for a source without baggage:
    the map is allocated, the flag is not raised. *)
Definition adopted : Context :=
  mkContext (set_ctx_spanID 5 zeroSpanContext) true.

(** A span that carries the sampling priority 2 as a metric. *)
Definition keep_span : Span :=
  mkSpan "op" "" 9 255 ∅ (<["_sampling_priority_v1" := Float64.of_int 2]> ∅) false None.

(** A process without tracer and with a fresh buffer, in which that span
    exists. *)
Definition fresh : state :=
  mkState None newTrace (<[1%positive := keep_span]> ∅) [].


(** The same with a trace tag and the decision maker as propagating tag. *)
Definition tagged : state :=
  mkState (Some (Scenario.tracer false 0))
    (mkTrace [1%positive; 2%positive] (<["env" := "prod"]> ∅)
       (<["_dd.p.dm" := "-4"]> ∅) 0 false (Some (Float64.of_int 1)) false
       decisionNone (Some 1%positive))
    Scenario.heap3 [].

(** Three buffered spans under the tracer proper with the partial flush
    configured from one finished span on, with the same tags. *)
Definition three_spans : state :=
  mkState (Some (Scenario.tracer true 1))
    (mkTrace [1%positive; 2%positive; 3%positive] (<["env" := "prod"]> ∅)
       (<["_dd.p.dm" := "-4"]> ∅) 0 false (Some (Float64.of_int 1)) false
       decisionNone (Some 1%positive))
    Scenario.heap3 [].

End Examples.

(** * Properties *)

Section Properties.

Context `{X : Extern}.

(** ** Sampling decision *)

Lemma decide_trace_frame t v :
  decide_trace t v = set_decision (decision (decide_trace t v)) t.
Proof. destruct v; reflexivity. Qed.

Lemma decide_trace_step t v :
  (decision t = decisionNone /\ decision (decide_trace t v) = verdict_decision v)
  \/ (decision t <> decisionNone /\ decision (decide_trace t v) = decision t).
Proof.
  destruct v; cbn; unfold CompareAndSwapUint32;
    destruct (Z.eqb_spec (decision t) decisionNone); auto.
Qed.

Lemma decide_all_decided vs : forall t,
  decision t <> decisionNone -> decision (decide_all t vs) = decision t.
Proof.
  induction vs as [|v vs IH]; intros t Hd; [reflexivity|].
  cbn. destruct (decide_trace_step t v) as [[H0 _]|[_ H1]]; [contradiction|].
  rewrite <- H1. apply IH. now rewrite H1.
Qed.

(** C5.  A call of [keep] or [drop] either leaves the decision as it is or
    moves it from none to keep, respectively drop; from the undecided
    state the first call of a sequence fixes the decision for good, and a
    decision that is made is never changed by any sequence of calls. *)
Theorem decision_first_call_wins :
  (forall t v,
      decision (decide_trace t v) = decision t
      \/ (decision t = decisionNone
          /\ decision (decide_trace t v) = verdict_decision v))
  /\ (forall t v vs,
      decision t = decisionNone ->
      decision (decide_all t (v :: vs)) = verdict_decision v
      /\ forall ws, decision (decide_all (decide_all t (v :: vs)) ws) = verdict_decision v)
  /\ (forall t vs,
      decision t <> decisionNone -> decision (decide_all t vs) = decision t).
Proof.
  split; [|split].
  - intros t v. destruct (decide_trace_step t v) as [[H0 H1]|[_ H1]]; auto.
  - intros t v vs H0.
    assert (Hv : decision (decide_trace t v) = verdict_decision v).
    { destruct (decide_trace_step t v) as [[_ H1]|[H1 _]]; [exact H1|contradiction]. }
    assert (Hn : decision (decide_trace t v) <> decisionNone).
    { rewrite Hv. destruct v; discriminate. }
    assert (Hall : decision (decide_all t (v :: vs)) = verdict_decision v).
    { cbn. rewrite <- Hv. now apply decide_all_decided. }
    split; [exact Hall|].
    intros ws. rewrite <- Hall. apply decide_all_decided.
    rewrite Hall. destruct v; discriminate.
  - intros t vs. apply decide_all_decided.
Qed.


(** ** Sampling priority *)

(** On the priorities the tracer uses, [float64] keeps the integer and
    compares like the integers. *)
Lemma float64_priority_exact :
  Forall (fun p => Float64.to_int (Float64.of_int p) = p
                   /\ Forall (fun q => Float64.neq (Float64.of_int q) (Float64.of_int p)
                                       = negb (q =? p)) [-1; 0; 1; 2])
         [-1; 0; 1; 2].
Proof. repeat constructor. Qed.

Lemma samplerToDM_example : samplerToDM 4 = "-4"%string /\ samplerToDM (-1) = "--1"%string.
Proof. split; reflexivity. Qed.



(** ** Accessors on a nil context *)

(** C7.  On a nil [SpanContext] the accessors [SpanID], [TraceID],
    [TraceIDBytes], [TraceIDLower], [TraceIDUpper], [SamplingPriority] and
    [ForeachBaggageItem] answer the zero value (0, the 32-zero string, the
    empty identifier, (0, false), no handler call); [SpanLinks] does not:
    it dereferences the nil receiver and panics. *)
Theorem nil_context_accessors :
  SpanID None = 0
  /\ TraceID None = "00000000000000000000000000000000"%string
  /\ TraceIDBytes None = emptyTraceID
  /\ TraceIDLower None = 0
  /\ TraceIDUpper None = 0
  /\ SamplingPriority None = (0, false)
  /\ (forall (S : Type) (handler : string -> string -> S -> bool * S) (acc : S),
         ForeachBaggageItem None handler acc = acc)
  /\ SpanLinks None = Panic NilDereference.
Proof. repeat split. Qed.

(** On a context that is not nil [SpanLinks] answers a copy of the links. *)
Lemma SpanLinks_copy (c : SpanContext) : SpanLinks (Some c) = Ok (spanLinks c).
Proof.
  unfold SpanLinks, copy_links, make_links. f_equal.
  rewrite length_replicate, firstn_all, skipn_all2 by (rewrite length_replicate; lia).
  apply app_nil_r.
Qed.

(** ** Finishing without a registered tracer *)

Lemma to_int_id (z : Z) : GoInt.minInt <= z <= GoInt.maxInt -> GoInt.to_int z = z.
Proof.
  unfold GoInt.to_int, GoInt.minInt, GoInt.maxInt, GoInt.uint64_mod. intros Hz.
  rewrite Z.mod_small; lia.
Qed.



(** ** Peer service *)

Lemma first_source_first (pre post : list string) (src val : string) (s : Span) :
  Forall (fun k => meta s !! k = None) pre ->
  meta s !! src = Some val ->
  first_source (pre ++ src :: post) s = (setMeta ext_PeerService val s, src).
Proof.
  induction 1 as [|k pre Hk _ IH]; intros Hsrc; cbn.
  - now rewrite Hsrc.
  - rewrite Hk. now apply IH.
Qed.

Lemma first_source_none (l : list string) (s : Span) :
  Forall (fun k => meta s !! k = None) l ->
  first_source l s = (s, EmptyString).
Proof.
  induction 1 as [|k l Hk _ IH]; cbn; [reflexivity|]. now rewrite Hk.
Qed.

Lemma has_true (s : Span) (k v : string) : meta s !! k = Some v -> has s k = true.
Proof. intros H. unfold has. rewrite H. apply bool_decide_true. eauto. Qed.

Lemma has_false (s : Span) (k : string) : meta s !! k = None -> has s k = false.
Proof. intros H. unfold has. rewrite H. apply bool_decide_false. intros [? ?]. discriminate. Qed.

(** C8.  For a span of kind client or producer without a [peer.service]
    tag and without an [aws_service] tag, peer-service defaults enabled,
    tagged [db.system = cassandra] and [db.cassandra.contact.points = V]:
    the provenance tag is [db.cassandra.contact.points], and
    [peer.service] is [V], or the value the user's mapping gives for [V]
    (with [V] recorded as remapped-from), whatever other tags the span has;
    the source list of the Cassandra case has no network-destination or
    host tag.  In general [setPeerServiceFromSource] takes the first
    source of the list that is present on the span. *)
Theorem peer_service_cassandra (s : Span) (kind V : string)
    (mappings : gmap string string) :
  keyPeerServiceSource <> ext_PeerService ->
  keyPeerServiceRemappedFrom <> ext_PeerService ->
  keyPeerServiceRemappedFrom <> keyPeerServiceSource ->
  meta s !! ext_PeerService = None ->
  meta s !! "aws_service"%string = None ->
  meta s !! ext_SpanKind = Some kind ->
  kind = "client"%string \/ kind = "producer"%string ->
  meta s !! "db.system"%string = Some "cassandra"%string ->
  meta s !! "db.cassandra.contact.points"%string = Some V ->
  let s' := fst (setPeerService s true mappings) in
  peer_sources s = ["db.cassandra.contact.points"%string]
  /\ setPeerServiceFromSource s
     = (setMeta ext_PeerService V s, "db.cassandra.contact.points"%string)
  /\ meta s' !! "peer.service"%string = Some (default V (mappings !! V))
  /\ meta s' !! keyPeerServiceSource = Some "db.cassandra.contact.points"%string
  /\ (forall W, mappings !! V = Some W ->
                meta s' !! keyPeerServiceRemappedFrom = Some V)
  /\ (forall (r : Span) (pre post : list string) (src val : string),
         peer_sources r = pre ++ src :: post ->
         Forall (fun k => meta r !! k = None) pre ->
         meta r !! src = Some val ->
         setPeerServiceFromSource r = (setMeta ext_PeerService val r, src)).
Proof.
  intros Hk1 Hk2 Hk3 Hps Haws Hkind Hk Hdb Hcp s'.
  assert (Hsrc : peer_sources s = ["db.cassandra.contact.points"%string]).
  { unfold peer_sources, source_case, meta_get.
    rewrite (has_false _ _ Haws).
    change ext_DBSystem with "db.system"%string. rewrite Hdb. reflexivity. }
  assert (Hfrom : setPeerServiceFromSource s
                  = (setMeta ext_PeerService V s, "db.cassandra.contact.points"%string)).
  { unfold setPeerServiceFromSource. rewrite Hsrc. cbn. now rewrite Hcp. }
  assert (Hs' : s' = remapPeerService mappings
                       (setMeta keyPeerServiceSource "db.cassandra.contact.points"
                          (setMeta ext_PeerService V s))).
  { subst s'. unfold setPeerService.
    rewrite (has_false _ _ Hps). unfold meta_get. rewrite Hkind.
    rewrite Hfrom. destruct Hk as [-> | ->]; reflexivity. }
  assert (Hget : meta_get (setMeta keyPeerServiceSource "db.cassandra.contact.points"
                             (setMeta ext_PeerService V s)) ext_PeerService = V).
  { unfold meta_get, setMeta. cbn.
    rewrite lookup_insert_ne by exact Hk1. now rewrite lookup_insert_eq. }
  split; [exact Hsrc|]. split; [exact Hfrom|].
  rewrite Hs'. unfold remapPeerService. rewrite Hget.
  change "peer.service"%string with ext_PeerService.
  destruct (mappings !! V) as [W|] eqn:HW; cbn [default from_option id].
  - unfold setMeta; cbn. repeat split.
    + apply lookup_insert_eq.
    + rewrite lookup_insert_ne by congruence.
      rewrite lookup_insert_ne by exact Hk3. apply lookup_insert_eq.
    + intros _ _. rewrite lookup_insert_ne by congruence. apply lookup_insert_eq.
    + intros r pre post src val Hr Hpre Hval.
      unfold setPeerServiceFromSource. rewrite Hr. now apply first_source_first.
  - unfold setMeta; cbn. repeat split.
    + rewrite lookup_insert_ne by exact Hk1. apply lookup_insert_eq.
    + apply lookup_insert_eq.
    + intros W HW'. discriminate.
    + intros r pre post src val Hr Hpre Hval.
      unfold setPeerServiceFromSource. rewrite Hr. now apply first_source_first.
Qed.


(** ** Trace identifier *)

Lemma nibble_high (u k : Z) :
  0 <= k ->
  Z.shiftr (GoInt.to_byte (Z.shiftr u k)) 4 = (u / 2 ^ (k + 4)) mod 16.
Proof.
  intros Hk. unfold GoInt.to_byte.
  change 255 with (Z.ones 8). rewrite Z.land_ones by lia.
  rewrite !Z.shiftr_div_pow2 by lia.
  rewrite Z.pow_add_r by lia. rewrite <- Z.div_div by lia.
  change (2 ^ 4) with 16. change (2 ^ 8) with 256.
  generalize (u / 2 ^ k). intros x.
  pose proof (Z.div_mod x 256 ltac:(lia)). pose proof (Z.mod_pos_bound x 256 ltac:(lia)).
  pose proof (Z.div_mod x 16 ltac:(lia)). pose proof (Z.mod_pos_bound x 16 ltac:(lia)).
  pose proof (Z.div_mod (x mod 256) 16 ltac:(lia)).
  pose proof (Z.mod_pos_bound (x mod 256) 16 ltac:(lia)).
  pose proof (Z.div_mod (x / 16) 16 ltac:(lia)).
  pose proof (Z.mod_pos_bound (x / 16) 16 ltac:(lia)).
  lia.
Qed.

Lemma nibble_low (u k : Z) :
  0 <= k ->
  Z.land (GoInt.to_byte (Z.shiftr u k)) 15 = (u / 2 ^ k) mod 16.
Proof.
  intros Hk. unfold GoInt.to_byte.
  change 255 with (Z.ones 8). change 15 with (Z.ones 4).
  rewrite !Z.land_ones by lia. rewrite Z.shiftr_div_pow2 by lia.
  change (2 ^ 4) with 16. change (2 ^ 8) with 256.
  generalize (u / 2 ^ k). intros x.
  pose proof (Z.div_mod x 256 ltac:(lia)). pose proof (Z.mod_pos_bound x 256 ltac:(lia)).
  pose proof (Z.div_mod x 16 ltac:(lia)). pose proof (Z.mod_pos_bound x 16 ltac:(lia)).
  pose proof (Z.div_mod (x mod 256) 16 ltac:(lia)).
  pose proof (Z.mod_pos_bound (x mod 256) 16 ltac:(lia)).
  lia.
Qed.

Lemma take8_SetUpper (t : traceID) (u : Z) : take 8 (SetUpper t u) = GoLib.PutUint64 u.
Proof. reflexivity. Qed.

(** The upper half, once set, reads back in hexadecimal as the value. *)
Lemma UpperHex_SetUpper (t : traceID) (u : Z) :
  UpperHex (SetUpper t u) = padded_hex 16 u.
Proof.
  unfold UpperHex. rewrite take8_SetUpper.
  unfold GoLib.PutUint64.
  replace (GoInt.to_byte u) with (GoInt.to_byte (Z.shiftr u 0))
    by now rewrite Z.shiftr_0_r.
  unfold GoLib.EncodeToString, padded_hex.
  rewrite !nibble_high, !nibble_low by lia.
  repeat (f_equal; try reflexivity).
Qed.


Lemma any_nonzero_PutUint64 (u : Z) :
  0 <= u < 2 ^ 64 ->
  any_nonzero (GoLib.PutUint64 u) = negb (u =? 0).
Proof.
  intros Hu. destruct (Z.eqb_spec u 0) as [->|Hne]; [reflexivity|].
  cbn [negb].
  destruct (any_nonzero (GoLib.PutUint64 u)) eqn:Hany; [reflexivity|exfalso].
  unfold GoLib.PutUint64, any_nonzero, GoInt.to_byte in Hany.
  change 255 with (Z.ones 8) in Hany. rewrite !Z.land_ones in Hany by lia.
  rewrite !Z.shiftr_div_pow2 in Hany by lia.
  repeat match type of Hany with
         | (if negb (?x =? 0) then _ else _) = false =>
             destruct (Z.eqb_spec x 0); cbn [negb] in Hany; [|discriminate]
         end.
  change (2 ^ 8) with 256 in *. change (2 ^ 64) with 18446744073709551616 in *.
  change (2 ^ 56) with 72057594037927936 in *.
  change (2 ^ 48) with 281474976710656 in *.
  change (2 ^ 40) with 1099511627776 in *.
  change (2 ^ 32) with 4294967296 in *.
  change (2 ^ 24) with 16777216 in *.
  change (2 ^ 16) with 65536 in *.
  Z.div_mod_to_equations. lia.
Qed.

Lemma HasUpper_SetUpper (t : traceID) (u : Z) :
  0 <= u < 2 ^ 64 -> HasUpper (SetUpper t u) = negb (u =? 0).
Proof.
  intros Hu. unfold HasUpper. rewrite take8_SetUpper.
  now apply any_nonzero_PutUint64.
Qed.

Lemma HasUpper_any (t : traceID) :
  HasUpper t = true <-> Exists (fun b => b <> 0) (take 8 t).
Proof.
  unfold HasUpper. induction (take 8 t) as [|b l IH]; cbn.
  - split; [discriminate|]. intros H. inversion H.
  - destruct (Z.eqb_spec b 0) as [->|Hb]; cbn.
    + rewrite IH. split; [now constructor 2|].
      intros H. inversion H; subst; [congruence|assumption].
    + split; [|reflexivity]. intros _. now constructor 1.
Qed.

Lemma digit_hexchar (c : ascii) (d : Z) :
  GoLib.digit_of (GoLib.code c) = Some d ->
  (16 <=? d) = false ->
  0 <= d < 16 /\ GoLib.hexchar d = lower_char c.
Proof.
  destruct c as [[] [] [] [] [] [] [] []]; vm_compute;
    intros H; try discriminate H; injection H as <-;
    intros H16; try discriminate H16;
    (split; [split; [discriminate|reflexivity]|reflexivity]).
Qed.

Lemma append_cons (x : ascii) (a b : string) :
  (String x a ++ b)%string = String x (a ++ b)%string.
Proof. reflexivity. Qed.

Lemma append_nil_r (a : string) : (a ++ "")%string = a.
Proof. induction a as [|x a IH]; [reflexivity|]. now rewrite append_cons, IH. Qed.

Lemma string_app_assoc (a b c : string) : ((a ++ b) ++ c = a ++ (b ++ c))%string.
Proof.
  induction a as [|x a IH]; [reflexivity|]. now rewrite !append_cons, IH.
Qed.

Lemma padded_hex_snoc (k : nat) (n d : Z) :
  0 <= n -> 0 <= d < 16 ->
  padded_hex (S k) (16 * n + d)
  = (padded_hex k n ++ String (GoLib.hexchar d) EmptyString)%string.
Proof.
  intros Hn Hd. induction k as [|k IH].
  - cbn [padded_hex]. change (16 ^ Z.of_nat 0) with 1. rewrite Z.div_1_r.
    replace ((16 * n + d) mod 16) with d; [reflexivity|].
    rewrite Z.add_comm, Z.mul_comm, Z.mod_add by lia.
    symmetry. apply Z.mod_small; lia.
  - change (padded_hex (S (S k)) (16 * n + d))
      with (String (GoLib.hexchar (((16 * n + d) / 16 ^ Z.of_nat (S k)) mod 16))
              (padded_hex (S k) (16 * n + d))).
    rewrite IH. cbn [padded_hex]. rewrite append_cons. f_equal. f_equal. f_equal.
    rewrite Nat2Z.inj_succ, Z.pow_succ_r by lia.
    rewrite <- Z.div_div by lia. f_equal.
    rewrite Z.add_comm, Z.mul_comm, Z.div_add by lia.
    rewrite Z.div_small; lia.
Qed.

Lemma padded_hex_zero (k : nat) : padded_hex k 0 = zeros k.
Proof.
  induction k as [|k IH]; [reflexivity|].
  cbn [padded_hex zeros]. rewrite IH, Z.div_0_l; [reflexivity|].
  apply Z.pow_nonzero; lia.
Qed.

Lemma parse_loop_hex (s : string) : forall n u,
  0 <= n < 2 ^ 64 ->
  GoLib.parse_loop s n = (u, None) ->
  0 <= u < 2 ^ 64
  /\ forall w, (String.length s <= w)%nat ->
       padded_hex w u
       = (padded_hex (w - String.length s) n ++ lower_string s)%string.
Proof.
  induction s as [|c rest IH]; intros n u Hn Hp.
  - cbn in Hp. injection Hp as <-. split; [exact Hn|].
    intros w _. cbn [String.length lower_string]. rewrite Nat.sub_0_r.
    now rewrite append_nil_r.
  - cbn [GoLib.parse_loop] in Hp.
    destruct (GoLib.digit_of (GoLib.code c)) as [d|] eqn:Hd; [|discriminate].
    destruct (16 <=? d) eqn:H16; [discriminate|].
    destruct (digit_hexchar c d Hd H16) as [Hd16 Hch].
    destruct (Z.leb_spec (GoInt.maxUint64 / 16 + 1) n) as [Hcut|Hcut]; [discriminate|].
    change (GoInt.maxUint64 / 16 + 1) with (2 ^ 60) in Hcut.
    assert (Hmul : GoInt.to_uint64 (n * 16) = 16 * n).
    { unfold GoInt.to_uint64, GoInt.uint64_mod. rewrite Z.mod_small; lia. }
    rewrite Hmul in Hp.
    assert (Hadd : GoInt.to_uint64 (16 * n + d) = 16 * n + d).
    { unfold GoInt.to_uint64, GoInt.uint64_mod. rewrite Z.mod_small; lia. }
    rewrite Hadd in Hp.
    destruct ((16 * n + d <? 16 * n) || (GoInt.maxUint64 <? 16 * n + d)); [discriminate|].
    destruct (IH (16 * n + d) u ltac:(lia) Hp) as [Hu Hw].
    split; [exact Hu|].
    intros w Hlen. cbn [String.length lower_string] in *.
    rewrite Hw by lia.
    replace (w - String.length rest)%nat with (S (w - S (String.length rest))) by lia.
    rewrite padded_hex_snoc by lia.
    rewrite string_app_assoc, append_cons. now rewrite Hch.
Qed.

Lemma ParseUint16_hex (s : string) (u : Z) :
  GoLib.ParseUint16 s = (u, None) ->
  0 <= u < 2 ^ 64
  /\ ((String.length s <= 16)%nat -> padded_hex 16 u = zero_pad 16 (lower_string s)).
Proof.
  intros Hp.
  assert (Hl : GoLib.parse_loop s 0 = (u, None)).
  { destruct s; [discriminate Hp|exact Hp]. }
  destruct (parse_loop_hex s 0 u ltac:(lia) Hl) as [Hu Hw].
  split; [exact Hu|]. intros Hlen.
  rewrite (Hw 16%nat Hlen), padded_hex_zero. unfold zero_pad.
  f_equal. f_equal. f_equal.
  clear. induction s as [|c s IH]; cbn [String.length lower_string];
    [reflexivity|now rewrite IH].
Qed.

Lemma SetUpperFromHex_ok (t : traceID) (s : string) (u : Z) :
  GoLib.ParseUint16 s = (u, None) -> SetUpperFromHex t s = (SetUpper t u, None).
Proof. intros H. unfold SetUpperFromHex. now rewrite H. Qed.

Lemma SetUpperFromHex_error (t : traceID) (s : string) (u : Z) (e : GoLib.NumError) :
  GoLib.ParseUint16 s = (u, Some e) -> SetUpperFromHex t s = (t, Some (Malformed s e)).
Proof. intros H. unfold SetUpperFromHex. now rewrite H. Qed.

(** What a call does to the length and to the upper half. *)
Lemma call_upper (t : traceID) (v : Z) (c : setter) :
  length t = 16%nat -> take 8 t = GoLib.PutUint64 v ->
  0 <= v < 2 ^ 64 -> uint64_arg c ->
  length (apply_setter t c) = 16%nat
  /\ take 8 (apply_setter t c) = GoLib.PutUint64 (upper_after v c)
  /\ 0 <= upper_after v c < 2 ^ 64.
Proof.
  intros Hlen Hup Hv Hc.
  assert (Hset : forall u, length (SetUpper t u) = 16%nat).
  { intros u. unfold SetUpper. rewrite length_app, length_skipn, Hlen. reflexivity. }
  destruct c as [i|i|s]; unfold upper_after; cbn [apply_setter stored_upper].
  - split; [|split; [|exact Hv]].
    + unfold SetLower. rewrite length_app, length_firstn, Hlen. reflexivity.
    + unfold SetLower. rewrite take_app_le by (rewrite length_take; lia).
      rewrite take_take. exact Hup.
  - split; [apply Hset|split; [apply take8_SetUpper|exact Hc]].
  - destruct (GoLib.ParseUint16 s) as [u [e|]] eqn:Hp.
    + rewrite (SetUpperFromHex_error t s u e Hp). cbn [fst]. auto.
    + rewrite (SetUpperFromHex_ok t s u Hp). cbn [fst].
      split; [apply Hset|split; [apply take8_SetUpper|]].
      apply (ParseUint16_hex s u Hp).
Qed.

Lemma calls_upper (cs : list setter) : forall (t : traceID) (v : Z),
  length t = 16%nat -> take 8 t = GoLib.PutUint64 v ->
  0 <= v < 2 ^ 64 -> Forall uint64_arg cs ->
  take 8 (apply_setters t cs) = GoLib.PutUint64 (fold_left upper_after cs v)
  /\ 0 <= fold_left upper_after cs v < 2 ^ 64.
Proof.
  induction cs as [|c cs IH]; intros t v Hlen Hup Hv Hcs; [now split|].
  inversion Hcs as [|? ? Hc Hcs']; subst.
  destruct (call_upper t v c Hlen Hup Hv Hc) as (Hl' & Hu' & Hv').
  cbn [apply_setters fold_left]. now apply IH.
Qed.

(** C9.  When [s] parses as an unsigned 64-bit number [u],
    [SetUpperFromHex] succeeds and [UpperHex] then reads the 16-character
    lowercase zero-padded numeral of [u]; for [s] of at most 16 characters
    that is [s] itself, lower-cased and zero-padded.  On malformed input
    the error is returned and the identifier is unchanged.  [HasUpper] is
    true iff one of the first eight bytes is not zero; after any calls of
    the setters on the empty identifier it is false exactly when the upper
    value stored last (none stored counting as zero) is zero. *)
Theorem trace_id_upper_hex :
  (forall (t : traceID) (s : string) (u : Z),
      GoLib.ParseUint16 s = (u, None) ->
      snd (SetUpperFromHex t s) = None
      /\ UpperHex (fst (SetUpperFromHex t s)) = padded_hex 16 u
      /\ ((String.length s <= 16)%nat ->
          UpperHex (fst (SetUpperFromHex t s)) = zero_pad 16 (lower_string s)))
  /\ (forall (t : traceID) (s : string) (u : Z) (e : GoLib.NumError),
      GoLib.ParseUint16 s = (u, Some e) ->
      SetUpperFromHex t s = (t, Some (Malformed s e)))
  /\ (forall t : traceID,
      HasUpper t = true <-> Exists (fun b => b <> 0) (take 8 t))
  /\ (forall cs : list setter,
      Forall uint64_arg cs ->
      (HasUpper (apply_setters emptyTraceID cs) = false <-> last_upper cs = 0)).
Proof.
  split; [|split; [|split]].
  - intros t s u Hp. rewrite (SetUpperFromHex_ok t s u Hp). cbn [fst snd].
    rewrite UpperHex_SetUpper. split; [reflexivity|split; [reflexivity|]].
    apply (ParseUint16_hex s u Hp).
  - apply SetUpperFromHex_error.
  - apply HasUpper_any.
  - intros cs Hcs. unfold HasUpper, last_upper.
    destruct (calls_upper cs emptyTraceID 0 eq_refl eq_refl ltac:(lia) Hcs) as [Hup Hr].
    rewrite Hup, any_nonzero_PutUint64 by exact Hr.
    destruct (Z.eqb_spec (fold_left upper_after cs 0) 0) as [H0|H0]; cbn.
    + split; auto.
    + split; [discriminate|contradiction].
Qed.

(** ** The finish protocol *)

(** *** Writes on a span keep its finished flag *)

Lemma setMetaAll_finished (m : gmap string string) (s : Span) :
  span_finished (setMetaAll m s) = span_finished s.
Proof.
  unfold setMetaAll.
  apply (map_fold_weak_ind (fun r _ => span_finished r = span_finished s));
    [reflexivity|].
  intros k v m' r _ Hr. exact Hr.
Qed.

Lemma setTraceTags_finished (t : trace) (s : Span) :
  span_finished (setTraceTags t s) = span_finished s.
Proof.
  unfold setTraceTags. cbv zeta.
  set (s1 := setMetaAll GetTracerGitMetadataTags
               (setMetaAll (propagatingTags t) (setMetaAll (tags t) s))).
  assert (H1 : span_finished s1 = span_finished s).
  { subst s1. now rewrite !setMetaAll_finished. }
  assert (H2 : span_finished
                 match context s1 with
                 | Some c => if HasUpper (ctx_traceID c)
                             then setMeta keyTraceID128 (UpperHex (ctx_traceID c)) s1
                             else s1
                 | None => s1
                 end = span_finished s).
  { destruct (context s1) as [c|]; [destruct (HasUpper (ctx_traceID c))|]; exact H1. }
  destruct (negb _); exact H2.
Qed.

Lemma first_source_finished (l : list string) (s : Span) :
  span_finished (fst (first_source l s)) = span_finished s.
Proof.
  induction l as [|k l IH]; cbn; [reflexivity|].
  destruct (meta s !! k); [reflexivity|exact IH].
Qed.

Lemma remapPeerService_finished (m : gmap string string) (s : Span) :
  span_finished (remapPeerService m s) = span_finished s.
Proof. unfold remapPeerService. destruct (m !! _); reflexivity. Qed.

Lemma setPeerService_finished (s : Span) (d : bool) (m : gmap string string) :
  span_finished (fst (setPeerService s d m)) = span_finished s
  /\ submitted_of (snd (setPeerService s d m)) = [].
Proof.
  unfold setPeerService.
  destruct (has s ext_PeerService).
  { cbn [fst snd]. now rewrite remapPeerService_finished. }
  destruct (negb _); [now split|].
  unfold setPeerServiceFromSource.
  pose proof (first_source_finished (peer_sources s) s) as Hf.
  destruct (first_source (peer_sources s) s) as [s1 src]. cbn [fst] in Hf.
  destruct (String.eqb src EmptyString); cbn [fst snd].
  - now split.
  - now rewrite remapPeerService_finished.
Qed.

(** *** Frame of the annotation step *)

Lemma submitted_of_app (a b : list event) :
  submitted_of (a ++ b) = submitted_of a ++ submitted_of b.
Proof.
  induction a as [|e a IH]; [reflexivity|].
  destruct e; cbn; rewrite ?IH; reflexivity.
Qed.

Lemma flags_lookup (h : gmap ptr Span) (p : ptr) :
  flags h !! p = span_finished <$> h !! p.
Proof. apply lookup_fmap. Qed.

Lemma flags_store_same (h : gmap ptr Span) (p : ptr) (x y : Span) :
  h !! p = Some x -> span_finished y = span_finished x ->
  flags (<[p := y]> h) = flags h.
Proof.
  intros Hx Hy. unfold flags. rewrite fmap_insert, Hy.
  apply insert_id. now rewrite lookup_fmap, Hx.
Qed.

Lemma annotated_refl (σ : state) : annotated σ σ.
Proof.
  repeat split; try reflexivity. exists (locked (buf σ)). now destruct (buf σ).
Qed.

Lemma annotated_trans (σ1 σ2 σ3 : state) :
  annotated σ1 σ2 -> annotated σ2 σ3 -> annotated σ1 σ3.
Proof.
  intros (Hg & [b Hb] & Hf & Hs) (Hg' & [b' Hb'] & Hf' & Hs').
  repeat split; try congruence.
  exists b'. rewrite Hb', Hb. reflexivity.
Qed.

Lemma annotated_update (p : ptr) (f : Span -> Span) (σ : state) :
  is_Some (heap σ !! p) ->
  (forall x, span_finished (f x) = span_finished x) ->
  exists σ', update p f σ = Ok σ' /\ annotated σ σ'.
Proof.
  intros [x Hx] Hf. unfold update, deref. rewrite Hx. cbn.
  eexists; split; [reflexivity|].
  repeat split; cbn.
  - exists (locked (buf σ)). now destruct (buf σ).
  - now apply (flags_store_same _ _ x).
Qed.

Lemma annotated_store (p : ptr) (σ : state) (x y : Span) :
  heap σ !! p = Some x -> span_finished y = span_finished x ->
  annotated σ (store p y σ).
Proof.
  intros Hx Hy. repeat split; cbn.
  - exists (locked (buf σ)). now destruct (buf σ).
  - now apply (flags_store_same _ _ x).
Qed.

Lemma annotated_emit (σ : state) (es : list event) :
  submitted_of es = [] -> annotated σ (emit es σ).
Proof.
  intros Hes. repeat split; cbn.
  - exists (locked (buf σ)). now destruct (buf σ).
  - unfold submitted. cbn. rewrite submitted_of_app, Hes. apply app_nil_r.
Qed.

Lemma annotated_lock (σ : state) (b : bool) :
  annotated σ (set_buf (set_locked b (buf σ)) σ).
Proof. repeat split; cbn. now exists b. Qed.

Lemma annotated_alloc (p : ptr) (σ σ' : state) :
  annotated σ σ' -> is_Some (heap σ !! p) -> is_Some (heap σ' !! p).
Proof.
  intros (_ & _ & Hf & _) Hp.
  apply (f_equal (fun m => m !! p)) in Hf. rewrite !flags_lookup in Hf.
  destruct Hp as [x Hx]. rewrite Hx in Hf. destruct (heap σ' !! p); [eauto|discriminate].
Qed.

Lemma deref_Some (p : ptr) (σ : state) (x : Span) :
  heap σ !! p = Some x -> deref p σ = Ok x.
Proof. intros H. unfold deref. now rewrite H. Qed.

Lemma finish_annotate_frame (tr : Tracer) (s : ptr) (σ : state) :
  is_Some (heap σ !! s) ->
  exists σ', finish_annotate tr s σ = Ok σ' /\ annotated σ σ'.
Proof.
  intros Hs. unfold finish_annotate. cbv zeta.
  (* peer service *)
  destruct Hs as [sp Hsp]. rewrite (deref_Some _ _ _ Hsp). cbn [mbind outcome_bind obind].
  pose proof (setPeerService_finished sp (PeerServiceDefaults (conf tr))
                (PeerServiceMappings (conf tr))) as [Hpf Hpe].
  destruct (setPeerService sp _ _) as [sp1 logs]. cbn [fst snd] in Hpf, Hpe.
  set (σ1 := emit logs (store s sp1 σ)).
  assert (A1 : annotated σ σ1).
  { subst σ1. apply (annotated_trans _ (store s sp1 σ)); [|now apply annotated_emit].
    now apply (annotated_store s σ sp). }
  assert (Hs1 : heap σ1 !! s = Some sp1) by (subst σ1; cbn; apply lookup_insert_eq).
  rewrite (deref_Some _ _ _ Hs1). cbn [mbind outcome_bind obind].
  (* base service *)
  set (σ2 := if _ : bool then store s _ σ1 else σ1).
  assert (A2 : annotated σ σ2).
  { subst σ2. destruct (_ && _); [|exact A1].
    apply (annotated_trans _ σ1); [exact A1|].
    now apply (annotated_store s σ1 sp1). }
  clearbody σ2. clear Hs1 A1 σ1.
  assert (Hs2 : is_Some (heap σ2 !! s)) by (apply (annotated_alloc s σ); eauto).
  (* priority lock *)
  assert (H3 : exists σ3,
             match root (buf σ2), priority (buf σ2) with
             | Some r, Some pr =>
                 if (s =? r)%positive then
                   σ ← update r (setMetric keySamplingPriority pr) σ2;
                   Ok (set_buf (set_locked true (buf σ)) σ)
                 else Ok σ2
             | _, _ => Ok σ2
             end = Ok σ3 /\ annotated σ σ3).
  { destruct (root (buf σ2)) as [r|]; [|eauto].
    destruct (priority (buf σ2)) as [pr|]; [|eauto].
    destruct (Pos.eqb_spec s r) as [<-|]; [|eauto].
    destruct (annotated_update s (setMetric keySamplingPriority pr) σ2 Hs2
                ltac:(reflexivity)) as (σ' & -> & A').
    cbn [mbind outcome_bind obind]. eexists; split; [reflexivity|].
    apply (annotated_trans _ σ2); [exact A2|].
    apply (annotated_trans _ σ'); [exact A'|apply annotated_lock]. }
  destruct H3 as (σ3 & -> & A3). cbn [mbind outcome_bind obind].
  clear A2 Hs2 σ2.
  assert (Hs3 : is_Some (heap σ3 !! s)) by (apply (annotated_alloc s σ); eauto).
  (* trace tags *)
  assert (H4 : exists σ4,
             match spans (buf σ3) with
             | first :: _ =>
                 if (s =? first)%positive
                 then update s (setTraceTags (buf σ3)) σ3 else Ok σ3
             | [] => Ok σ3
             end = Ok σ4 /\ annotated σ σ4).
  { destruct (spans (buf σ3)) as [|first ?]; [eauto|].
    destruct (s =? first)%positive; [|eauto].
    destruct (annotated_update s (setTraceTags (buf σ3)) σ3 Hs3
                (setTraceTags_finished (buf σ3))) as (σ' & -> & A').
    eexists; split; [reflexivity|]. now apply (annotated_trans _ σ3). }
  destruct H4 as (σ4 & -> & A4). cbn [mbind outcome_bind obind].
  eexists; split; [reflexivity|].
  destruct (has_FinishSpan tr); [|exact A4].
  apply (annotated_trans _ σ4); [exact A4|]. now apply annotated_emit.
Qed.

(** *** The flush step *)

Lemma flagged_flags (h : gmap ptr Span) (p : ptr) :
  flagged (flags h) p = is_finished h p.
Proof.
  unfold flagged, is_finished. rewrite flags_lookup. now destruct (h !! p).
Qed.

Lemma split_loop_filter (h : gmap ptr Span) (l : list ptr) : forall fs ls,
  Forall (fun p => is_Some (h !! p)) l ->
  split_loop h l fs ls
  = Ok (fs ++ List.filter (flagged (flags h)) l,
        ls ++ List.filter (fun p => negb (flagged (flags h) p)) l).
Proof.
  induction l as [|p l IH]; intros fs ls Hl; cbn [split_loop List.filter].
  - now rewrite !app_nil_r.
  - inversion Hl as [|? ? [x Hx] Hl']; subst.
    rewrite flagged_flags. unfold is_finished. rewrite Hx.
    destruct (span_finished x); cbn [negb]; rewrite IH by assumption;
      now rewrite <- ?app_assoc.
Qed.

Lemma finish_flush_full (tr : Tracer) (s : ptr) (σ : state) :
  is_tracer tr = true ->
  len (spans (buf σ)) = finished (buf σ) ->
  finish_flush tr s σ
  = Ok (set_buf (set_spans [] (set_finished 0 (buf σ)))
          (emit [SubmitChunk (mkChunk (spans (buf σ)) (will_send (buf σ)))] σ)).
Proof.
  intros Ht Hlen. unfold finish_flush. cbv zeta.
  rewrite Hlen, Z.eqb_refl, Ht. reflexivity.
Qed.

Lemma finish_flush_none (tr : Tracer) (s : ptr) (σ : state) :
  len (spans (buf σ)) <> finished (buf σ) ->
  partial_flush_at tr (finished (buf σ)) = false ->
  finish_flush tr s σ = Ok σ.
Proof.
  intros Hlen Hp. unfold finish_flush. cbv zeta.
  destruct (Z.eqb_spec (len (spans (buf σ))) (finished (buf σ))); [contradiction|].
  unfold partial_flush_at in Hp. now rewrite Hp.
Qed.

Lemma finish_flush_partial (tr : Tracer) (s : ptr) (σ : state) (pr : float64) :
  is_tracer tr = true ->
  len (spans (buf σ)) <> finished (buf σ) ->
  partial_flush_at tr (finished (buf σ)) = true ->
  0 <= finished (buf σ) <= len (spans (buf σ)) ->
  Forall (fun p => is_Some (heap σ !! p)) (spans (buf σ)) ->
  priority (buf σ) = Some pr ->
  List.filter (flagged (flags (heap σ))) (spans (buf σ)) <> [] ->
  exists σ',
    finish_flush tr s σ = Ok σ'
    /\ globalTracer σ' = globalTracer σ
    /\ (exists b,
          buf σ' = set_locked b
                     (set_spans
                        (List.filter (fun p => negb (flagged (flags (heap σ)) p))
                           (spans (buf σ)))
                        (set_finished 0 (buf σ))))
    /\ flags (heap σ') = flags (heap σ)
    /\ submitted σ'
       = submitted σ
         ++ [mkChunk (List.filter (flagged (flags (heap σ))) (spans (buf σ)))
               (will_send (buf σ))].
Proof.
  intros Ht Hlen Hp Hr Hall Hpr Hne. unfold finish_flush. cbv zeta.
  destruct (Z.eqb_spec (len (spans (buf σ))) (finished (buf σ))); [contradiction|].
  unfold partial_flush_at in Hp. rewrite Hp. cbn [negb].
  destruct (Z.ltb_spec (finished (buf σ)) 0) as [|_]; [lia|].
  destruct (Z.ltb_spec (len (spans (buf σ)) - finished (buf σ)) 0) as [|_]; [lia|].
  cbn [orb].
  set (σ1 := emit _ σ).
  change (heap σ1) with (heap σ).
  rewrite split_loop_filter by exact Hall. cbn [mbind outcome_bind obind].
  rewrite !app_nil_l.
  set (fs := List.filter (flagged (flags (heap σ))) (spans (buf σ))) in *.
  set (ls := List.filter (fun p => negb (flagged (flags (heap σ)) p)) (spans (buf σ))).
  destruct fs as [|f0 fs'] eqn:Hfs; [contradiction|].
  rewrite Hpr.
  assert (Hf0 : is_Some (heap σ !! f0)).
  { assert (Hin : In f0 (spans (buf σ))).
    { apply (proj1 (filter_In (flagged (flags (heap σ))) f0 (spans (buf σ)))).
      fold fs. rewrite Hfs. now left. }
    rewrite Forall_forall in Hall. apply Hall. now apply list_elem_of_In. }
  set (σ2 := emit _ σ1).
  assert (A2 : annotated σ σ2).
  { subst σ2 σ1. apply (annotated_trans _ (emit
      [LogDebug "Partial flush triggered with %d finished spans"
         [GoLib.Itoa (finished (buf σ))];
       TelemetryCount "trace_partial_flush.count" ["reason:large_trace"%string]
         (Float64.of_int 1)] σ)); now apply annotated_emit. }
  clearbody σ2.
  destruct (annotated_update f0 (setMetric keySamplingPriority pr) σ2
              (annotated_alloc f0 σ σ2 A2 Hf0) ltac:(reflexivity))
    as (σ3 & -> & A3).
  cbn [mbind outcome_bind obind].
  assert (A3' : annotated σ σ3) by now apply (annotated_trans _ σ2).
  assert (H4 : exists σ4,
             match spans (buf σ) with
             | [] => Panic IndexOutOfRange
             | first :: _ =>
                 if negb (s =? first)%positive
                 then update f0 (setTraceTags (buf σ3)) σ3 else Ok σ3
             end = Ok σ4 /\ annotated σ σ4).
  { destruct (spans (buf σ)) as [|first rest] eqn:Hsp.
    - subst fs. discriminate Hfs.
    - destruct (negb (s =? first)%positive); [|eauto].
      destruct (annotated_update f0 (setTraceTags (buf σ3)) σ3
                  (annotated_alloc f0 σ σ3 A3' Hf0)
                  (setTraceTags_finished (buf σ3))) as (σ' & -> & A').
      eexists; split; [reflexivity|]. now apply (annotated_trans _ σ3). }
  destruct H4 as (σ4 & -> & (Hg4 & [b4 Hb4] & Hf4 & Hs4)).
  cbn [mbind outcome_bind obind]. rewrite Ht.
  eexists; split; [reflexivity|].
  cbn. repeat split.
  - exact Hg4.
  - exists b4. rewrite Hb4. reflexivity.
  - exact Hf4.
  - unfold submitted in *. cbn. rewrite submitted_of_app, Hs4. cbn.
    do 3 f_equal. unfold will_send. rewrite Hb4. reflexivity.
Qed.

(** *** One call of [finishedOne] with a tracer registered *)

Lemma finishedOne_unfold (tr : Tracer) (σ : state) (s : ptr) (sp : Span) :
  globalTracer σ = Some tr ->
  full (buf σ) = false ->
  heap σ !! s = Some sp ->
  GoInt.minInt <= finished (buf σ) < GoInt.maxInt ->
  exists σ2,
    finishedOne s σ = finish_flush tr s σ2
    /\ globalTracer σ2 = Some tr
    /\ (exists b, buf σ2 = set_locked b (set_finished (finished (buf σ) + 1) (buf σ)))
    /\ flags (heap σ2) = <[s := true]> (flags (heap σ))
    /\ submitted σ2 = submitted σ.
Proof.
  intros Hg Hf Hs Hr. unfold finishedOne.
  rewrite (deref_Some _ _ _ Hs). cbn [mbind outcome_bind obind].
  change (buf (store s (set_span_finished true sp) σ)) with (buf σ).
  rewrite Hf.
  rewrite to_int_id by (unfold GoInt.minInt, GoInt.maxInt in *; lia).
  set (σ1 := set_buf _ (store s _ σ)).
  change (globalTracer σ1) with (globalTracer σ). rewrite Hg.
  destruct (finish_annotate_frame tr s σ1) as (σ2 & -> & (Hg2 & [b Hb] & Hf2 & Hs2)).
  { subst σ1. cbn. rewrite lookup_insert_eq. eauto. }
  cbn [mbind outcome_bind obind]. exists σ2. split; [reflexivity|].
  repeat split.
  - rewrite Hg2. exact Hg.
  - exists b. rewrite Hb. reflexivity.
  - rewrite Hf2. subst σ1. cbn. unfold flags. now rewrite fmap_insert.
  - rewrite Hs2. reflexivity.
Qed.

Lemma finishedOne_full_flush (tr : Tracer) (σ : state) (s : ptr) :
  globalTracer σ = Some tr ->
  is_tracer tr = true ->
  full (buf σ) = false ->
  is_Some (heap σ !! s) ->
  0 <= finished (buf σ) ->
  len (spans (buf σ)) = finished (buf σ) + 1 ->
  len (spans (buf σ)) <= traceMaxSize ->
  exists σ',
    finishedOne s σ = Ok σ'
    /\ finish_result s [] 0 [mkChunk (spans (buf σ)) (will_send (buf σ))] σ σ'.
Proof.
  intros Hg Ht Hf [sp Hs] H0 Hlen Hmax.
  destruct (finishedOne_unfold tr σ s sp Hg Hf Hs) as (σ2 & -> & Hg2 & [b Hb] & Hf2 & Hs2).
  { unfold GoInt.minInt, GoInt.maxInt, traceMaxSize in *. lia. }
  rewrite finish_flush_full; [|exact Ht|rewrite Hb; exact Hlen].
  eexists; split; [reflexivity|].
  unfold finish_result. cbn. repeat split.
  - congruence.
  - exists b. rewrite Hb. reflexivity.
  - exact Hf2.
  - unfold submitted in *. cbn. rewrite submitted_of_app, Hs2, Hb. reflexivity.
Qed.

Lemma finishedOne_no_flush (tr : Tracer) (σ : state) (s : ptr) :
  globalTracer σ = Some tr ->
  full (buf σ) = false ->
  is_Some (heap σ !! s) ->
  GoInt.minInt <= finished (buf σ) < GoInt.maxInt ->
  len (spans (buf σ)) <> finished (buf σ) + 1 ->
  partial_flush_at tr (finished (buf σ) + 1) = false ->
  exists σ',
    finishedOne s σ = Ok σ'
    /\ finish_result s (spans (buf σ)) (finished (buf σ) + 1) [] σ σ'.
Proof.
  intros Hg Hf [sp Hs] Hr Hlen Hp.
  destruct (finishedOne_unfold tr σ s sp Hg Hf Hs Hr)
    as (σ2 & -> & Hg2 & [b Hb] & Hf2 & Hs2).
  rewrite finish_flush_none; [| rewrite Hb; exact Hlen | rewrite Hb; exact Hp].
  eexists; split; [reflexivity|].
  unfold finish_result. repeat split.
  - congruence.
  - exists b. rewrite Hb. now destruct (buf σ).
  - exact Hf2.
  - rewrite Hs2. now rewrite app_nil_r.
Qed.

Lemma finishedOne_partial_flush (tr : Tracer) (σ : state) (s : ptr) :
  globalTracer σ = Some tr ->
  is_tracer tr = true ->
  full (buf σ) = false ->
  0 <= finished (buf σ) ->
  finished (buf σ) + 1 < len (spans (buf σ)) ->
  len (spans (buf σ)) <= traceMaxSize ->
  partial_flush_at tr (finished (buf σ) + 1) = true ->
  Forall (fun p => is_Some (heap σ !! p)) (spans (buf σ)) ->
  is_Some (priority (buf σ)) ->
  In s (spans (buf σ)) ->
  let fl := <[s := true]> (flags (heap σ)) in
  exists σ',
    finishedOne s σ = Ok σ'
    /\ finish_result s
         (List.filter (fun p => negb (flagged fl p)) (spans (buf σ))) 0
         [mkChunk (List.filter (flagged fl) (spans (buf σ))) (will_send (buf σ))]
         σ σ'.
Proof.
  intros Hg Ht Hf H0 Hlen Hmax Hp Hall [pr Hpr] Hin fl.
  assert (Hs : is_Some (heap σ !! s)).
  { rewrite Forall_forall in Hall. apply Hall. now apply list_elem_of_In. }
  destruct Hs as [sp Hs].
  destruct (finishedOne_unfold tr σ s sp Hg Hf Hs) as (σ2 & -> & Hg2 & [b Hb] & Hf2 & Hs2).
  { unfold GoInt.minInt, GoInt.maxInt, traceMaxSize in *. lia. }
  destruct (finish_flush_partial tr s σ2 pr Ht) as (σ' & -> & Hg' & [b' Hb'] & Hf' & Hs').
  - rewrite Hb. cbn. lia.
  - rewrite Hb. exact Hp.
  - rewrite Hb. cbn. lia.
  - rewrite Hb. cbn. rewrite Forall_forall in *. intros p Hp'.
    specialize (Hall p Hp').
    apply (f_equal (fun m => m !! p)) in Hf2.
    rewrite flags_lookup in Hf2.
    destruct (heap σ2 !! p); [eauto|].
    destruct (decide (s = p)) as [->|Hne].
    + rewrite lookup_insert_eq in Hf2. discriminate.
    + rewrite lookup_insert_ne, flags_lookup in Hf2 by exact Hne.
      destruct Hall as [x Hx]. rewrite Hx in Hf2. discriminate.
  - rewrite Hb. exact Hpr.
  - rewrite Hb, Hf2. cbn. intros Hnil.
    assert (Hin' : In s (List.filter (flagged (<[s:=true]> (flags (heap σ))))
                           (spans (buf σ)))).
    { apply filter_In. split; [exact Hin|].
      unfold flagged. now rewrite lookup_insert_eq. }
    rewrite Hnil in Hin'. exact Hin'.
  - eexists; split; [reflexivity|].
    unfold finish_result. repeat split.
    + congruence.
    + exists b'. rewrite Hb', Hb, Hf2. reflexivity.
    + congruence.
    + rewrite Hs', Hs2, Hb, Hf2. reflexivity.
Qed.

(** *** Lists split by a flag *)

Lemma filter_split_perm {A : Type} (f : A -> bool) (l : list A) :
  Permutation (List.filter f l ++ List.filter (fun x => negb (f x)) l) l.
Proof.
  induction l as [|x l IH]; cbn; [constructor|].
  destruct (f x); cbn.
  - now constructor.
  - apply Permutation_sym, Permutation_cons_app, Permutation_sym, IH.
Qed.

Lemma filter_filter_neg {A : Type} (f : A -> bool) (l : list A) :
  List.filter f (List.filter (fun x => negb (f x)) l) = [].
Proof.
  induction l as [|x l IH]; cbn; [reflexivity|].
  destruct (f x) eqn:Hx; cbn; [exact IH|]. now rewrite Hx.
Qed.

Lemma filter_idem {A : Type} (f : A -> bool) (l : list A) :
  List.filter f (List.filter f l) = List.filter f l.
Proof.
  induction l as [|x l IH]; cbn; [reflexivity|].
  destruct (f x) eqn:Hx; cbn; [rewrite Hx; now f_equal|exact IH].
Qed.

Lemma flagged_insert (F : gmap ptr bool) (s p : ptr) :
  flagged (<[s := true]> F) p = if decide (p = s) then true else flagged F p.
Proof.
  unfold flagged. destruct (decide (p = s)) as [->|Hne].
  - now rewrite lookup_insert_eq.
  - now rewrite lookup_insert_ne by congruence.
Qed.

(** Setting the flag of an unfinished buffered span moves it, and only it,
    from the unfinished to the finished spans. *)
Lemma flag_one (F : gmap ptr bool) (s : ptr) (l : list ptr) :
  NoDup l -> In s l -> flagged F s = false ->
  Permutation (List.filter (fun p => negb (flagged F p)) l)
    (s :: List.filter (fun p => negb (flagged (<[s := true]> F) p)) l)
  /\ length (List.filter (flagged (<[s := true]> F)) l)
     = S (length (List.filter (flagged F) l)).
Proof.
  intros Hnd Hin Hs. induction l as [|x l IH]; [destruct Hin|].
  apply NoDup_cons in Hnd as [Hx Hnd].
  rewrite list_elem_of_In in Hx.
  cbn [List.filter]. rewrite (flagged_insert F s x).
  destruct (decide (x = s)) as [->|Hne].
  - rewrite Hs. cbn [negb].
    assert (Hsame : forall p, In p l ->
              flagged (<[s := true]> F) p = flagged F p).
    { intros p Hp. rewrite flagged_insert.
      destruct (decide (p = s)) as [->|]; [contradiction|reflexivity]. }
    rewrite (filter_ext_in (flagged (<[s := true]> F)) (flagged F) l Hsame).
    rewrite (filter_ext_in (fun p => negb (flagged (<[s := true]> F) p))
               (fun p => negb (flagged F p)) l)
      by (intros p Hp; now rewrite Hsame).
    split; [reflexivity|reflexivity].
  - destruct Hin as [Heq|Hin]; [congruence|].
    destruct (IH Hnd Hin) as [IHp IHl].
    destruct (flagged F x); cbn [negb length].
    + split; [exact IHp|now rewrite IHl].
    + split; [|exact IHl].
      rewrite IHp. apply perm_swap.
Qed.

(** *** Calls that leave the buffered spans alone, and push *)

Lemma setSamplingPriorityLocked_frame (p sampler : Z) (t : trace) :
  let t' := fst (setSamplingPriorityLocked p sampler t) in
  spans t' = spans t /\ finished t' = finished t /\ full t' = full t
  /\ decision t' = decision t
  /\ (is_Some (priority t) -> is_Some (priority t')).
Proof.
  unfold setSamplingPriorityLocked. destruct (locked t); [cbn; auto|].
  cbv zeta. destruct (_ && _ && _); cbn [fst].
  - cbn. eauto 10.
  - destruct (_ && _); cbn; eauto 10.
Qed.

Lemma queue_grown_refl (σ : state) : queue_grown [] σ σ.
Proof. unfold queue_grown. rewrite app_nil_r. auto 10. Qed.

Lemma queue_grown_trans (l1 l2 : list ptr) (σ1 σ2 σ3 : state) :
  queue_grown l1 σ1 σ2 -> queue_grown l2 σ2 σ3 -> queue_grown (l1 ++ l2) σ1 σ3.
Proof.
  intros (A1 & A2 & A3 & A4 & A5 & A6 & A7) (B1 & B2 & B3 & B4 & B5 & B6 & B7).
  unfold queue_grown. rewrite B4, A4, app_assoc.
  repeat split; try congruence. auto.
Qed.

Lemma quiet_exec (c : call) (σ : state) :
  quiet c = true ->
  exists σ', exec c σ = Ok σ' /\ queue_grown [] σ σ'.
Proof.
  intros Hq. destruct c; try discriminate Hq; cbn [exec];
    (eexists; split; [reflexivity|]); unfold queue_grown, on_buf; cbn;
    rewrite ?app_nil_r; auto 10.
  destruct (setSamplingPriorityLocked_frame p sampler (buf σ))
    as (H1 & H2 & H3 & H4 & H5).
  unfold setSamplingPriority. auto 10.
Qed.

Lemma push_ok (sp : ptr) (σ : state) :
  full (buf σ) = false ->
  len (spans (buf σ)) < traceMaxSize ->
  allocated (heap σ) sp ->
  exists σ', push sp σ = Ok σ' /\ queue_grown [sp] σ σ'.
Proof.
  intros Hf Hlen [x Hx]. unfold push. cbv zeta. rewrite Hf.
  destruct (Z.leb_spec traceMaxSize (len (spans (buf σ)))) as [|_]; [lia|].
  rewrite (deref_Some _ _ _ Hx). cbn [mbind outcome_bind obind].
  set (t := match metrics x !! keySamplingPriority with
            | Some v => fst (setSamplingPriorityLocked (Float64.to_int v)
                               samplernames_Unknown (buf σ))
            | None => buf σ
            end).
  assert (Ht : spans t = spans (buf σ) /\ finished t = finished (buf σ)
               /\ full t = full (buf σ)
               /\ (is_Some (priority (buf σ)) -> is_Some (priority t))).
  { subst t. destruct (metrics x !! keySamplingPriority) as [v|]; [|auto].
    destruct (setSamplingPriorityLocked_frame (Float64.to_int v)
                samplernames_Unknown (buf σ)) as (H1 & H2 & H3 & _ & H5). auto. }
  clearbody t. destruct Ht as (H1 & H2 & H3 & H4).
  eexists; split; [reflexivity|].
  unfold queue_grown, submitted.
  destruct (globalTracer σ) eqn:Hg; cbn;
    rewrite ?submitted_of_app, ?app_nil_r, ?H1; auto 10.
Qed.

Lemma push_overflow (sp : ptr) (σ : state) :
  full (buf σ) = false ->
  traceMaxSize <= len (spans (buf σ)) ->
  exists σ',
    push sp σ = Ok σ'
    /\ buf σ' = set_spans [] (set_full true (buf σ))
    /\ heap σ' = heap σ
    /\ globalTracer σ' = globalTracer σ
    /\ submitted σ' = submitted σ.
Proof.
  intros Hf Hlen. unfold push. cbv zeta. rewrite Hf.
  destruct (Z.leb_spec traceMaxSize (len (spans (buf σ)))) as [_|]; [|lia].
  eexists; split; [reflexivity|].
  unfold submitted.
  destruct (globalTracer σ) eqn:Hg; cbn;
    rewrite ?submitted_of_app, ?app_nil_r; auto.
Qed.

(** ** Capacity overflow *)

Lemma full_push (sp : ptr) (σ : state) : full (buf σ) = true -> push sp σ = Ok σ.
Proof. intros Hf. unfold push. cbv zeta. now rewrite Hf. Qed.

Lemma full_finishedOne (s : ptr) (x : Span) (σ : state) :
  full (buf σ) = true -> heap σ !! s = Some x ->
  finishedOne s σ = Ok (store s (set_span_finished true x) σ).
Proof.
  intros Hf Hs. unfold finishedOne. rewrite (deref_Some _ _ _ Hs).
  cbn [mbind outcome_bind obind].
  change (buf (store s (set_span_finished true x) σ)) with (buf σ).
  now rewrite Hf.
Qed.

Lemma allocated_insert (h : gmap ptr Span) (s p : ptr) (x : Span) :
  allocated h p -> allocated (<[s := x]> h) p.
Proof.
  unfold allocated. intros Hp. destruct (decide (s = p)) as [->|Hne].
  - rewrite lookup_insert_eq. eauto.
  - now rewrite lookup_insert_ne.
Qed.

Lemma full_exec (c : call) (σ : state) :
  full (buf σ) = true ->
  Forall (allocated (heap σ)) (finishes [c]) ->
  exists σ',
    exec c σ = Ok σ'
    /\ full (buf σ') = true
    /\ spans (buf σ') = spans (buf σ)
    /\ finished (buf σ') = finished (buf σ)
    /\ submitted σ' = submitted σ
    /\ (forall p, allocated (heap σ) p -> allocated (heap σ') p)
    /\ (forall p, flagged (flags (heap σ)) p = true ->
                  flagged (flags (heap σ')) p = true)
    /\ Forall (fun s => flagged (flags (heap σ')) s = true) (finishes [c]).
Proof.
  intros Hf Hc. destruct c; cbn [exec finishes] in *.
  - rewrite full_push by exact Hf. eexists; split; [reflexivity|]. auto 10.
  - inversion Hc as [|? ? [x Hx] _]; subst.
    rewrite (full_finishedOne s x σ Hf Hx). eexists; split; [reflexivity|].
    cbn. repeat split; auto.
    + intros p. apply allocated_insert.
    + intros p Hp. unfold flags. rewrite fmap_insert, flagged_insert.
      destruct (decide (p = s)); [reflexivity|exact Hp].
    + constructor; [|constructor].
      unfold flags. rewrite fmap_insert. unfold flagged.
      now rewrite lookup_insert_eq.
  - eexists; split; [reflexivity|]. cbn. auto 10.
  - eexists; split; [reflexivity|]. cbn. auto 10.
  - eexists; split; [reflexivity|]. cbn.
    destruct (setSamplingPriorityLocked_frame p sampler (buf σ))
      as (H1 & H2 & H3 & _). unfold setSamplingPriority.
    rewrite H1, H2, H3. auto 10.
  - eexists; split; [reflexivity|]. cbn. auto 10.
  - eexists; split; [reflexivity|]. cbn. auto 10.
  - eexists; split; [reflexivity|]. cbn. auto 10.
Qed.

Lemma finishes_app (a b : list call) : finishes (a ++ b) = finishes a ++ finishes b.
Proof.
  induction a as [|c a IH]; [reflexivity|]. destruct c; cbn; now rewrite ?IH.
Qed.

Lemma full_run (cs : list call) : forall σ,
  full (buf σ) = true ->
  Forall (allocated (heap σ)) (finishes cs) ->
  exists σ',
    run cs σ = Ok σ'
    /\ full (buf σ') = true
    /\ spans (buf σ') = spans (buf σ)
    /\ finished (buf σ') = finished (buf σ)
    /\ submitted σ' = submitted σ
    /\ (forall p, flagged (flags (heap σ)) p = true ->
                  flagged (flags (heap σ')) p = true)
    /\ Forall (fun s => flagged (flags (heap σ')) s = true) (finishes cs).
Proof.
  induction cs as [|c cs IH]; intros σ Hf Hall.
  - exists σ. cbn. auto 10.
  - change (c :: cs) with ([c] ++ cs) in Hall.
    rewrite finishes_app, Forall_app in Hall. destruct Hall as [Hc Hcs].
    destruct (full_exec c σ Hf Hc) as (σ1 & He & Hf1 & Hs1 & Hn1 & Hsub1 & Hal1 & Hfl1 & Hc1).
    destruct (IH σ1 Hf1) as (σ2 & Hr & Hf2 & Hs2 & Hn2 & Hsub2 & Hfl2 & Hc2).
    { eapply Forall_impl; [exact Hcs|exact Hal1]. }
    exists σ2. cbn [run]. rewrite He. cbn [mbind outcome_bind obind].
    split; [exact Hr|]. repeat split; try congruence.
    + auto.
    + change (c :: cs) with ([c] ++ cs). rewrite finishes_app, Forall_app.
      split; [|exact Hc2].
      eapply Forall_impl; [exact Hc1|]. intros p. apply Hfl2.
Qed.

(** *** A full buffer holds no span, in every reachable state *)

Lemma update_inv (p : ptr) (f : Span -> Span) (σ σ' : state) :
  update p f σ = Ok σ' -> buf σ' = buf σ.
Proof.
  unfold update, deref. destruct (heap σ !! p); cbn; [|discriminate].
  intros H. injection H as <-. reflexivity.
Qed.

Lemma finish_annotate_inv (tr : Tracer) (s : ptr) (σ σ' : state) :
  finish_annotate tr s σ = Ok σ' -> exists b, buf σ' = set_locked b (buf σ).
Proof.
  intros H.
  assert (Hs : is_Some (heap σ !! s)).
  { unfold finish_annotate, deref in H. destruct (heap σ !! s); [eauto|discriminate H]. }
  destruct (finish_annotate_frame tr s σ Hs) as (σ'' & He & (_ & Hb & _)).
  rewrite H in He. injection He as <-. exact Hb.
Qed.

Lemma finish_flush_inv (tr : Tracer) (s : ptr) (σ σ' : state) :
  finish_flush tr s σ = Ok σ' -> full (buf σ') = full (buf σ).
Proof.
  unfold finish_flush. cbv zeta.
  destruct (len (spans (buf σ)) =? finished (buf σ)).
  { intros H. injection H as <-. now destruct (is_tracer tr). }
  destruct (negb _); [intros H; now injection H as <-|].
  destruct (_ || _); [discriminate|].
  destruct (split_loop _ _ _ _) as [[fs ls]|]; cbn [mbind outcome_bind obind];
    [|discriminate].
  destruct fs as [|f0 fs]; [discriminate|].
  destruct (priority (buf σ)) as [pr|]; [|discriminate].
  destruct (update f0 _ _) as [σ1|] eqn:H1; cbn [mbind outcome_bind obind];
    [|discriminate].
  apply update_inv in H1. cbn in H1.
  destruct (spans (buf σ)) as [|first rest]; [discriminate|].
  destruct (negb (s =? first)%positive).
  - destruct (update f0 _ σ1) as [σ2|] eqn:H2; cbn [mbind outcome_bind obind];
      [|discriminate].
    apply update_inv in H2. intros H. injection H as <-.
    destruct (is_tracer tr); cbn; now rewrite H2, H1.
  - cbn [mbind outcome_bind obind]. intros H. injection H as <-.
    destruct (is_tracer tr); cbn; now rewrite H1.
Qed.

Lemma finishedOne_inv (s : ptr) (σ σ' : state) :
  finishedOne s σ = Ok σ' ->
  full (buf σ') = full (buf σ)
  /\ (full (buf σ) = true -> spans (buf σ') = spans (buf σ)).
Proof.
  unfold finishedOne, deref. destruct (heap σ !! s) as [x|]; [|discriminate].
  cbn [mbind outcome_bind obind].
  change (buf (store s (set_span_finished true x) σ)) with (buf σ).
  destruct (full (buf σ)) eqn:Hf.
  { intros H. injection H as <-. cbn. auto. }
  set (σ1 := set_buf _ _).
  destruct (globalTracer σ1) as [tr|].
  - destruct (finish_annotate tr s σ1) as [σ2|] eqn:H2; cbn [mbind outcome_bind obind];
      [|discriminate].
    apply finish_annotate_inv in H2 as [b Hb].
    intros H. apply finish_flush_inv in H. rewrite H, Hb. subst σ1. cbn.
    split; [exact Hf|discriminate].
  - intros H. injection H as <-. subst σ1. cbn. split; [exact Hf|discriminate].
Qed.

Lemma exec_full_inv (c : call) (σ σ' : state) :
  full_inv σ -> exec c σ = Ok σ' -> full_inv σ'.
Proof.
  unfold full_inv. intros Hinv He. destruct c; cbn [exec] in He.
  - unfold push in He. cbv zeta in He.
    destruct (full (buf σ)) eqn:Hf;
      [injection He as <-; intros _; now apply Hinv|].
    destruct (traceMaxSize <=? len (spans (buf σ))).
    + injection He as <-. now destruct (globalTracer σ).
    + unfold deref in He. destruct (heap σ !! sp) as [x|]; [|discriminate He].
      cbn [mbind outcome_bind obind] in He. injection He as <-.
      assert (Hff : forall t, full t = false -> full (buf
                (match globalTracer σ with
                 | Some _ => emit [Signal SpanStarted 1]
                               (set_buf (set_spans (spans t ++ [sp]) t) σ)
                 | None => set_buf (set_spans (spans t ++ [sp]) t) σ
                 end)) = true -> False).
      { intros t Ht. destruct (globalTracer σ); cbn; congruence. }
      intros Hfull. exfalso. revert Hfull. apply Hff.
      destruct (metrics x !! keySamplingPriority) as [v|]; [|exact Hf].
      destruct (setSamplingPriorityLocked_frame (Float64.to_int v)
                  samplernames_Unknown (buf σ)) as (_ & _ & H3 & _). congruence.
  - apply finishedOne_inv in He as [H1 H2]. intros Hf. rewrite H1 in Hf.
    rewrite (H2 Hf). auto.
  - injection He as <-. exact Hinv.
  - injection He as <-. exact Hinv.
  - injection He as <-. cbn.
    destruct (setSamplingPriorityLocked_frame p sampler (buf σ)) as (H1 & _ & H3 & _).
    unfold setSamplingPriority. rewrite H1, H3. exact Hinv.
  - injection He as <-. exact Hinv.
  - injection He as <-. exact Hinv.
  - injection He as <-. exact Hinv.
Qed.

(** Every state reached from a fresh buffer satisfies [full_inv]. *)
Lemma reachable_full_inv (cs : list call) : forall (σ σ' : state),
  full_inv σ -> run cs σ = Ok σ' -> full_inv σ'.
Proof.
  induction cs as [|c cs IH]; intros σ σ' Hinv Hr; cbn [run] in Hr.
  - injection Hr as <-. exact Hinv.
  - destruct (exec c σ) as [σ1|] eqn:He; cbn [mbind outcome_bind obind] in Hr;
      [|discriminate].
    exact (IH σ1 σ' (exec_full_inv c σ σ1 Hinv He) Hr).
Qed.

Lemma init_full_inv (g : option Tracer) (h : gmap ptr Span) : full_inv (init g h).
Proof. intros H. discriminate H. Qed.

(** C3.  A push on a buffer that holds [traceMaxSize] = 100000 spans (in a
    state where [full_inv] holds, as in every reachable one) sets [full] and
    empties the span collection.  From then on, whatever calls
    follow (on spans that exist), every call returns, [full] stays set, the
    buffer stays empty, the finished counter and the submitted chunks do
    not change, every finished span has its flag set; a push returns the
    state as it is and [finishedOne] only sets the flag of its span. *)
Theorem overflow_abandons_trace (sp : ptr) (σ : state) :
  full_inv σ ->
  traceMaxSize <= len (spans (buf σ)) ->
  traceMaxSize = 100000
  /\ exists σ1,
    push sp σ = Ok σ1
    /\ full (buf σ1) = true
    /\ spans (buf σ1) = []
    /\ submitted σ1 = submitted σ
    /\ forall cs,
        Forall (allocated (heap σ)) (finishes cs) ->
        exists σ2,
          run cs σ1 = Ok σ2
          /\ full (buf σ2) = true
          /\ spans (buf σ2) = []
          /\ finished (buf σ2) = finished (buf σ)
          /\ submitted σ2 = submitted σ
          /\ Forall (fun s => flagged (flags (heap σ2)) s = true) (finishes cs)
          /\ (forall p, push p σ2 = Ok σ2)
          /\ (forall s x, heap σ2 !! s = Some x ->
                finishedOne s σ2 = Ok (store s (set_span_finished true x) σ2)).
Proof.
  intros Hinv Hlen. split; [reflexivity|].
  assert (Hf : full (buf σ) = false).
  { destruct (full (buf σ)) eqn:Hfull; [|reflexivity].
    rewrite (Hinv Hfull) in Hlen. unfold traceMaxSize, len in Hlen. cbn in Hlen. lia. }
  destruct (push_overflow sp σ Hf Hlen) as (σ1 & Hp & Hb & Hh & Hg & Hs).
  exists σ1. split; [exact Hp|].
  assert (Hf1 : full (buf σ1) = true) by (rewrite Hb; reflexivity).
  repeat split; [exact Hf1|rewrite Hb; reflexivity|exact Hs|].
  intros cs Hall.
  destruct (full_run cs σ1 Hf1) as (σ2 & Hr & Hf2 & Hs2 & Hn2 & Hsub2 & _ & Hc2).
  { now rewrite Hh. }
  exists σ2. split; [exact Hr|].
  repeat split; try assumption.
  - rewrite Hs2, Hb. reflexivity.
  - rewrite Hn2, Hb. reflexivity.
  - congruence.
  - intros p. now apply full_push.
  - intros s x. now apply full_finishedOne.
Qed.

(** ** Runs of calls *)

Lemma run_app (a b : list call) : forall σ,
  run (a ++ b) σ = σ' ← run a σ; run b σ'.
Proof.
  induction a as [|c a IH]; intros σ; [reflexivity|].
  cbn [run app]. destruct (exec c σ) as [σ1|e]; cbn [mbind outcome_bind obind];
    [apply IH|reflexivity].
Qed.

Lemma pushes_app (a b : list call) : pushes (a ++ b) = pushes a ++ pushes b.
Proof.
  induction a as [|c a IH]; [reflexivity|]. destruct c; cbn; now rewrite ?IH.
Qed.

Lemma len_app {A : Type} (a b : list A) : len (a ++ b) = len a + len b.
Proof. unfold len. rewrite length_app. lia. Qed.

Lemma len_cons {A : Type} (x : A) (a : list A) : len (x :: a) = len a + 1.
Proof. unfold len. cbn [length]. lia. Qed.

Lemma len_nonneg {A : Type} (a : list A) : 0 <= len a.
Proof. unfold len. lia. Qed.


Lemma start_phase (cs : list call) : forall σ,
  forallb starting cs = true ->
  full (buf σ) = false ->
  len (spans (buf σ)) + len (pushes cs) <= traceMaxSize ->
  Forall (allocated (heap σ)) (pushes cs) ->
  exists σ', run cs σ = Ok σ' /\ queue_grown (pushes cs) σ σ'.
Proof.
  induction cs as [|c cs IH]; intros σ Hq Hf Hlen Hall.
  - exists σ. split; [reflexivity|apply queue_grown_refl].
  - cbn [forallb] in Hq. apply andb_prop in Hq as [Hc Hq].
    assert (Hstep : exists σ1, exec c σ = Ok σ1 /\ queue_grown (pushes [c]) σ σ1).
    { destruct c; try discriminate Hc; try (apply quiet_exec; reflexivity).
      cbn [pushes] in *. apply push_ok; [exact Hf| |now inversion Hall].
      rewrite len_cons in Hlen. pose proof (len_nonneg (pushes cs)). lia. }
    destruct Hstep as (σ1 & He & G1).
    change (c :: cs) with ([c] ++ cs) in Hlen, Hall |- *.
    rewrite pushes_app in Hlen, Hall |- *. rewrite len_app in Hlen.
    apply Forall_app in Hall as [_ Hall].
    pose proof G1 as (_ & Hh1 & _ & Hs1 & _ & Hf1 & _).
    destruct (IH σ1 Hq) as (σ2 & Hr & G2).
    + congruence.
    + rewrite Hs1, len_app. lia.
    + now rewrite Hh1.
    + exists σ2. cbn [run app]. rewrite He. split; [exact Hr|].
      apply (queue_grown_trans _ _ σ σ1 σ2 G1 G2).
Qed.

Lemma finish_result_frame (s : ptr) (l' : list ptr) (n : Z) (cs : list chunk)
    (σ σ' : state) :
  finish_result s l' n cs σ σ' ->
  spans (buf σ') = l' /\ finished (buf σ') = n
  /\ full (buf σ') = full (buf σ)
  /\ priority (buf σ') = priority (buf σ)
  /\ decision (buf σ') = decision (buf σ)
  /\ (forall p, allocated (heap σ) p -> allocated (heap σ') p).
Proof.
  intros (_ & [b Hb] & Hfl & _). rewrite Hb. repeat split.
  intros p [x Hx]. unfold allocated.
  apply (f_equal (fun m => m !! p)) in Hfl. rewrite flags_lookup in Hfl.
  destruct (heap σ' !! p); [eauto|].
  destruct (decide (s = p)) as [->|Hne].
  - rewrite lookup_insert_eq in Hfl. discriminate.
  - rewrite lookup_insert_ne, flags_lookup, Hx in Hfl by exact Hne. discriminate.
Qed.


(** ** Full flush *)



(** ** Partial flush *)

Lemma flushed_app (σ σ' : state) (cs : list chunk) :
  submitted σ' = submitted σ ++ cs ->
  flushed σ' = flushed σ ++ concat (map chunk_spans cs).
Proof. intros H. unfold flushed. now rewrite H, map_app, concat_app. Qed.

Lemma filter_len_split {A : Type} (f : A -> bool) (l : list A) :
  len (List.filter f l) + len (List.filter (fun x => negb (f x)) l) = len l.
Proof. unfold len. rewrite <- (filter_length f l). lia. Qed.

Lemma len_nil_inv {A : Type} (l : list A) : len l = 0 -> l = [].
Proof. destruct l; [reflexivity|]. unfold len. cbn. lia. Qed.

Lemma Forall_filter_sub {A : Type} (P : A -> Prop) (f : A -> bool) (l : list A) :
  Forall P l -> Forall P (List.filter f l).
Proof.
  rewrite !Forall_forall. intros H x Hx. apply H.
  rewrite list_elem_of_In in *. now apply filter_In in Hx.
Qed.

(** One finish of an unfinished buffered span keeps the buffer in order
    and loses no span: it is buffered or in a chunk afterwards. *)
Lemma drain_step (tr : Tracer) (σ : state) (s : ptr) :
  is_tracer tr = true ->
  draining tr σ ->
  In s (unfinished σ) ->
  exists σ',
    finishedOne s σ = Ok σ'
    /\ draining tr σ'
    /\ Permutation (unfinished σ) (s :: unfinished σ')
    /\ Permutation (flushed σ' ++ spans (buf σ')) (flushed σ ++ spans (buf σ)).
Proof.
  intros Ht (Hg & (Hf & Hnd & Hall & Hcnt & Hmax) & Hpr & _) Hin.
  unfold unfinished in Hin. apply filter_In in Hin as [Hin Hs].
  apply negb_true_iff in Hs.
  set (F := flags (heap σ)) in *. set (l := spans (buf σ)) in *.
  destruct (flag_one F s l Hnd Hin Hs) as [Hperm Hlen].
  assert (Hn : finished (buf σ) + 1 = len (List.filter (flagged (<[s := true]> F)) l)).
  { rewrite Hcnt. unfold len. rewrite Hlen. lia. }
  pose proof (filter_len_split (flagged (<[s := true]> F)) l) as Hsplit.
  pose proof (len_nonneg (List.filter (fun p => negb (flagged (<[s := true]> F) p)) l)) as HU.
  pose proof (len_nonneg (List.filter (flagged F) l)) as HF0.
  assert (Hsal : allocated (heap σ) s).
  { rewrite Forall_forall in Hall. apply Hall. now apply list_elem_of_In. }
  (* what every outcome shares *)
  assert (Hok : forall l' n cs σ',
             finish_result s l' n cs σ σ' ->
             NoDup l' -> (forall p, In p l' -> In p l) ->
             n = len (List.filter (flagged (<[s := true]> F)) l') ->
             (l' = [] \/ n < len l') ->
             draining tr σ'
             /\ unfinished σ'
                = List.filter (fun p => negb (flagged (<[s := true]> F) p)) l'
             /\ flushed σ' = flushed σ ++ concat (map chunk_spans cs)
             /\ spans (buf σ') = l').
  { intros l' n cs σ' R Hnd' Hsub Hn' Hk.
    destruct (finish_result_frame _ _ _ _ _ _ R) as (Hs' & Hn1 & Hf' & Hp' & _ & Ha').
    pose proof R as (Hg' & _ & Hfl' & Hsub').
    repeat split.
    - congruence.
    - congruence.
    - now rewrite Hs'.
    - rewrite Hs'. rewrite Forall_forall in *. intros p Hp. apply Ha', Hall.
      rewrite list_elem_of_In in *. auto.
    - rewrite Hs', Hfl', Hn1. exact Hn'.
    - rewrite Hs'. transitivity (len l); [|exact Hmax].
      unfold len. apply inj_le, NoDup_incl_length; [|exact Hsub].
      now apply NoDup_ListNoDup.
    - now rewrite Hp'.
    - rewrite Hs', Hn1. exact Hk.
    - unfold unfinished. now rewrite Hs', Hfl'.
    - now apply flushed_app.
    - exact Hs'. }
  destruct (Z.eq_dec (len l) (finished (buf σ) + 1)) as [Hfull|Hpart].
  - (* every buffered span has finished: full flush *)
    destruct (finishedOne_full_flush tr σ s Hg Ht Hf Hsal ltac:(lia) Hfull Hmax)
      as (σ' & He & R).
    destruct (Hok [] 0 _ σ' R) as (Hd & Hu & Hfl & Hsp);
      [constructor|intros p []|reflexivity|now left|].
    exists σ'. split; [exact He|]. split; [exact Hd|].
    assert (HU0 : List.filter (fun p => negb (flagged (<[s := true]> F) p)) l = []).
    { apply len_nil_inv. lia. }
    rewrite Hu, Hfl, Hsp. cbn [List.filter map concat chunk_spans].
    rewrite !app_nil_r. split; [|reflexivity].
    fold (unfinished σ) in Hperm. now rewrite HU0 in Hperm.
  - destruct (partial_flush_at tr (finished (buf σ) + 1)) eqn:Hpf.
    + (* partial flush *)
      assert (Hlt : finished (buf σ) + 1 < len l) by lia.
      destruct (finishedOne_partial_flush tr σ s Hg Ht Hf ltac:(lia) Hlt
                  Hmax Hpf Hall Hpr Hin) as (σ' & He & R).
      fold F in R. fold l in R.
      destruct (Hok _ 0 _ σ' R) as (Hd & Hu & Hfl & Hsp).
      { apply NoDup_ListNoDup, List.NoDup_filter, NoDup_ListNoDup, Hnd. }
      { intros p Hp. apply filter_In in Hp as [Hp _]. exact Hp. }
      { rewrite filter_filter_neg. reflexivity. }
      { destruct (List.filter (fun p => negb (flagged (<[s := true]> F) p)) l)
          as [|x r]; [now left|right].
        rewrite len_cons. pose proof (len_nonneg r). lia. }
      exists σ'. split; [exact He|]. split; [exact Hd|].
      rewrite Hu, Hfl, Hsp, filter_idem. cbn [map concat chunk_spans].
      rewrite app_nil_r. split; [exact Hperm|].
      rewrite <- app_assoc. apply Permutation_app_head, filter_split_perm.
    + (* the span is counted *)
      destruct (finishedOne_no_flush tr σ s Hg Hf Hsal) as (σ' & He & R).
      { unfold GoInt.minInt, GoInt.maxInt, traceMaxSize in *. lia. }
      { now intros H; apply Hpart. }
      { exact Hpf. }
      destruct (Hok l _ _ σ' R) as (Hd & Hu & Hfl & Hsp);
        [exact Hnd|auto|exact Hn|right; lia|].
      exists σ'. split; [exact He|]. split; [exact Hd|].
      rewrite Hu, Hfl, Hsp. cbn [map concat]. rewrite app_nil_r.
      split; [exact Hperm|reflexivity].
Qed.

Lemma drain_quiet (tr : Tracer) (c : call) (σ : state) :
  quiet c = true ->
  draining tr σ ->
  exists σ',
    exec c σ = Ok σ' /\ draining tr σ'
    /\ unfinished σ' = unfinished σ
    /\ flushed σ' = flushed σ
    /\ spans (buf σ') = spans (buf σ).
Proof.
  intros Hq (Hg & (Hf & Hnd & Hall & Hcnt & Hmax) & Hpr & Hk).
  destruct (quiet_exec c σ Hq) as (σ' & He & (Hg' & Hh' & Hsub' & Hs' & Hn' & Hf' & Hp')).
  rewrite app_nil_r in Hs'.
  exists σ'. split; [exact He|].
  unfold draining, buffer_ok, unfinished, flushed.
  rewrite Hg', Hh', Hsub', Hs', Hn', Hf'. auto 12.
Qed.

Lemma drain_phase (tr : Tracer) (cs : list call) : forall σ,
  is_tracer tr = true ->
  draining tr σ ->
  forallb finishing cs = true ->
  Permutation (unfinished σ) (finishes cs) ->
  exists σ',
    run cs σ = Ok σ'
    /\ draining tr σ'
    /\ spans (buf σ') = []
    /\ finished (buf σ') = 0
    /\ Permutation (flushed σ') (flushed σ ++ spans (buf σ)).
Proof.
  induction cs as [|c cs IH]; intros σ Ht Hd Hq Hperm.
  - cbn in Hperm. apply Permutation_nil_r in Hperm.
    pose proof Hd as (_ & (_ & _ & _ & Hcnt & _) & _ & Hk).
    pose proof (filter_len_split (flagged (flags (heap σ))) (spans (buf σ))) as Hsplit.
    unfold unfinished in Hperm. rewrite Hperm in Hsplit.
    change (len (@nil ptr)) with 0 in Hsplit.
    assert (Hnil : spans (buf σ) = []) by (destruct Hk as [Hk|Hk]; [exact Hk|lia]).
    exists σ. rewrite Hnil in *. cbn in Hcnt.
    split; [reflexivity|]. split; [exact Hd|]. split; [reflexivity|].
    split; [exact Hcnt|]. now rewrite app_nil_r.
  - cbn [forallb] in Hq. apply andb_prop in Hq as [Hc Hq].
    destruct (is_finish c) eqn:Hfin.
    + destruct c; try discriminate Hfin. cbn [finishes] in Hperm.
      assert (Hin : In s (unfinished σ)).
      { eapply Permutation_in; [apply Permutation_sym, Hperm|now left]. }
      destruct (drain_step tr σ s Ht Hd Hin) as (σ1 & He & Hd1 & Hp1 & Hfl1).
      assert (Hperm1 : Permutation (unfinished σ1) (finishes cs)).
      { apply (Permutation_cons_inv (a := s)).
        rewrite <- Hp1. exact Hperm. }
      destruct (IH σ1 Ht Hd1 Hq Hperm1) as (σ2 & Hr & Hd2 & Hs2 & Hn2 & Hfl2).
      exists σ2. cbn [run exec]. rewrite He. split; [exact Hr|].
      split; [exact Hd2|]. split; [exact Hs2|]. split; [exact Hn2|].
      now rewrite Hfl2.
    + assert (Hqc : quiet c = true).
      { unfold quiet. unfold finishing in Hc. rewrite Hfin.
        apply andb_prop in Hc as [-> ->]. reflexivity. }
      destruct (drain_quiet tr c σ Hqc Hd) as (σ1 & He & Hd1 & Hu1 & Hfl1 & Hs1).
      assert (Hfc : finishes (c :: cs) = finishes cs).
      { destruct c; try discriminate Hfin; reflexivity. }
      rewrite Hfc in Hperm.
      destruct (IH σ1 Ht Hd1 Hq ltac:(now rewrite Hu1))
        as (σ2 & Hr & Hd2 & Hs2 & Hn2 & Hfl2).
      exists σ2. cbn [run]. rewrite He. split; [exact Hr|].
      split; [exact Hd2|]. split; [exact Hs2|]. split; [exact Hn2|].
      now rewrite Hfl2, Hfl1, Hs1.
Qed.

Lemma filter_none {A : Type} (f : A -> bool) (l : list A) :
  Forall (fun x => f x = false) l -> List.filter f l = [].
Proof.
  induction 1 as [|x l Hx _ IH]; cbn; [reflexivity|]. now rewrite Hx.
Qed.

Lemma filter_all {A : Type} (f : A -> bool) (l : list A) :
  Forall (fun x => f x = true) l -> List.filter f l = l.
Proof.
  induction 1 as [|x l Hx _ IH]; cbn; [reflexivity|]. now rewrite Hx, IH.
Qed.

(** C2.  With the tracer registered and a sampling priority set: when the
    finish of a buffered span brings the finished count to at least the
    threshold of the enabled partial flush while a buffered span is still
    unfinished, one chunk with exactly the finished spans, in buffer
    order, is submitted, the buffer keeps exactly the unfinished spans and
    the counter is reset to 0.  Over the whole life of a trace whose
    distinct spans are pushed and then finish in any order, the chunks
    submitted hold each pushed span exactly once, and the buffer ends
    empty. *)
Theorem partial_flush_accounting (tr : Tracer) :
  is_tracer tr = true ->
  (forall (σ : state) (s : ptr),
      draining tr σ ->
      In s (unfinished σ) ->
      PartialFlush (conf tr) = true ->
      PartialFlushMinSpans (conf tr) <= finished (buf σ) + 1 ->
      finished (buf σ) + 1 <> len (spans (buf σ)) ->
      let fl := <[s := true]> (flags (heap σ)) in
      exists σ',
        finishedOne s σ = Ok σ'
        /\ flags (heap σ') = fl
        /\ submitted σ'
           = submitted σ
             ++ [mkChunk (List.filter (flagged fl) (spans (buf σ)))
                   (will_send (buf σ))]
        /\ spans (buf σ')
           = List.filter (fun p => negb (flagged fl p)) (spans (buf σ))
        /\ finished (buf σ') = 0
        /\ draining tr σ')
  /\ (forall (σ0 : state) (start cs : list call),
      globalTracer σ0 = Some tr ->
      spans (buf σ0) = [] ->
      finished (buf σ0) = 0 ->
      full (buf σ0) = false ->
      is_Some (priority (buf σ0)) ->
      forallb starting start = true ->
      forallb finishing cs = true ->
      NoDup (pushes start) ->
      Forall (fun p => allocated (heap σ0) p
                       /\ flagged (flags (heap σ0)) p = false) (pushes start) ->
      len (pushes start) <= traceMaxSize ->
      Permutation (finishes cs) (pushes start) ->
      exists σ',
        run (start ++ cs) σ0 = Ok σ'
        /\ Permutation (flushed σ') (flushed σ0 ++ pushes start)
        /\ spans (buf σ') = []
        /\ finished (buf σ') = 0).
Proof.
  intros Ht. split.
  - intros σ s Hd Hin Hpf HT Hne fl.
    destruct (drain_step tr σ s Ht Hd Hin) as (σ' & He & Hd' & _ & _).
    destruct Hd as (Hg & (Hf & Hnd & Hall & Hcnt & Hmax) & Hpr & _).
    pose proof Hin as Hin'.
    unfold unfinished in Hin'. apply filter_In in Hin' as [Hin' Hs].
    apply negb_true_iff in Hs.
    destruct (flag_one _ s _ Hnd Hin' Hs) as [_ Hlen].
    pose proof (filter_len_split (flagged fl) (spans (buf σ))) as Hsplit.
    pose proof (len_nonneg (List.filter (fun p => negb (flagged fl p)) (spans (buf σ)))).
    assert (Hn : finished (buf σ) + 1 = len (List.filter (flagged fl) (spans (buf σ)))).
    { rewrite Hcnt. unfold len, fl. rewrite Hlen. lia. }
    assert (H0 : 0 <= finished (buf σ)) by (rewrite Hcnt; apply len_nonneg).
    destruct (finishedOne_partial_flush tr σ s Hg Ht Hf H0 ltac:(lia) Hmax)
      as (σ'' & He' & R); try assumption.
    { unfold partial_flush_at. rewrite Hpf. cbn. now apply Z.leb_le. }
    rewrite He in He'. injection He' as <-.
    destruct (finish_result_frame _ _ _ _ _ _ R) as (Hs' & Hn' & _).
    pose proof R as (_ & _ & Hfl' & Hsub').
    exists σ'. auto 10.
  - intros σ0 start cs Hg Hs0 Hn0 Hf0 Hpr Hstart Hcs Hnd Hall Hmax Hperm.
    apply Forall_and in Hall as [Halloc Hunf].
    destruct (start_phase start σ0 Hstart Hf0) as (σa & Hra & Ga).
    { rewrite Hs0. cbn. exact Hmax. }
    { exact Halloc. }
    destruct Ga as (Hga & Hha & Hsuba & Hsa & Hna & Hfa & Hpa).
    rewrite Hs0 in Hsa. cbn [app] in Hsa.
    assert (Hfil : List.filter (flagged (flags (heap σa))) (spans (buf σa)) = []).
    { rewrite Hsa, Hha. now apply filter_none. }
    assert (Hda : draining tr σa).
    { repeat split.
      - congruence.
      - congruence.
      - now rewrite Hsa.
      - now rewrite Hsa, Hha.
      - rewrite Hfil, Hna, Hn0. reflexivity.
      - now rewrite Hsa.
      - auto.
      - rewrite Hsa, Hna, Hn0. destruct (pushes start) as [|x r]; [now left|right].
        rewrite len_cons. pose proof (len_nonneg r). lia. }
    assert (Hua : unfinished σa = pushes start).
    { unfold unfinished. rewrite Hsa, Hha. apply filter_all.
      eapply Forall_impl; [exact Hunf|]. intros p Hp. cbn. now rewrite Hp. }
    destruct (drain_phase tr cs σa Ht Hda Hcs) as (σ' & Hr & _ & Hs' & Hn' & Hfl').
    { rewrite Hua. now apply Permutation_sym. }
    exists σ'. rewrite run_app, Hra. split; [exact Hr|].
    split; [|auto].
    rewrite Hfl', Hsa. unfold flushed. now rewrite Hsuba.
Qed.

(** ** Totality of push and finish *)

(** [push] returns for every span that exists. *)
Lemma push_returns (sp : ptr) (σ : state) :
  allocated (heap σ) sp -> exists σ', push sp σ = Ok σ'.
Proof.
  intros [x Hx]. unfold push. cbv zeta.
  destruct (full (buf σ)); [eauto|].
  destruct (traceMaxSize <=? len (spans (buf σ))); [eauto|].
  rewrite (deref_Some _ _ _ Hx). cbn [mbind outcome_bind obind]. eauto.
Qed.

(** When the partial flush fires on a buffer whose priority was never set,
    [finishedOne] dereferences the nil priority. *)
Lemma partial_flush_nil_priority (tr : Tracer) (σ : state) (s : ptr) :
  globalTracer σ = Some tr ->
  buffer_ok σ ->
  In s (unfinished σ) ->
  priority (buf σ) = None ->
  partial_flush_at tr (finished (buf σ) + 1) = true ->
  finished (buf σ) + 1 <> len (spans (buf σ)) ->
  finishedOne s σ = Panic NilDereference.
Proof.
  intros Hg (Hf & Hnd & Hall & Hcnt & Hmax) Hin Hpr Hpf Hne.
  unfold unfinished in Hin. apply filter_In in Hin as [Hin Hs].
  apply negb_true_iff in Hs.
  destruct (flag_one _ s _ Hnd Hin Hs) as [_ Hlen].
  set (fl := <[s := true]> (flags (heap σ))) in *.
  pose proof (filter_len_split (flagged fl) (spans (buf σ))) as Hsplit.
  pose proof (len_nonneg (List.filter (fun p => negb (flagged fl p)) (spans (buf σ)))).
  pose proof (len_nonneg (List.filter (flagged (flags (heap σ))) (spans (buf σ)))).
  assert (Hn : finished (buf σ) + 1 = len (List.filter (flagged fl) (spans (buf σ)))).
  { rewrite Hcnt. unfold len. rewrite Hlen. lia. }
  assert (Hsal : is_Some (heap σ !! s)).
  { rewrite Forall_forall in Hall. apply Hall. now apply list_elem_of_In. }
  destruct Hsal as [x Hx].
  destruct (finishedOne_unfold tr σ s x Hg Hf Hx) as (σ2 & -> & Hg2 & [b Hb] & Hf2 & _).
  { unfold GoInt.minInt, GoInt.maxInt, traceMaxSize in *. lia. }
  unfold finish_flush. cbv zeta. rewrite Hb.
  cbn [spans finished priority set_locked set_finished].
  destruct (Z.eqb_spec (len (spans (buf σ))) (finished (buf σ) + 1)) as [He|_];
    [now symmetry in He|].
  unfold partial_flush_at in Hpf. rewrite Hpf. cbn [negb].
  destruct (Z.ltb_spec (finished (buf σ) + 1) 0) as [|_]; [lia|].
  destruct (Z.ltb_spec (len (spans (buf σ)) - (finished (buf σ) + 1)) 0) as [|_]; [lia|].
  cbn [orb].
  match goal with |- context [split_loop ?h _ _ _] => change h with (heap σ2) end.
  rewrite split_loop_filter.
  - cbn [mbind outcome_bind obind]. rewrite !app_nil_l, Hf2. fold fl.
    destruct (List.filter (flagged fl) (spans (buf σ))) as [|f0 r] eqn:Hfs.
    + exfalso. assert (Hin' : In s (List.filter (flagged fl) (spans (buf σ)))).
      { apply filter_In. split; [exact Hin|].
        unfold fl, flagged. now rewrite lookup_insert_eq. }
      rewrite Hfs in Hin'. exact Hin'.
    + rewrite Hpr. reflexivity.
  - rewrite Forall_forall in *. intros p Hp. specialize (Hall p Hp).
    apply (f_equal (fun m => m !! p)) in Hf2. rewrite flags_lookup in Hf2.
    destruct (heap σ2 !! p); [eauto|].
    destruct (decide (s = p)) as [->|Hne'].
    + unfold fl in Hf2. rewrite lookup_insert_eq in Hf2. discriminate.
    + unfold fl in Hf2. rewrite lookup_insert_ne, flags_lookup in Hf2 by exact Hne'.
      destruct Hall as [y Hy]. rewrite Hy in Hf2. discriminate.
Qed.

End Properties.

(** * Further properties: identifiers, contexts, baggage *)

Section ContextProperties.

Context `{X : Extern}.

(** ** The two halves of a trace identifier *)

Lemma lor_shiftl_byte (a b : Z) :
  0 <= a -> is_byte b -> Z.lor (Z.shiftl a 8) b = a * 256 + b.
Proof.
  intros Ha [Hb0 Hb].
  rewrite Z.shiftl_mul_pow2 by lia. change (2 ^ 8) with 256.
  rewrite <- Z.lxor_lor, <- Z.add_nocarry_lxor; [reflexivity| |].
  all: apply Z.bits_inj'; intros n Hn; rewrite Z.land_spec, Z.bits_0.
  all: destruct (Z.ltb_spec n 8) as [Hlt|Hge].
  all: try (change 256 with (2 ^ 8); rewrite Z.mul_pow2_bits_low by lia; reflexivity).
  all: replace (Z.testbit b n) with false; [apply andb_false_r|].
  all: symmetry; destruct (Z.eq_dec b 0) as [->|Hne]; [apply Z.bits_0|].
  all: apply Z.bits_above_log2; [lia|].
  all: apply Z.lt_le_trans with 8; [|lia].
  all: apply Z.log2_lt_pow2; lia.
Qed.

Lemma be_fold (l : list Z) : forall a,
  0 <= a -> Forall is_byte l ->
  fold_left (fun acc x => Z.lor (Z.shiftl acc 8) x) l a
  = fold_left (fun acc x => acc * 256 + x) l a.
Proof.
  induction l as [|b l IH]; intros a Ha Hl; [reflexivity|].
  inversion Hl as [|? ? Hb Hl']; subst. cbn [fold_left].
  rewrite lor_shiftl_byte by assumption.
  apply IH; [|assumption]. destruct Hb. lia.
Qed.

Lemma to_byte_is_byte (v : Z) : is_byte (GoInt.to_byte v).
Proof.
  unfold is_byte, GoInt.to_byte. change 255 with (Z.ones 8).
  rewrite Z.land_ones by lia. apply Z.mod_pos_bound. lia.
Qed.

Lemma PutUint64_bytes (u : Z) : Forall is_byte (GoLib.PutUint64 u).
Proof. unfold GoLib.PutUint64. repeat constructor; apply to_byte_is_byte. Qed.

Lemma Uint64_PutUint64 (u : Z) :
  0 <= u < 2 ^ 64 -> GoLib.Uint64 (GoLib.PutUint64 u) = u.
Proof.
  intros Hu. unfold GoLib.Uint64.
  rewrite be_fold; [|lia|apply Forall_take, PutUint64_bytes].
  unfold GoLib.PutUint64, GoInt.to_byte. cbn [take fold_left].
  change 255 with (Z.ones 8). rewrite !Z.land_ones by lia.
  rewrite !Z.shiftr_div_pow2 by lia.
  change (2 ^ 8) with 256. change (2 ^ 64) with 18446744073709551616 in *.
  change (2 ^ 56) with 72057594037927936.
  change (2 ^ 48) with 281474976710656.
  change (2 ^ 40) with 1099511627776.
  change (2 ^ 32) with 4294967296.
  change (2 ^ 24) with 16777216.
  change (2 ^ 16) with 65536.
  Z.div_mod_to_equations. lia.
Qed.

Lemma PutUint64_Uint64 (bs : list Z) :
  length bs = 8%nat -> Forall is_byte bs -> GoLib.PutUint64 (GoLib.Uint64 bs) = bs.
Proof.
  intros Hlen Hb.
  do 8 (destruct bs as [|? bs]; [discriminate Hlen|]).
  destruct bs; [|discriminate Hlen]. clear Hlen.
  unfold GoLib.Uint64. rewrite be_fold; [|lia|apply Forall_take, Hb].
  repeat match goal with
         | H : Forall _ (_ :: _) |- _ => inversion H; subst; clear H
         end.
  unfold is_byte in *.
  unfold GoLib.PutUint64, GoInt.to_byte. cbn [take fold_left].
  change 255 with (Z.ones 8). rewrite !Z.land_ones by lia.
  rewrite !Z.shiftr_div_pow2 by lia.
  change (2 ^ 8) with 256.
  change (2 ^ 56) with 72057594037927936.
  change (2 ^ 48) with 281474976710656.
  change (2 ^ 40) with 1099511627776.
  change (2 ^ 32) with 4294967296.
  change (2 ^ 24) with 16777216.
  change (2 ^ 16) with 65536.
  repeat f_equal; Z.div_mod_to_equations; lia.
Qed.

Lemma SetUpper_length (t : traceID) (u : Z) :
  length t = 16%nat -> length (SetUpper t u) = 16%nat.
Proof.
  intros Hlen. unfold SetUpper. rewrite length_app, length_drop, Hlen. reflexivity.
Qed.

Lemma SetLower_length (t : traceID) (u : Z) :
  length t = 16%nat -> length (SetLower t u) = 16%nat.
Proof.
  intros Hlen. unfold SetLower. rewrite length_app, length_take, Hlen. reflexivity.
Qed.

Lemma take8_SetLower (t : traceID) (u : Z) :
  length t = 16%nat -> take 8 (SetLower t u) = take 8 t.
Proof.
  intros Hlen. unfold SetLower.
  rewrite take_app_le by (rewrite length_take; lia). apply take_take.
Qed.

Lemma drop8_SetLower (t : traceID) (u : Z) :
  length t = 16%nat -> skipn 8 (SetLower t u) = GoLib.PutUint64 u.
Proof.
  intros Hlen. unfold SetLower.
  rewrite drop_app_length' by (rewrite length_take; lia). reflexivity.
Qed.

Lemma wf_SetUpper (t : traceID) (u : Z) : wf_traceID t -> wf_traceID (SetUpper t u).
Proof.
  intros [Hlen Hb]. split; [now apply SetUpper_length|].
  unfold SetUpper. apply Forall_app. split; [apply PutUint64_bytes|now apply Forall_drop].
Qed.

Lemma wf_SetLower (t : traceID) (u : Z) : wf_traceID t -> wf_traceID (SetLower t u).
Proof.
  intros [Hlen Hb]. split; [now apply SetLower_length|].
  unfold SetLower. apply Forall_app. split; [now apply Forall_take|apply PutUint64_bytes].
Qed.

Lemma wf_emptyTraceID : wf_traceID emptyTraceID.
Proof. split; [reflexivity|]. repeat constructor; unfold is_byte; lia. Qed.

Lemma Upper_SetUpper (t : traceID) (u : Z) :
  0 <= u < 2 ^ 64 -> Upper (SetUpper t u) = u.
Proof. intros Hu. unfold Upper. rewrite take8_SetUpper. now apply Uint64_PutUint64. Qed.

Lemma Lower_SetUpper (t : traceID) (u : Z) : Lower (SetUpper t u) = Lower t.
Proof. reflexivity. Qed.

Lemma Lower_SetLower (t : traceID) (u : Z) :
  length t = 16%nat -> 0 <= u < 2 ^ 64 -> Lower (SetLower t u) = u.
Proof.
  intros Hlen Hu. unfold Lower. rewrite drop8_SetLower by exact Hlen.
  now apply Uint64_PutUint64.
Qed.

Lemma Upper_SetLower (t : traceID) (u : Z) :
  length t = 16%nat -> Upper (SetLower t u) = Upper t.
Proof. intros Hlen. unfold Upper. now rewrite take8_SetLower. Qed.

(** X1.  On a 16-byte identifier, a half that has been set reads back as
    the value stored, for every [uint64] value, and setting one half leaves
    the other as it was. *)
Theorem traceID_halves_round_trip (t : traceID) (u : Z) :
  length t = 16%nat ->
  0 <= u < 2 ^ 64 ->
  Upper (SetUpper t u) = u
  /\ Lower (SetLower t u) = u
  /\ Lower (SetUpper t u) = Lower t
  /\ Upper (SetLower t u) = Upper t
  /\ length (SetUpper t u) = 16%nat
  /\ length (SetLower t u) = 16%nat.
Proof.
  intros Hlen Hu.
  split; [now apply Upper_SetUpper|]. split; [now apply Lower_SetLower|].
  split; [apply Lower_SetUpper|]. split; [now apply Upper_SetLower|].
  split; [now apply SetUpper_length|now apply SetLower_length].
Qed.

Lemma EncodeToString_app (a b : list Z) :
  GoLib.EncodeToString (a ++ b)
  = (GoLib.EncodeToString a ++ GoLib.EncodeToString b)%string.
Proof.
  induction a as [|x a IH]; [reflexivity|].
  cbn [app GoLib.EncodeToString]. now rewrite IH, !append_cons.
Qed.

Lemma EncodeToString_PutUint64 (u : Z) :
  GoLib.EncodeToString (GoLib.PutUint64 u) = padded_hex 16 u.
Proof. exact (UpperHex_SetUpper [] u). Qed.

Lemma EncodeToString_length (l : list Z) :
  String.length (GoLib.EncodeToString l) = (2 * length l)%nat.
Proof. induction l as [|x l IH]; [reflexivity|]. cbn [GoLib.EncodeToString String.length length]. lia. Qed.

(** A 16-byte identifier is its two halves. *)
Lemma traceID_split (t : traceID) :
  wf_traceID t ->
  t = GoLib.PutUint64 (Upper t) ++ GoLib.PutUint64 (Lower t).
Proof.
  intros [Hlen Hb]. unfold Upper, Lower.
  rewrite !PutUint64_Uint64.
  - symmetry. apply take_drop.
  - rewrite length_drop. lia.
  - now apply Forall_drop.
  - rewrite length_take. lia.
  - now apply Forall_take.
Qed.

Lemma Uint64_range (bs : list Z) :
  length bs = 8%nat -> Forall is_byte bs -> 0 <= GoLib.Uint64 bs < 2 ^ 64.
Proof.
  intros Hlen Hb.
  do 8 (destruct bs as [|? bs]; [discriminate Hlen|]).
  destruct bs; [|discriminate Hlen]. clear Hlen.
  unfold GoLib.Uint64. rewrite be_fold; [|lia|apply Forall_take, Hb].
  repeat match goal with
         | H : Forall _ (_ :: _) |- _ => inversion H; subst; clear H
         end.
  unfold is_byte in *. cbn [take fold_left].
  change (2 ^ 64) with 18446744073709551616. lia.
Qed.

Lemma Upper_range (t : traceID) : wf_traceID t -> 0 <= Upper t < 2 ^ 64.
Proof.
  intros [Hlen Hb]. apply Uint64_range; [rewrite length_take; lia|now apply Forall_take].
Qed.

Lemma HexEncoded_halves (t : traceID) :
  wf_traceID t ->
  HexEncoded t = (padded_hex 16 (Upper t) ++ padded_hex 16 (Lower t))%string.
Proof.
  intros Hwf. unfold HexEncoded. rewrite (traceID_split t Hwf) at 1.
  now rewrite EncodeToString_app, !EncodeToString_PutUint64.
Qed.

Lemma UpperHex_Upper (t : traceID) :
  wf_traceID t -> UpperHex t = padded_hex 16 (Upper t).
Proof.
  intros Hwf. unfold UpperHex. rewrite (traceID_split t Hwf) at 1.
  rewrite take_app_length' by reflexivity. apply EncodeToString_PutUint64.
Qed.

(** X2.  The hexadecimal form of a 16-byte identifier is the 16-digit
    numeral of its upper half followed by the 16-digit numeral of its lower
    half, 32 characters; [UpperHex] is the first of the two, and the
    accessor [TraceID] of a context answers the whole. *)
Theorem traceID_hex_of_halves (t : traceID) :
  wf_traceID t ->
  HexEncoded t = (padded_hex 16 (Upper t) ++ padded_hex 16 (Lower t))%string
  /\ UpperHex t = padded_hex 16 (Upper t)
  /\ String.length (HexEncoded t) = 32%nat
  /\ (forall c : SpanContext,
         ctx_traceID c = t ->
         TraceID (Some c)
         = (padded_hex 16 (TraceIDUpper (Some c))
            ++ padded_hex 16 (TraceIDLower (Some c)))%string).
Proof.
  intros Hwf. pose proof (HexEncoded_halves t Hwf) as Hhex.
  split; [exact Hhex|]. split; [|split].
  - now apply UpperHex_Upper.
  - unfold HexEncoded. rewrite EncodeToString_length. destruct Hwf as [-> _]. reflexivity.
  - intros c Hc. cbn [TraceID TraceIDUpper TraceIDLower]. rewrite Hc. exact Hhex.
Qed.

(** X3.  A 16-byte identifier is empty exactly when both halves are zero,
    has an upper half exactly when [Upper] is not zero, and two identifiers
    with the same halves are the same. *)
Theorem traceID_determined_by_halves (t : traceID) :
  wf_traceID t ->
  (Empty t = true <-> Upper t = 0 /\ Lower t = 0)
  /\ HasUpper t = negb (Upper t =? 0)
  /\ (forall t' : traceID,
         wf_traceID t' -> Upper t' = Upper t -> Lower t' = Lower t -> t' = t).
Proof.
  intros Hwf. split; [|split].
  - unfold Empty. rewrite bool_decide_eq_true. split.
    + intros ->. split; reflexivity.
    + intros [Hu Hl]. rewrite (traceID_split t Hwf), Hu, Hl. reflexivity.
  - unfold HasUpper. rewrite (traceID_split t Hwf) at 1.
    rewrite take_app_length' by reflexivity.
    apply any_nonzero_PutUint64, Upper_range, Hwf.
  - intros t' Hwf' Hu Hl.
    rewrite (traceID_split t Hwf), (traceID_split t' Hwf'), Hu, Hl. reflexivity.
Qed.

(** ** Span identifier in hexadecimal *)














Lemma digit_of_hexchar (d : Z) :
  0 <= d < 16 -> GoLib.digit_of (GoLib.code (GoLib.hexchar d)) = Some d.
Proof.
  intros Hd.
  assert (Hc : d = 0 \/ d = 1 \/ d = 2 \/ d = 3 \/ d = 4 \/ d = 5 \/ d = 6 \/ d = 7
               \/ d = 8 \/ d = 9 \/ d = 10 \/ d = 11 \/ d = 12 \/ d = 13 \/ d = 14
               \/ d = 15) by lia.
  repeat (destruct Hc as [->|Hc]; [reflexivity|]). now subst.
Qed.

(** [strconv.ParseUint] reads a zero-padded numeral back, whatever its
    width, as long as the value fits 64 bits. *)
Lemma parse_padded_hex (w : nat) (v : Z) : forall n : Z,
  0 <= v -> 0 <= n ->
  n * 16 ^ Z.of_nat w + v mod 16 ^ Z.of_nat w < 2 ^ 64 ->
  GoLib.parse_loop (padded_hex w v) n
  = (n * 16 ^ Z.of_nat w + v mod 16 ^ Z.of_nat w, None).
Proof.
  induction w as [|w IH]; intros n Hv Hn Hfit.
  - cbn [padded_hex GoLib.parse_loop]. change (16 ^ Z.of_nat 0) with 1.
    rewrite Z.mod_1_r. f_equal. lia.
  - cbn [padded_hex GoLib.parse_loop].
    set (p := 16 ^ Z.of_nat w) in *.
    assert (Hp : 1 <= p) by (subst p; apply Z.lt_pred_le, Z.pow_pos_nonneg; lia).
    set (d := (v / p) mod 16).
    assert (Hd : 0 <= d < 16) by (subst d; apply Z.mod_pos_bound; lia).
    assert (Hpow : 16 ^ Z.of_nat (S w) = p * 16).
    { subst p. rewrite Nat2Z.inj_succ, Z.pow_succ_r by lia. lia. }
    assert (Hmod : v mod (p * 16) = v mod p + p * d).
    { subst d. apply Z.rem_mul_r; lia. }
    rewrite Hpow, Hmod in Hfit |- *.
    pose proof (Z.mod_pos_bound v p ltac:(lia)) as Hvp.
    rewrite (digit_of_hexchar d Hd).
    destruct (Z.leb_spec 16 d) as [H16|_]; [lia|].
    change (GoInt.maxUint64 / 16 + 1) with (2 ^ 60).
    change (2 ^ 64) with (2 ^ 60 * 16) in Hfit.
    assert (Hn60 : n < 2 ^ 60) by nia.
    destruct (Z.leb_spec (2 ^ 60) n) as [Hcut|_]; [lia|].
    assert (Hmul : GoInt.to_uint64 (n * 16) = n * 16).
    { unfold GoInt.to_uint64, GoInt.uint64_mod. rewrite Z.mod_small; lia. }
    rewrite Hmul.
    assert (Hadd : GoInt.to_uint64 (n * 16 + d) = n * 16 + d).
    { unfold GoInt.to_uint64, GoInt.uint64_mod. rewrite Z.mod_small; lia. }
    rewrite Hadd.
    destruct (Z.ltb_spec (n * 16 + d) (n * 16)) as [Hbad|_]; [lia|].
    destruct (Z.ltb_spec GoInt.maxUint64 (n * 16 + d)) as [Hbad|_].
    { unfold GoInt.maxUint64 in Hbad. lia. }
    cbn [orb]. rewrite IH; [f_equal; fold p; lia|lia|lia|fold p; nia].
Qed.

Lemma ParseUint16_padded_hex (w : nat) (u : Z) :
  0 <= u < 2 ^ 64 -> u < 16 ^ Z.of_nat w -> (0 < w)%nat ->
  GoLib.ParseUint16 (padded_hex w u) = (u, None).
Proof.
  intros Hu Hw Hpos.
  assert (Hl : GoLib.parse_loop (padded_hex w u) 0 = (u, None)).
  { rewrite parse_padded_hex; rewrite ?Z.mod_small, ?Z.mul_0_l by lia;
      [reflexivity|lia|lia|lia]. }
  destruct w as [|w]; [lia|]. exact Hl.
Qed.



(** X6.  The upper half written by [UpperHex] and read by
    [SetUpperFromHex] is the same half: on 16-byte identifiers the call
    succeeds, the receiver gets the upper half of the source and keeps its
    lower half. *)
Theorem upper_hex_round_trip (t t' : traceID) :
  wf_traceID t -> wf_traceID t' ->
  let r := SetUpperFromHex t' (UpperHex t) in
  snd r = None
  /\ Upper (fst r) = Upper t
  /\ Lower (fst r) = Lower t'
  /\ UpperHex (fst r) = UpperHex t
  /\ wf_traceID (fst r).
Proof.
  intros Hwf Hwf' r.
  pose proof (Upper_range t Hwf) as Hu.
  pose proof (UpperHex_Upper t Hwf) as Hhex.
  assert (Hr : r = (SetUpper t' (Upper t), None)).
  { subst r. apply SetUpperFromHex_ok. rewrite Hhex.
    apply ParseUint16_padded_hex; [exact Hu| |lia].
    change (16 ^ Z.of_nat 16) with (2 ^ 64). lia. }
  rewrite Hr. cbn [fst snd]. destruct Hwf' as [Hlen' Hb'].
  split; [reflexivity|]. split; [|split; [reflexivity|split]].
  - unfold Upper at 1. rewrite take8_SetUpper. now apply Uint64_PutUint64.
  - rewrite UpperHex_SetUpper. now rewrite Hhex.
  - now apply wf_SetUpper.
Qed.

(** ** [float64] keeps the sampling priorities

    Integers below 2^53 in absolute value are represented exactly. *)

Lemma iter_xO_succ (m n : positive) :
  Pos.iter xO m (Pos.succ n) = xO (Pos.iter xO m n).
Proof. apply Pos.iter_succ. Qed.

Lemma digits2_iter_xO (m n : positive) :
  digits2_pos (Pos.iter xO m n) = (digits2_pos m + n)%positive.
Proof.
  induction n as [|n IH] using Pos.peano_ind.
  - cbn. lia.
  - rewrite iter_xO_succ. cbn [digits2_pos]. rewrite IH. lia.
Qed.

Lemma Zpos_iter_xO (m n : positive) :
  Zpos (Pos.iter xO m n) = Zpos m * 2 ^ Zpos n.
Proof.
  induction n as [|n IH] using Pos.peano_ind.
  - cbn. lia.
  - rewrite iter_xO_succ, Pos2Z.inj_xO, IH, Pos2Z.inj_succ, Z.pow_succ_r by lia. lia.
Qed.

Lemma digits2_bounds (m : positive) :
  2 ^ (Zpos (digits2_pos m) - 1) <= Zpos m < 2 ^ Zpos (digits2_pos m).
Proof.
  induction m as [m IH|m IH|]; cbn [digits2_pos].
  - rewrite Pos2Z.inj_succ, (Pos2Z.inj_xI m).
    replace (Z.succ (Zpos (digits2_pos m)) - 1) with (Z.succ (Zpos (digits2_pos m) - 1)) by lia.
    rewrite !Z.pow_succ_r by lia.
    generalize dependent (2 ^ (Zpos (digits2_pos m) - 1)).
    generalize dependent (2 ^ Zpos (digits2_pos m)). intros; lia.
  - rewrite Pos2Z.inj_succ, (Pos2Z.inj_xO m).
    replace (Z.succ (Zpos (digits2_pos m)) - 1) with (Z.succ (Zpos (digits2_pos m) - 1)) by lia.
    rewrite !Z.pow_succ_r by lia.
    generalize dependent (2 ^ (Zpos (digits2_pos m) - 1)).
    generalize dependent (2 ^ Zpos (digits2_pos m)). intros; lia.
  - cbn. lia.
Qed.

Lemma binary_round_small (s : bool) (m : positive) :
  Zpos m < 2 ^ 53 ->
  exists (mz : positive) (ez : Z),
    binary_round Float64.prec Float64.emax s m 0 = S754_finite s mz ez
    /\ -52 <= ez <= 0
    /\ Zpos mz = Zpos m * 2 ^ (- ez).
Proof.
  intros Hm.
  pose proof (digits2_bounds m) as [Hlo Hhi].
  set (d := digits2_pos m) in *.
  assert (Hd : Zpos d <= 53).
  { destruct (Z.le_gt_cases (Zpos d) 53) as [H|H]; [exact H|exfalso].
    assert (2 ^ 53 <= 2 ^ (Zpos d - 1)) by (apply Z.pow_le_mono_r; lia). lia. }
  unfold binary_round, shl_align, fexp, emin, Float64.prec, Float64.emax.
  fold d. rewrite Z.add_0_r, Z.sub_0_r.
  rewrite Z.max_l by lia.
  destruct (Zpos d - 53) as [|q|q] eqn:Hq; [|lia|].
  - exists m, 0. split; [|split; [lia|cbn; lia]].
    unfold binary_round_aux, shr_fexp, fexp, emin, Zdigits2. fold d.
    rewrite Z.add_0_r, Z.sub_0_r, Z.max_l by lia. rewrite Hq.
    cbn [shr shr_record_of_loc shr_m loc_of_shr_record round_nearest_even Zdigits2].
    fold d. rewrite Z.add_0_r, Z.sub_0_r, Z.max_l by lia. rewrite Hq.
    cbn [shr shr_m]. reflexivity.
  - exists (Pos.iter xO m q), (Zneg q).
    assert (Hdq : Zpos (digits2_pos (Pos.iter xO m q)) = 53).
    { rewrite digits2_iter_xO. fold d. lia. }
    split; [|split; [lia|]].
    + unfold binary_round_aux, shr_fexp, fexp, emin, Zdigits2.
      rewrite Hdq.
      replace (Z.max (53 + Zneg q - 53) (3 - 1024 - 53) - Zneg q) with 0 by lia.
      cbn [shr shr_record_of_loc shr_m loc_of_shr_record round_nearest_even Zdigits2].
      rewrite Hdq.
      replace (Z.max (53 + Zneg q - 53) (3 - 1024 - 53) - Zneg q) with 0 by lia.
      cbn [shr shr_m].
      destruct (Z.leb_spec (Zneg q) (1024 - 53)); [reflexivity|lia].
    + rewrite Zpos_iter_xO. reflexivity.
Qed.

Lemma in_int_range (v : Z) :
  GoInt.minInt <= v <= GoInt.maxInt ->
  (GoInt.minInt <=? v) && (v <=? GoInt.maxInt) = true.
Proof. intros [H1 H2]. apply andb_true_intro. split; now apply Z.leb_le. Qed.

Lemma to_int_of_int (p : Z) :
  - 2 ^ 53 < p < 2 ^ 53 -> Float64.to_int (Float64.of_int p) = p.
Proof.
  intros Hp. unfold Float64.of_int, binary_normalize.
  destruct p as [|m|m]; [reflexivity| |].
  - destruct (binary_round_small false m ltac:(lia)) as (mz & ez & -> & He & Hm).
    unfold Float64.to_int. rewrite Hm.
    assert (Ha : (if 0 <=? ez then Zpos m * 2 ^ (- ez) * 2 ^ ez
                  else Zpos m * 2 ^ (- ez) / 2 ^ (- ez)) = Zpos m).
    { destruct (Z.leb_spec 0 ez).
      - replace ez with 0 by lia. cbn. lia.
      - apply Z.div_mul. apply Z.pow_nonzero; lia. }
    rewrite Ha, in_int_range; [reflexivity|].
    unfold GoInt.minInt, GoInt.maxInt. lia.
  - destruct (binary_round_small true m ltac:(lia)) as (mz & ez & -> & He & Hm).
    unfold Float64.to_int. rewrite Hm.
    assert (Ha : (if 0 <=? ez then Zpos m * 2 ^ (- ez) * 2 ^ ez
                  else Zpos m * 2 ^ (- ez) / 2 ^ (- ez)) = Zpos m).
    { destruct (Z.leb_spec 0 ez).
      - replace ez with 0 by lia. cbn. lia.
      - apply Z.div_mul. apply Z.pow_nonzero; lia. }
    rewrite Ha, in_int_range; [reflexivity|].
    unfold GoInt.minInt, GoInt.maxInt. lia.
Qed.

Lemma SFeqb_to_int (a b : float64) :
  SFeqb a b = true -> Float64.to_int a = Float64.to_int b.
Proof.
  unfold SFeqb, SFcompare. intros H.
  destruct a as [sa|sa| |sa ma ea], b as [sb|sb| |sb mb eb];
    try discriminate H; try reflexivity.
  all: try (destruct sa; discriminate H).
  all: try (destruct sb; discriminate H).
  destruct sa, sb; try discriminate H.
  all: destruct (Z.compare_spec ea eb) as [->|?|?]; try discriminate H.
  all: destruct (Pos.compare_cont Eq ma mb) eqn:Hc; try discriminate H.
  all: apply Pos.compare_eq in Hc; now subst.
Qed.

Lemma SFeqb_of_int_refl (p : Z) :
  - 2 ^ 53 < p < 2 ^ 53 -> SFeqb (Float64.of_int p) (Float64.of_int p) = true.
Proof.
  intros Hp. unfold Float64.of_int, binary_normalize.
  destruct p as [|m|m]; [reflexivity| |].
  - destruct (binary_round_small false m ltac:(lia)) as (mz & ez & -> & _).
    unfold SFeqb, SFcompare. now rewrite Z.compare_refl, Pos.compare_cont_refl.
  - destruct (binary_round_small true m ltac:(lia)) as (mz & ez & -> & _).
    unfold SFeqb, SFcompare. now rewrite Z.compare_refl, Pos.compare_cont_refl.
Qed.

Lemma neq_of_int (q p : Z) :
  - 2 ^ 53 < q < 2 ^ 53 -> - 2 ^ 53 < p < 2 ^ 53 ->
  Float64.neq (Float64.of_int q) (Float64.of_int p) = negb (q =? p).
Proof.
  intros Hq Hp. unfold Float64.neq. f_equal.
  destruct (Z.eqb_spec q p) as [->|Hne]; [now apply SFeqb_of_int_refl|].
  destruct (SFeqb _ _) eqn:He; [exfalso|reflexivity].
  apply SFeqb_to_int in He. rewrite !to_int_of_int in He by assumption. contradiction.
Qed.

(** ** Sampling priority: what is stored is what is read *)

(** [setSamplingPriorityLocked] on a buffer that is not locked, in closed
    form. *)
Lemma setSamplingPriorityLocked_closed (p sampler : Z) (t : trace) :
  locked t = false ->
  setSamplingPriorityLocked p sampler t
  = (set_propagatingTags (decision_maker_after p sampler (propagatingTags t))
       (set_priority (Some (Float64.of_int p)) t),
     (0 <? p) && negb (sampler =? samplernames_Unknown)
     && negb (bool_decide (propagatingTags t !! keyDecisionMaker
                           = Some (samplerToDM sampler)))
     || priority_changed t p).
Proof.
  intros Hl. unfold setSamplingPriorityLocked, decision_maker_after, priority_changed.
  rewrite Hl. cbv zeta.
  change (propagatingTags (set_priority (Some (Float64.of_int p)) t))
    with (propagatingTags t).
  set (dm := samplerToDM sampler).
  destruct ((0 <? p) && negb (sampler =? samplernames_Unknown)) eqn:Hcase;
    cbn [andb orb].
  - destruct (propagatingTags t !! keyDecisionMaker) as [cur|] eqn:Hcur;
      cbn [default from_option id].
    + rewrite bool_decide_true by eauto. cbn [negb orb].
      destruct (String.eqb_spec dm cur) as [<-|Hne]; cbn [negb andb orb].
      * rewrite bool_decide_true by reflexivity. cbn [negb orb].
        destruct (Z.leb_spec p 0) as [Hp|Hp].
        { destruct (Z.ltb_spec 0 p); [lia|discriminate Hcase]. }
        cbn [andb]. f_equal. unfold set_propagatingTags. cbn.
        now rewrite insert_id.
      * rewrite bool_decide_false by congruence. reflexivity.
    + rewrite bool_decide_false by (intros [? ?]; discriminate).
      rewrite bool_decide_false by discriminate. reflexivity.
  - destruct (Z.leb_spec p 0) as [Hp|Hp]; cbn [andb].
    + destruct (propagatingTags t !! keyDecisionMaker) as [cur|] eqn:Hcur.
      * rewrite bool_decide_true by eauto. reflexivity.
      * rewrite bool_decide_false by (intros [? ?]; discriminate).
        f_equal. unfold set_propagatingTags. cbn. now rewrite delete_id.
    + destruct (bool_decide (is_Some (propagatingTags t !! keyDecisionMaker)));
        destruct t; reflexivity.
Qed.

Lemma decision_maker_after_idem (p sampler : Z) (m : gmap string string) :
  decision_maker_after p sampler (decision_maker_after p sampler m)
  = decision_maker_after p sampler m.
Proof.
  unfold decision_maker_after.
  destruct ((0 <? p) && negb (sampler =? samplernames_Unknown)).
  - apply insert_insert_eq.
  - destruct (p <=? 0); [|reflexivity]. apply delete_delete_eq.
Qed.

Lemma decision_maker_after_stored (p sampler : Z) (m : gmap string string) :
  (0 <? p) && negb (sampler =? samplernames_Unknown) = true ->
  decision_maker_after p sampler m !! keyDecisionMaker = Some (samplerToDM sampler).
Proof.
  intros H. unfold decision_maker_after. rewrite H. apply lookup_insert_eq.
Qed.

Lemma samplingPriority_after_set (p sampler : Z) (t : trace) :
  - 2 ^ 53 < p < 2 ^ 53 ->
  locked t = false ->
  samplingPriority (fst (setSamplingPriority p sampler t)) = (p, true).
Proof.
  intros Hp Hl. unfold setSamplingPriority.
  rewrite setSamplingPriorityLocked_closed by exact Hl.
  unfold samplingPriority, samplingPriorityLocked. cbn.
  now rewrite to_int_of_int.
Qed.

(** X7.  On a buffer that is not locked, a sampling priority below 2^53 in
    absolute value that has been set is the one read back, although it is
    kept as a [float64]; setting the same priority with the same sampler
    again changes nothing and answers false; and with the sampler
    [Unknown] the answer of a call says exactly whether the priority
    differs from the one set before. *)
Theorem sampling_priority_round_trip (p sampler : Z) (t : trace) :
  - 2 ^ 53 < p < 2 ^ 53 ->
  locked t = false ->
  let t1 := fst (setSamplingPriority p sampler t) in
  samplingPriority t1 = (p, true)
  /\ setSamplingPriority p sampler t1 = (t1, false)
  /\ (forall q : Z,
         - 2 ^ 53 < q < 2 ^ 53 ->
         priority t = Some (Float64.of_int q) ->
         snd (setSamplingPriority p samplernames_Unknown t) = negb (q =? p)).
Proof.
  intros Hp Hl t1.
  split; [now apply samplingPriority_after_set|].
  unfold setSamplingPriority in *.
  assert (Ht1 : t1 = set_propagatingTags
                       (decision_maker_after p sampler (propagatingTags t))
                       (set_priority (Some (Float64.of_int p)) t)).
  { subst t1. now rewrite setSamplingPriorityLocked_closed. }
  clearbody t1. subst t1. split.
  - rewrite setSamplingPriorityLocked_closed by exact Hl.
    cbn [propagatingTags set_propagatingTags set_priority].
    rewrite decision_maker_after_idem.
    f_equal.
    unfold priority_changed. cbn [priority set_propagatingTags set_priority].
    rewrite neq_of_int, Z.eqb_refl by exact Hp. cbn [negb].
    rewrite orb_false_r.
    destruct ((0 <? p) && negb (sampler =? samplernames_Unknown)) eqn:Hc;
      [|reflexivity].
    rewrite (decision_maker_after_stored p sampler _ Hc).
    now rewrite bool_decide_true.
  - intros q Hq Hprio. rewrite setSamplingPriorityLocked_closed by exact Hl.
    cbn [snd]. rewrite Z.eqb_refl. cbn [negb andb orb].
    rewrite andb_false_r. cbn [andb orb].
    unfold priority_changed. rewrite Hprio. now apply neq_of_int.
Qed.

(** X8.  [(c *SpanContext) setSamplingPriority]: a context whose buffer is
    locked is left as it is; otherwise (no buffer yet, or a buffer that is
    not locked) the context then reports the priority set; the call touches
    only the buffer and the [updated] mark, never clears the mark, and on a
    context without buffer it makes one and sets the mark. *)
Theorem context_sampling_priority (p sampler : Z) (c : SpanContext) :
  - 2 ^ 53 < p < 2 ^ 53 ->
  let c' := SpanContext_setSamplingPriority p sampler c in
  (forall t, ctx_trace c = Some t -> locked t = true -> c' = c)
  /\ (ctx_trace c = None \/ (exists t, ctx_trace c = Some t /\ locked t = false) ->
      SamplingPriority (Some c') = (p, true))
  /\ c' = set_updated (updated c') (set_ctx_trace (ctx_trace c') c)
  /\ (updated c = true -> updated c' = true)
  /\ (ctx_trace c = None ->
      SamplingPriority (Some c) = (0, false)
      /\ updated c' = true
      /\ ctx_trace c' = Some (fst (setSamplingPriority p sampler newTrace))).
Proof.
  intros Hp c'. subst c'. unfold SpanContext_setSamplingPriority.
  split; [|split; [|split; [|split]]].
  - intros t Ht Hl. rewrite Ht. unfold setSamplingPriority, setSamplingPriorityLocked.
    rewrite Hl. destruct c; cbn in *. now subst.
  - intros Hc.
    assert (Hun : locked match ctx_trace c with
                         | Some t => t
                         | None => newTrace
                         end = false).
    { destruct Hc as [->|(t & -> & Hl)]; [reflexivity|exact Hl]. }
    pose proof (samplingPriority_after_set p sampler _ Hp Hun) as Hread.
    destruct (setSamplingPriority p sampler _) as [t1 ch]. cbn [fst] in Hread.
    destruct ch; cbn; exact Hread.
  - destruct (setSamplingPriority p sampler _) as [t1 ch].
    destruct ch; destruct c; reflexivity.
  - intros Hu. destruct (setSamplingPriority p sampler _) as [t1 ch].
    destruct ch; [reflexivity|exact Hu].
  - intros Hn. rewrite Hn. split; [cbn; now rewrite Hn|].
    unfold setSamplingPriority. rewrite setSamplingPriorityLocked_closed by reflexivity.
    cbn [fst]. unfold priority_changed. cbn [priority newTrace].
    rewrite orb_true_r. split; reflexivity.
Qed.

(** ** Baggage *)

Lemma foreach_items_all {S : Type} (f : string -> string -> S -> S)
    (l : list (string * string)) : forall acc : S,
  foreach_items (fun k v a => (true, f k v a)) l acc
  = fold_left (fun a kv => f kv.1 kv.2 a) l acc.
Proof.
  induction l as [|[k v] l IH]; intros acc; [reflexivity|]. cbn. apply IH.
Qed.

Lemma fold_insert_lookup (l : list (string * string)) :
  forall (m0 : gmap string string) (k : string),
  NoDup l.*1 ->
  fold_left (fun a kv => <[kv.1 := kv.2]> a) l m0 !! k
  = match (list_to_map l : gmap string string) !! k with
    | Some v => Some v
    | None => m0 !! k
    end.
Proof.
  induction l as [|[k1 v1] l IH]; intros m0 k Hnd; [reflexivity|].
  cbn [fmap list_fmap fst] in Hnd. apply NoDup_cons in Hnd as [Hk1 Hnd].
  cbn [fold_left fst snd list_to_map foldr uncurry]. rewrite IH by exact Hnd.
  destruct (decide (k = k1)) as [->|Hne].
  - rewrite (not_elem_of_list_to_map_1 _ _ Hk1).
    now rewrite !lookup_insert_eq.
  - rewrite !(lookup_insert_ne _ k1 k) by congruence. reflexivity.
Qed.

Lemma fold_insert_map_to_list (m : gmap string string) :
  fold_left (fun a kv => <[kv.1 := kv.2]> a) (map_to_list m) ∅ = m.
Proof.
  apply map_eq. intros k.
  rewrite fold_insert_lookup by apply NoDup_fst_map_to_list.
  rewrite list_to_map_to_list. rewrite lookup_empty. now destruct (m !! k).
Qed.

(** What the readers of a context see. *)
Lemma ForeachBaggageItem_visible {S : Type} (c : option SpanContext)
    (handler : string -> string -> S -> bool * S) (acc : S) :
  ForeachBaggageItem c handler acc
  = foreach_items handler (map_to_list (visible_baggage c)) acc.
Proof.
  destruct c as [c|]; cbn [ForeachBaggageItem visible_baggage].
  - destruct (hasBaggage c =? 0); [now rewrite map_to_list_empty|reflexivity].
  - now rewrite map_to_list_empty.
Qed.

Lemma baggageItem_visible (key : string) (c : Context) :
  baggageItem key c
  = default EmptyString (visible_baggage (Some (as_SpanContext c)) !! key).
Proof.
  unfold baggageItem, visible_baggage, as_SpanContext. cbn [hasBaggage set_baggage baggage].
  destruct (hasBaggage (fields c) =? 0); [now rewrite lookup_empty|reflexivity].
Qed.

Lemma baggage_of_setBaggageItem (key val : string) (c : Context) :
  baggage_of (setBaggageItem key val c) = <[key := val]> (baggage_of c).
Proof.
  unfold setBaggageItem, baggage_of. destruct (baggage_made c); reflexivity.
Qed.

Lemma hasBaggage_setBaggageItem (key val : string) (c : Context) :
  hasBaggage (fields (setBaggageItem key val c))
  = if baggage_made c then hasBaggage (fields c) else 1.
Proof. unfold setBaggageItem. destruct (baggage_made c); reflexivity. Qed.

(** X9.  On a context whose baggage map is nil, or whose has-baggage flag
    is raised, an item stored by [setBaggageItem] is the one [baggageItem]
    reads for its key; the items of the other keys read as before; the
    iteration then visits the entries of the map with the item stored; and
    the call writes nothing but the map and the flag. *)
Theorem baggage_set_get (key val : string) (c : Context) :
  baggage_made c = false \/ hasBaggage (fields c) <> 0 ->
  let c' := setBaggageItem key val c in
  baggageItem key c' = val
  /\ (forall k : string, k <> key -> baggageItem k c' = baggageItem k c)
  /\ (forall (S : Type) (handler : string -> string -> S -> bool * S) (acc : S),
         ForeachBaggageItem (Some (as_SpanContext c')) handler acc
         = foreach_items handler (map_to_list (<[key := val]> (baggage_of c))) acc)
  /\ (baggage_made c' = true /\ hasBaggage (fields c') <> 0)
  /\ fields c'
     = set_baggage (baggage (fields c')) (set_hasBaggage (hasBaggage (fields c'))
                                           (fields c)).
Proof.
  intros Hc c'.
  assert (Hflag : hasBaggage (fields c') <> 0).
  { subst c'. rewrite hasBaggage_setBaggageItem.
    destruct Hc as [->|Hc]; [discriminate|]. now destruct (baggage_made c). }
  assert (Hmap : baggage_of c' = <[key := val]> (baggage_of c))
    by apply baggage_of_setBaggageItem.
  assert (Hvis : visible_baggage (Some (as_SpanContext c'))
                 = <[key := val]> (baggage_of c)).
  { unfold visible_baggage, as_SpanContext. cbn [hasBaggage set_baggage baggage].
    destruct (Z.eqb_spec (hasBaggage (fields c')) 0) as [H0|_]; [contradiction|].
    exact Hmap. }
  split; [|split; [|split; [|split; [split|]]]].
  - rewrite baggageItem_visible, Hvis, lookup_insert_eq. reflexivity.
  - intros k Hk. rewrite baggageItem_visible, Hvis, lookup_insert_ne by congruence.
    unfold baggageItem.
    destruct (Z.eqb_spec (hasBaggage (fields c)) 0) as [H0|_]; [|reflexivity].
    destruct Hc as [Hn|Hc]; [|contradiction].
    unfold baggage_of. rewrite Hn. now rewrite lookup_empty.
  - intros S handler acc. now rewrite ForeachBaggageItem_visible, Hvis.
  - reflexivity.
  - exact Hflag.
  - subst c'. unfold setBaggageItem. destruct (baggage_made c); destruct c as [[] ?];
      reflexivity.
Qed.

(** X10.  [setBaggageItem] raises the has-baggage flag only when it
    allocates the map.  On a context whose map is allocated while the flag
    is 0, an item stored is in the map but no reader sees it: [baggageItem]
    answers the empty string for every key and the iteration visits
    nothing, also after further calls. *)
Theorem baggage_flag_not_raised (key val : string) (c : Context) :
  baggage_made c = true ->
  hasBaggage (fields c) = 0 ->
  let c' := setBaggageItem key val c in
  baggage_of c' !! key = Some val
  /\ (forall k : string, baggageItem k c' = EmptyString)
  /\ (forall (S : Type) (handler : string -> string -> S -> bool * S) (acc : S),
         ForeachBaggageItem (Some (as_SpanContext c')) handler acc = acc)
  /\ baggage_made c' = true
  /\ hasBaggage (fields c') = 0.
Proof.
  intros Hm H0 c'.
  assert (Hflag : hasBaggage (fields c') = 0).
  { subst c'. now rewrite hasBaggage_setBaggageItem, Hm. }
  split; [|split; [|split; [|split]]].
  - subst c'. rewrite baggage_of_setBaggageItem. apply lookup_insert_eq.
  - intros k. unfold baggageItem. now rewrite Hflag.
  - intros S handler acc. cbn [ForeachBaggageItem as_SpanContext hasBaggage set_baggage].
    now rewrite Hflag.
  - reflexivity.
  - exact Hflag.
Qed.

(** ** Conversion of a generic context *)

Lemma fold_copy_baggage (l : list (string * string)) : forall sc : SpanContext,
  fold_left (fun a kv => set_baggage (<[kv.1 := kv.2]> (baggage a)) (set_hasBaggage 1 a))
    l sc
  = match l with
    | [] => sc
    | _ :: _ =>
        set_baggage (fold_left (fun a kv => <[kv.1 := kv.2]> a) l (baggage sc))
          (set_hasBaggage 1 sc)
    end.
Proof.
  induction l as [|kv l IH]; intros sc; [reflexivity|].
  cbn [fold_left]. rewrite IH. destruct l as [|kv' l]; reflexivity.
Qed.

Lemma map_to_list_nil_iff (m : gmap string string) : map_to_list m = [] <-> m = ∅.
Proof.
  split; [apply map_to_list_empty_iff|]. intros ->. apply map_to_list_empty.
Qed.

(** The context [FromGenericCtx] builds before it looks at the adapter. *)
Lemma FromGenericCtx_baggage (c : option SpanContext) :
  ForeachBaggageItem c
    (fun k v sc =>
       (true, set_baggage (<[k := v]> (baggage sc)) (set_hasBaggage 1 sc)))
    (set_baggage ∅ (set_ctx_spanID (SpanID c)
                      (set_ctx_traceID (TraceIDBytes c) zeroSpanContext)))
  = set_hasBaggage (if bool_decide (visible_baggage c = ∅) then 0 else 1)
      (set_baggage (visible_baggage c)
         (set_ctx_spanID (SpanID c)
            (set_ctx_traceID (TraceIDBytes c) zeroSpanContext))).
Proof.
  rewrite ForeachBaggageItem_visible.
  rewrite (foreach_items_all
             (fun k v sc => set_baggage (<[k := v]> (baggage sc)) (set_hasBaggage 1 sc))).
  rewrite fold_copy_baggage.
  destruct (map_to_list (visible_baggage c)) as [|kv l] eqn:Hl.
  - apply map_to_list_nil_iff in Hl. rewrite Hl.
    rewrite bool_decide_true by reflexivity. reflexivity.
  - rewrite bool_decide_false.
    2:{ intros He. apply map_to_list_nil_iff in He. congruence. }
    rewrite <- Hl. cbn [baggage set_baggage].
    rewrite fold_insert_map_to_list. reflexivity.
Qed.

(** X11.  [FromGenericCtx] on a [*SpanContext], nil or not: the result has
    the identifiers of the source and shows the baggage the source shows,
    its map is allocated and its has-baggage flag is raised exactly when
    the source shows an item.  Without the v1 adapter the result has no
    buffer, hence no sampling priority, and no origin; with it, a fresh
    buffer carries the adapter's priority, decision and tags.  Span links,
    the remote and baggage-only marks and the [updated] mark are not
    copied. *)
Theorem FromGenericCtx_copies (c : option SpanContext)
    (v1 : option spanContextV1Adapter) :
  let r := FromGenericCtx (generic c v1) in
  SpanID (Some (fields r)) = SpanID c
  /\ TraceIDBytes (Some (fields r)) = TraceIDBytes c
  /\ visible_baggage (Some (as_SpanContext r)) = visible_baggage c
  /\ (forall k : string,
         baggageItem k r = default EmptyString (visible_baggage c !! k))
  /\ baggage_made r = true
  /\ hasBaggage (fields r) = (if bool_decide (visible_baggage c = ∅) then 0 else 1)
  /\ match v1 with
     | None =>
         ctx_trace (fields r) = None
         /\ origin (fields r) = EmptyString
         /\ SamplingPriority (Some (fields r)) = (0, false)
     | Some a =>
         ctx_trace (fields r)
         = Some (mkTrace [] (v1_Tags a) (v1_PropagatingTags a) 0 false
                   (v1_Priority a) false (v1_SamplingDecision a) None)
         /\ origin (fields r) = v1_Origin a
         /\ SamplingPriority (Some (fields r))
            = match v1_Priority a with
              | None => (0, false)
              | Some f => (Float64.to_int f, true)
              end
     end
  /\ spanLinks (fields r) = []
  /\ ctx_span (fields r) = None
  /\ updated (fields r) = false
  /\ isRemote (fields r) = false
  /\ baggageOnly (fields r) = false.
Proof.
  intros r.
  assert (Hvis : forall m : gmap string string,
             (if (if bool_decide (m = ∅) then 0 else 1) =? 0 then ∅ else m) = m).
  { intros m. destruct (decide (m = ∅)) as [->|Hne].
    - now rewrite bool_decide_true.
    - now rewrite bool_decide_false. }
  subst r. unfold FromGenericCtx. cbv zeta.
  cbn [generic generic_TraceIDBytes generic_SpanID generic_ForeachBaggageItem
       generic_V1Adapter].
  rewrite FromGenericCtx_baggage.
  assert (Hb : forall k m, (if (if bool_decide (m = (∅ : gmap string string)) then 0 else 1) =? 0
                            then EmptyString
                            else default EmptyString (m !! k))
                           = default EmptyString (m !! k)).
  { intros k m. destruct (decide (m = ∅)) as [->|Hne].
    - now rewrite bool_decide_true.
    - now rewrite bool_decide_false. }
  destruct v1 as [a|]; cbn.
  - rewrite Hvis. repeat split; try reflexivity.
    intros k. unfold baggageItem, baggage_of. cbn. apply Hb.
  - rewrite Hvis. repeat split; try reflexivity.
    intros k. unfold baggageItem, baggage_of. cbn. apply Hb.
Qed.

(** ** Push *)

Lemma setSamplingPriorityLocked_keeps (p sampler : Z) (t : trace) :
  let t' := fst (setSamplingPriorityLocked p sampler t) in
  root t' = root t /\ locked t' = locked t /\ tags t' = tags t
  /\ spans t' = spans t /\ full t' = full t /\ finished t' = finished t
  /\ decision t' = decision t.
Proof.
  unfold setSamplingPriorityLocked. destruct (locked t) eqn:Hl; [cbn; auto 10|].
  cbv zeta. destruct (_ && _ && _); cbn [fst].
  - cbn. auto 10.
  - destruct (_ && _); cbn; auto 10.
Qed.

(** The buffer [push] leaves when it appends: the priority of the span's
    metric is adopted first. *)
Lemma push_appends (sp : ptr) (x : Span) (σ : state) :
  full (buf σ) = false ->
  len (spans (buf σ)) < traceMaxSize ->
  heap σ !! sp = Some x ->
  let t :=
    match metrics x !! keySamplingPriority with
    | Some v =>
        fst (setSamplingPriorityLocked (Float64.to_int v) samplernames_Unknown (buf σ))
    | None => buf σ
    end in
  push sp σ
  = Ok (mkState (globalTracer σ) (set_spans (spans (buf σ) ++ [sp]) t) (heap σ)
          (events σ ++ match globalTracer σ with
                       | Some _ => [Signal SpanStarted 1]
                       | None => []
                       end)).
Proof.
  intros Hf Hlen Hx t. unfold push. cbv zeta. rewrite Hf.
  destruct (Z.leb_spec traceMaxSize (len (spans (buf σ)))) as [|_]; [lia|].
  rewrite (deref_Some _ _ _ Hx). cbn [mbind outcome_bind obind]. fold t.
  assert (Hs : spans t = spans (buf σ)).
  { subst t. destruct (metrics x !! keySamplingPriority) as [v|]; [|reflexivity].
    apply (setSamplingPriorityLocked_keeps (Float64.to_int v) samplernames_Unknown). }
  rewrite Hs. unfold emit, set_buf. cbn.
  destruct (globalTracer σ); cbn; rewrite ?app_nil_r; reflexivity.
Qed.

Lemma push_keeps (sp : ptr) (σ σ' : state) :
  push sp σ = Ok σ' ->
  heap σ' = heap σ /\ globalTracer σ' = globalTracer σ
  /\ root (buf σ') = root (buf σ) /\ locked (buf σ') = locked (buf σ)
  /\ tags (buf σ') = tags (buf σ) /\ decision (buf σ') = decision (buf σ)
  /\ finished (buf σ') = finished (buf σ).
Proof.
  unfold push. cbv zeta. destruct (full (buf σ)) eqn:Hf.
  { intros H. injection H as <-. auto 10. }
  destruct (traceMaxSize <=? len (spans (buf σ))).
  { intros H. injection H as <-. destruct (globalTracer σ) eqn:Hg; cbn; rewrite ?Hg; auto 10. }
  unfold deref. destruct (heap σ !! sp) as [x|] eqn:Hx; [|discriminate].
  cbn [mbind outcome_bind obind]. intros H. injection H as <-.
  set (t := match metrics x !! keySamplingPriority with
            | Some v => fst (setSamplingPriorityLocked (Float64.to_int v)
                               samplernames_Unknown (buf σ))
            | None => buf σ
            end).
  assert (Ht : root t = root (buf σ) /\ locked t = locked (buf σ)
               /\ tags t = tags (buf σ) /\ decision t = decision (buf σ)
               /\ finished t = finished (buf σ)).
  { subst t. destruct (metrics x !! keySamplingPriority) as [v|]; [|auto].
    destruct (setSamplingPriorityLocked_keeps (Float64.to_int v)
                samplernames_Unknown (buf σ)) as (H1 & H2 & H3 & H4 & H5 & H6 & H7).
    auto. }
  destruct Ht as (H1 & H2 & H3 & H4 & H5).
  destruct (globalTracer σ) eqn:Hg; cbn; rewrite ?Hg; auto 10.
Qed.

(** X12.  [push] on a buffer that is not full and below its capacity
    appends the span and adopts the sampling priority of the span's
    [_sampling_priority_v1] metric, truncated to an integer, unless the
    buffer is locked; it never stores a decision maker, and removes it when
    the adopted priority is not positive.  Spans, root, lock, tags and
    decision are otherwise as before, and the started-span signal is sent
    when a tracer is registered. *)
Theorem push_adopts_priority (sp : ptr) (x : Span) (σ : state) :
  full (buf σ) = false ->
  len (spans (buf σ)) < traceMaxSize ->
  heap σ !! sp = Some x ->
  exists σ' : state,
    push sp σ = Ok σ'
    /\ spans (buf σ') = spans (buf σ) ++ [sp]
    /\ heap σ' = heap σ
    /\ root (buf σ') = root (buf σ)
    /\ locked (buf σ') = locked (buf σ)
    /\ tags (buf σ') = tags (buf σ)
    /\ decision (buf σ') = decision (buf σ)
    /\ match metrics x !! keySamplingPriority with
       | Some v =>
           if locked (buf σ)
           then priority (buf σ') = priority (buf σ)
                /\ propagatingTags (buf σ') = propagatingTags (buf σ)
           else priority (buf σ') = Some (Float64.of_int (Float64.to_int v))
                /\ propagatingTags (buf σ')
                   = (if Float64.to_int v <=? 0
                      then delete keyDecisionMaker (propagatingTags (buf σ))
                      else propagatingTags (buf σ))
       | None =>
           priority (buf σ') = priority (buf σ)
           /\ propagatingTags (buf σ') = propagatingTags (buf σ)
       end
    /\ events σ'
       = events σ ++ match globalTracer σ with
                     | Some _ => [Signal SpanStarted 1]
                     | None => []
                     end.
Proof.
  intros Hf Hlen Hx. eexists. split; [now apply (push_appends sp x)|].
  cbn [buf heap events spans set_spans root locked tags decision priority propagatingTags].
  destruct (metrics x !! keySamplingPriority) as [v|]; [|repeat split].
  destruct (setSamplingPriorityLocked_keeps (Float64.to_int v)
              samplernames_Unknown (buf σ)) as (H1 & H2 & H3 & H4 & H5 & H6 & H7).
  repeat (split; [assumption || reflexivity|]). split; [|reflexivity].
  destruct (locked (buf σ)) eqn:Hl.
  - unfold setSamplingPriorityLocked. rewrite Hl. split; reflexivity.
  - rewrite setSamplingPriorityLocked_closed by exact Hl. cbn.
    unfold decision_maker_after. rewrite Z.eqb_refl, andb_false_r.
    split; reflexivity.
Qed.

(** ** Context of a new span *)

Lemma Context_eta (c : Context) :
  mkContext (set_baggage (baggage (fields c)) (fields c)) (baggage_made c) = c.
Proof. destruct c as [[] ?]; reflexivity. Qed.

Lemma fold_setBaggageItem_made (l : list (string * string)) : forall c : Context,
  baggage_made c = true ->
  fold_left (fun a kv => setBaggageItem kv.1 kv.2 a) l c
  = mkContext
      (set_baggage (fold_left (fun a kv => <[kv.1 := kv.2]> a) l (baggage (fields c)))
         (fields c))
      true.
Proof.
  induction l as [|kv l IH]; intros c Hc.
  - cbn [fold_left]. rewrite <- Hc. symmetry. apply Context_eta.
  - cbn [fold_left]. rewrite IH by reflexivity.
    unfold setBaggageItem. rewrite Hc. reflexivity.
Qed.

(** The loop of [newSpanContext] over the baggage of the parent, from a
    context whose map is nil. *)
Lemma inherit_baggage (par : SpanContext) (c0 : Context) :
  baggage_made c0 = false ->
  ForeachBaggageItem (Some par) (fun k v c => (true, setBaggageItem k v c)) c0
  = if bool_decide (visible_baggage (Some par) = ∅) then c0
    else mkContext (set_baggage (visible_baggage (Some par))
                      (set_hasBaggage 1 (fields c0))) true.
Proof.
  intros Hc0. rewrite ForeachBaggageItem_visible.
  rewrite (foreach_items_all setBaggageItem).
  destruct (map_to_list (visible_baggage (Some par))) as [|kv l] eqn:Hl.
  - apply map_to_list_nil_iff in Hl. rewrite Hl.
    now rewrite bool_decide_true.
  - rewrite bool_decide_false.
    2:{ intros He. apply map_to_list_nil_iff in He. congruence. }
    cbn [fold_left]. rewrite fold_setBaggageItem_made by reflexivity.
    unfold setBaggageItem. rewrite Hc0. cbn [fields baggage set_baggage].
    f_equal.
    change (fold_left (fun a kv0 => <[kv0.1 := kv0.2]> a) l (<[kv.1 := kv.2]> ∅))
      with (fold_left (fun a kv0 => <[kv0.1 := kv0.2]> a) (kv :: l)
              (∅ : gmap string string)).
    rewrite <- Hl, fold_insert_map_to_list. reflexivity.
Qed.

(** What [newSpanContext] returns for a span that exists. *)
Lemma newSpanContext_result (span : ptr) (sp : Span) (start : Z)
    (parent : option Context) (gen128 : bool) (σ : state) :
  heap σ !! span = Some sp ->
  exists (c : Context) (σ' : state),
    newSpanContext span start parent gen128 σ = Ok (c, σ')
    /\ ctx_span (fields c) = Some span
    /\ ctx_spanID (fields c) = spanID sp
    /\ updated (fields c) = false
    /\ baggageOnly (fields c) = false
    /\ ctx_traceID (fields c)
       = (let t := SetLower emptyTraceID (span_traceID sp) in
          match parent with
          | Some par =>
              if baggageOnly (fields par) then t
              else SetUpper t (Upper (ctx_traceID (fields par)))
          | None => if gen128 then SetUpper t (time_upper start) else t
          end)
    /\ visible_baggage (Some (as_SpanContext c))
       = visible_baggage (as_SpanContext <$> parent)
    /\ (baggage_made c = false /\ hasBaggage (fields c) = 0
        \/ baggage_made c = true /\ hasBaggage (fields c) = 1)
    /\ (forall par, parent = Some par -> baggageOnly (fields par) = false ->
        origin (fields c) = origin (fields par)
        /\ errors (fields c) = errors (fields par))
    /\ ctx_trace (fields c) = Some (buf σ')
    /\ push span
         (set_buf match root (parent_trace parent) with
                  | None => set_root (Some span) (parent_trace parent)
                  | Some _ => parent_trace parent
                  end σ)
       = Ok σ'.
Proof.
  intros Hsp. unfold newSpanContext. rewrite (deref_Some _ _ _ Hsp).
  cbn [mbind outcome_bind obind]. cbv zeta.
  set (ctx0 := set_ctx_traceID _ _).
  assert (Hpush : forall t, exists σ', push span (set_buf t σ) = Ok σ').
  { intros t. apply push_returns. exists sp. exact Hsp. }
  destruct parent as [par|].
  - set (c0 := if negb (baggageOnly (fields par))
               then mkContext (inherit (fields par) ctx0) false
               else mkContext ctx0 false).
    assert (Hc0 : baggage_made c0 = false).
    { subst c0. destruct (baggageOnly (fields par)); reflexivity. }
    rewrite (inherit_baggage _ c0 Hc0).
    assert (Htr : match ctx_trace (fields c0) with
                  | Some t => t
                  | None => newTrace
                  end = parent_trace (Some par)).
    { subst c0. unfold parent_trace.
      destruct (baggageOnly (fields par)); cbn; [reflexivity|].
      destruct (ctx_trace (fields par)); reflexivity. }
    set (vis := visible_baggage (Some (as_SpanContext par))).
    destruct (decide (vis = ∅)) as [He|Hne].
    + rewrite bool_decide_true by exact He. rewrite Htr.
      destruct (Hpush match root (parent_trace (Some par)) with
                      | None => set_root (Some span) (parent_trace (Some par))
                      | Some _ => parent_trace (Some par)
                      end) as [σ' Hσ'].
      rewrite Hσ'. cbn [mbind outcome_bind obind].
      eexists _, σ'. split; [reflexivity|].
      cbn [fields baggage_made fmap option_fmap option_map].
      fold vis. rewrite He.
      subst c0. destruct (baggageOnly (fields par)) eqn:Hbo; cbn;
        repeat split; auto; congruence.
    + rewrite bool_decide_false by exact Hne.
      cbn [fields baggage_made].
      assert (Htr' : match ctx_trace (set_baggage vis (set_hasBaggage 1 (fields c0))) with
                     | Some t => t
                     | None => newTrace
                     end = parent_trace (Some par)) by exact Htr.
      rewrite Htr'.
      destruct (Hpush match root (parent_trace (Some par)) with
                      | None => set_root (Some span) (parent_trace (Some par))
                      | Some _ => parent_trace (Some par)
                      end) as [σ' Hσ'].
      rewrite Hσ'. cbn [mbind outcome_bind obind].
      eexists _, σ'. split; [reflexivity|].
      cbn [fields baggage_made fmap option_fmap option_map].
      fold vis.
      subst c0. destruct (baggageOnly (fields par)) eqn:Hbo; cbn;
        repeat split; auto; congruence.
  - assert (Htr : forall c1 : SpanContext,
               ctx_trace c1 = None ->
               match ctx_trace c1 with
               | Some t => t
               | None => newTrace
               end = parent_trace None).
    { intros c1 ->. reflexivity. }
    destruct (Hpush match root (parent_trace None) with
                    | None => set_root (Some span) (parent_trace None)
                    | Some _ => parent_trace None
                    end) as [σ' Hσ'].
    destruct gen128; cbn [fields baggage_made]; rewrite Htr by reflexivity;
      rewrite Hσ'; cbn [mbind outcome_bind obind];
      (eexists _, σ'; split; [reflexivity|]); cbn;
      repeat split; auto; discriminate.
Qed.

Lemma time_upper_value (start : Z) :
  time_upper start = to_uint32 (Z.quot start time_Second) * 2 ^ 32
  /\ 0 <= time_upper start < 2 ^ 64.
Proof.
  unfold time_upper, to_uint32, GoInt.to_uint64, GoInt.uint64_mod.
  pose proof (Z.mod_pos_bound (Z.quot start time_Second) (2 ^ 32) ltac:(lia)) as Hb.
  rewrite Z.shiftl_mul_pow2 by lia.
  change (2 ^ 64) with (2 ^ 32 * 2 ^ 32) in *.
  rewrite Z.mod_small by nia. split; [reflexivity|nia].
Qed.

Lemma zeros_snoc (j : nat) : (zeros j ++ "0")%string = zeros (S j).
Proof.
  induction j as [|j IH]; [reflexivity|].
  cbn [zeros] in *. now rewrite append_cons, IH.
Qed.

Lemma padded_hex_zeros (j k : nat) (n : Z) :
  0 <= n ->
  padded_hex (k + j) (n * 16 ^ Z.of_nat j) = (padded_hex k n ++ zeros j)%string.
Proof.
  intros Hn. induction j as [|j IH].
  - rewrite Nat.add_0_r, Z.mul_1_r. cbn [zeros]. now rewrite append_nil_r.
  - replace (k + S j)%nat with (S (k + j)) by lia.
    replace (n * 16 ^ Z.of_nat (S j)) with (16 * (n * 16 ^ Z.of_nat j) + 0).
    2:{ rewrite Nat2Z.inj_succ, Z.pow_succ_r by lia. lia. }
    rewrite padded_hex_snoc by (try lia; apply Z.mul_nonneg_nonneg; lia).
    rewrite IH, string_app_assoc. f_equal. apply zeros_snoc.
Qed.

(** X13.  The identifiers of the context [newSpanContext] returns for a
    span that exists: the span and its identifier; as lower half of the
    trace identifier the span's trace identifier; as upper half the one of
    the parent when there is a parent that is not baggage only, zero under
    a baggage-only parent, and without parent the seconds of the start time
    (32 bits) in the upper 32 bits when 128-bit generation is enabled, zero
    otherwise.  The context is marked as not updated.  The identifier of a
    root span with generation enabled reads, in hexadecimal, as eight
    digits of seconds, eight zeros and the sixteen digits of the lower
    half. *)
Theorem newSpanContext_identifiers (span : ptr) (sp : Span) (start : Z)
    (parent : option Context) (gen128 : bool) (σ : state) :
  heap σ !! span = Some sp ->
  0 <= span_traceID sp < 2 ^ 64 ->
  (forall par, parent = Some par -> wf_traceID (ctx_traceID (fields par))) ->
  exists (c : Context) (σ' : state),
    newSpanContext span start parent gen128 σ = Ok (c, σ')
    /\ ctx_span (fields c) = Some span
    /\ SpanID (Some (fields c)) = spanID sp
    /\ TraceIDLower (Some (fields c)) = span_traceID sp
    /\ TraceIDUpper (Some (fields c))
       = match parent with
         | Some par =>
             if baggageOnly (fields par) then 0
             else TraceIDUpper (Some (fields par))
         | None =>
             if gen128 then to_uint32 (Z.quot start time_Second) * 2 ^ 32 else 0
         end
    /\ wf_traceID (ctx_traceID (fields c))
    /\ updated (fields c) = false
    /\ (parent = None -> gen128 = true ->
        TraceID (Some (fields c))
        = (padded_hex 8 (to_uint32 (Z.quot start time_Second)) ++ "00000000"
           ++ padded_hex 16 (span_traceID sp))%string).
Proof.
  intros Hsp Hid Hpar.
  destruct (newSpanContext_result span sp start parent gen128 σ Hsp)
    as (c & σ' & Hrun & Hspan & Hsid & Hupd & _ & Htid & _).
  exists c, σ'. split; [exact Hrun|]. split; [exact Hspan|]. split; [exact Hsid|].
  cbv zeta in Htid. cbn [TraceIDLower TraceIDUpper TraceID]. rewrite Htid.
  set (t := SetLower emptyTraceID (span_traceID sp)).
  assert (Hwt : wf_traceID t) by apply wf_SetLower, wf_emptyTraceID.
  assert (Hlo : Lower t = span_traceID sp) by (now apply Lower_SetLower).
  assert (Hup : Upper t = 0) by (subst t; now rewrite Upper_SetLower).
  destruct (time_upper_value start) as [Htv Htr].
  destruct parent as [par|].
  - destruct (baggageOnly (fields par)).
    + repeat split; try assumption; try apply Hwt. discriminate.
    + pose proof (Upper_range _ (Hpar par eq_refl)) as Hr.
      rewrite Lower_SetUpper, Upper_SetUpper by exact Hr.
      repeat split; try assumption; try (now apply wf_SetUpper). discriminate.
  - destruct gen128.
    + rewrite Lower_SetUpper, Upper_SetUpper by exact Htr.
      repeat split; try assumption; try (now apply wf_SetUpper).
      intros _ _. rewrite HexEncoded_halves by (now apply wf_SetUpper).
      rewrite Lower_SetUpper, Upper_SetUpper, Hlo, Htv by exact Htr.
      change (2 ^ 32) with (16 ^ Z.of_nat 8).
      rewrite (padded_hex_zeros 8 8).
      * now rewrite string_app_assoc.
      * unfold to_uint32. apply Z.mod_pos_bound. lia.
    + repeat split; try assumption; try apply Hwt. discriminate.
Qed.

Lemma baggageItem_of (k : string) (c : Context) :
  baggage_made c = false \/ hasBaggage (fields c) <> 0 ->
  baggageItem k c = default EmptyString (baggage_of c !! k).
Proof.
  intros Hc. unfold baggageItem.
  destruct (Z.eqb_spec (hasBaggage (fields c)) 0) as [H0|_]; [|reflexivity].
  destruct Hc as [Hn|Hc]; [|contradiction].
  unfold baggage_of. rewrite Hn. now rewrite lookup_empty.
Qed.

(** X14.  The context of a new span shows the baggage its parent shows,
    whether the parent is baggage only or not, and none without parent;
    and it is never left with an allocated map under a flag that is not
    raised: an item stored on it later is read back. *)
Theorem newSpanContext_baggage (span : ptr) (sp : Span) (start : Z)
    (parent : option Context) (gen128 : bool) (σ : state) :
  heap σ !! span = Some sp ->
  exists (c : Context) (σ' : state),
    newSpanContext span start parent gen128 σ = Ok (c, σ')
    /\ visible_baggage (Some (as_SpanContext c))
       = visible_baggage (as_SpanContext <$> parent)
    /\ (forall k : string,
           baggageItem k c
           = match parent with
             | Some par => baggageItem k par
             | None => EmptyString
             end)
    /\ (forall key val k : string,
           baggageItem k (setBaggageItem key val c)
           = if decide (k = key) then val else baggageItem k c).
Proof.
  intros Hsp.
  destruct (newSpanContext_result span sp start parent gen128 σ Hsp)
    as (c & σ' & Hrun & _ & _ & _ & _ & _ & Hvis & Hflag & _).
  exists c, σ'. split; [exact Hrun|]. split; [exact Hvis|].
  assert (Hok : baggage_made c = false \/ hasBaggage (fields c) <> 0).
  { destruct Hflag as [[H _]|[_ H]]; [now left|right; rewrite H; discriminate]. }
  split.
  - intros k. rewrite baggageItem_visible, Hvis.
    destruct parent as [par|]; cbn [fmap option_fmap option_map].
    + now rewrite baggageItem_visible.
    + cbn [visible_baggage]. now rewrite lookup_empty.
  - intros key val k.
    assert (Hok' : baggage_made (setBaggageItem key val c) = false
                   \/ hasBaggage (fields (setBaggageItem key val c)) <> 0).
    { right. rewrite hasBaggage_setBaggageItem.
      destruct Hflag as [[-> _]|[-> ->]]; discriminate. }
    rewrite (baggageItem_of k _ Hok'), baggage_of_setBaggageItem.
    destruct (decide (k = key)) as [->|Hne].
    + now rewrite lookup_insert_eq.
    + rewrite lookup_insert_ne by congruence. symmetry. now apply baggageItem_of.
Qed.

(** X15.  The buffer of the context of a new span: the buffer of the
    parent when the parent is not baggage only and has one, a fresh buffer
    otherwise; the span becomes its root when it has none, and a root that
    is set stays; the span is pushed, so on a buffer that is not full and
    below its capacity it is the last of its spans, and the only span of a
    fresh buffer; a parent that is not baggage only also hands on its
    origin and its error count. *)
Theorem newSpanContext_trace (span : ptr) (sp : Span) (start : Z)
    (parent : option Context) (gen128 : bool) (σ : state) :
  heap σ !! span = Some sp ->
  let t0 := parent_trace parent in
  exists (c : Context) (σ' : state),
    newSpanContext span start parent gen128 σ = Ok (c, σ')
    /\ ctx_trace (fields c) = Some (buf σ')
    /\ heap σ' = heap σ
    /\ root (buf σ') = Some (default span (root t0))
    /\ (full t0 = false -> len (spans t0) < traceMaxSize ->
        spans (buf σ') = spans t0 ++ [span])
    /\ (full t0 = true -> spans (buf σ') = spans t0)
    /\ (t0 = newTrace -> spans (buf σ') = [span] /\ root (buf σ') = Some span)
    /\ (forall par, parent = Some par -> baggageOnly (fields par) = false ->
        origin (fields c) = origin (fields par)
        /\ errors (fields c) = errors (fields par)).
Proof.
  intros Hsp t0.
  destruct (newSpanContext_result span sp start parent gen128 σ Hsp)
    as (c & σ' & Hrun & _ & _ & _ & _ & _ & _ & _ & Hinh & Htr & Hpush).
  fold t0 in Hpush.
  set (t1 := match root t0 with
             | Some _ => t0
             | None => set_root (Some span) t0
             end) in *.
  assert (Ht1 : root t1 = Some (default span (root t0)) /\ spans t1 = spans t0
                /\ full t1 = full t0).
  { subst t1. destruct (root t0) eqn:Hr; cbn; rewrite ?Hr; auto. }
  destruct Ht1 as (Hr1 & Hs1 & Hf1).
  destruct (push_keeps _ _ _ Hpush) as (Hh & _ & Hroot & _).
  assert (Happ : full t0 = false -> len (spans t0) < traceMaxSize ->
                 spans (buf σ') = spans t0 ++ [span]).
  { intros Hf Hlen.
    pose proof (push_appends span sp (set_buf t1 σ)
                  ltac:(cbn; congruence) ltac:(cbn; rewrite Hs1; exact Hlen) Hsp) as Hp.
    cbv zeta in Hp. rewrite Hp in Hpush. injection Hpush as <-.
    cbn. now rewrite Hs1. }
  exists c, σ'. split; [exact Hrun|]. split; [exact Htr|]. split; [exact Hh|].
  split; [now rewrite Hroot|]. split; [exact Happ|]. split; [|split; [|exact Hinh]].
  - intros Hf. unfold push in Hpush. cbv zeta in Hpush.
    cbn [buf set_buf] in Hpush. rewrite Hf1, Hf in Hpush. injection Hpush as <-.
    exact Hs1.
  - intros Hnew. split.
    + rewrite Happ; rewrite Hnew; reflexivity.
    + rewrite Hroot. cbn [buf set_buf]. rewrite Hr1, Hnew. reflexivity.
Qed.

(** ** The root span locks the sampling priority *)

Lemma setMetaAll_metrics (m : gmap string string) (s : Span) :
  metrics (setMetaAll m s) = metrics s.
Proof.
  unfold setMetaAll.
  apply (map_fold_weak_ind (fun r _ => metrics r = metrics s)); [reflexivity|].
  intros k v m' r _ Hr. exact Hr.
Qed.

Lemma setTraceTags_metrics (t : trace) (s : Span) :
  metrics (setTraceTags t s) = metrics s.
Proof.
  unfold setTraceTags. cbv zeta.
  set (s1 := setMetaAll GetTracerGitMetadataTags
               (setMetaAll (propagatingTags t) (setMetaAll (tags t) s))).
  assert (H1 : metrics s1 = metrics s).
  { subst s1. now rewrite !setMetaAll_metrics. }
  assert (H2 : metrics
                 match context s1 with
                 | Some c => if HasUpper (ctx_traceID c)
                             then setMeta keyTraceID128 (UpperHex (ctx_traceID c)) s1
                             else s1
                 | None => s1
                 end = metrics s).
  { destruct (context s1) as [c|]; [destruct (HasUpper (ctx_traceID c))|]; exact H1. }
  destruct (negb _); exact H2.
Qed.

Lemma update_spec (p : ptr) (f : Span -> Span) (σ : state) (x : Span) :
  heap σ !! p = Some x -> update p f σ = Ok (store p (f x) σ).
Proof. intros H. unfold update. now rewrite (deref_Some _ _ _ H). Qed.

Lemma update_nil (p : ptr) (f : Span -> Span) (σ : state) :
  heap σ !! p = None -> update p f σ = Panic NilDereference.
Proof. intros H. unfold update, deref. now rewrite H. Qed.






(** ** Trace-level tags *)

Lemma set_meta_eta (s : Span) : set_meta (meta s) s = s.
Proof. now destruct s. Qed.

(** The loop [for k, v := range m { s.setMeta(k, v) }] adds the entries of
    [m] to the tags of the span, over the tags it has. *)
Lemma setMetaAll_union (m : gmap string string) (s : Span) :
  setMetaAll m s = set_meta (m ∪ meta s) s.
Proof.
  unfold setMetaAll.
  apply (map_fold_weak_ind (fun r m' => r = set_meta (m' ∪ meta s) s)).
  - rewrite (left_id_L ∅ (∪)). symmetry. apply set_meta_eta.
  - intros k v m' r _ ->. unfold setMeta, set_meta. cbn.
    now rewrite insert_union_l.
Qed.

(** X17.  [setTraceTags] writes tags only.  For every key but the two it
    sets last, the span gets the value of the git metadata, else of the
    propagating tags, else of the trace tags, else keeps its own: later
    loops overwrite earlier ones, and no tag is removed.  The process tags,
    when there are some, are stored under their key; the upper half of the
    trace identifier is stored in hexadecimal under its key exactly when
    the span has a context whose identifier has an upper half (the process
    tags using another key). *)
Theorem setTraceTags_precedence (t : trace) (s : Span) :
  let s' := setTraceTags t s in
  s' = set_meta (meta s') s
  /\ (forall k : string,
         k <> keyTraceID128 -> k <> keyProcessTags ->
         meta s' !! k
         = (GetTracerGitMetadataTags ∪ (propagatingTags t ∪ (tags t ∪ meta s))) !! k)
  /\ (forall k : string, is_Some (meta s !! k) -> is_Some (meta s' !! k))
  /\ (processtags_GlobalTags_String <> EmptyString ->
      meta s' !! keyProcessTags = Some processtags_GlobalTags_String)
  /\ (keyTraceID128 <> keyProcessTags ->
      forall c : SpanContext,
        context s = Some c ->
        HasUpper (ctx_traceID c) = true ->
        meta s' !! keyTraceID128 = Some (UpperHex (ctx_traceID c))).
Proof.
  intros s'. subst s'. unfold setTraceTags. cbv zeta.
  rewrite !setMetaAll_union. cbn [meta set_meta context].
  set (u := GetTracerGitMetadataTags ∪ (propagatingTags t ∪ (tags t ∪ meta s))).
  assert (Hsub : forall k, is_Some (meta s !! k) -> is_Some (u !! k)).
  { intros k Hk. subst u. rewrite !lookup_union_is_Some. auto. }
  set (s1 := set_meta u (set_meta _ (set_meta _ s))).
  assert (Hs1 : s1 = set_meta u s) by reflexivity.
  clearbody s1. subst s1.
  set (s2 := match context s with
             | Some c => if HasUpper (ctx_traceID c)
                         then setMeta keyTraceID128 (UpperHex (ctx_traceID c))
                                (set_meta u s)
                         else set_meta u s
             | None => set_meta u s
             end).
  change (context (set_meta u s)) with (context s). fold s2.
  assert (H2 : s2 = set_meta (meta s2) s
               /\ (forall k, k <> keyTraceID128 -> meta s2 !! k = u !! k)
               /\ (forall k, is_Some (u !! k) -> is_Some (meta s2 !! k))
               /\ (forall c, context s = Some c -> HasUpper (ctx_traceID c) = true ->
                   meta s2 !! keyTraceID128 = Some (UpperHex (ctx_traceID c)))).
  { subst s2. destruct (context s) as [c|]; [destruct (HasUpper (ctx_traceID c)) eqn:Hu|].
    - cbn. repeat split.
      + intros k Hk. now rewrite lookup_insert_ne by congruence.
      + intros k Hk. rewrite lookup_insert_is_Some. destruct (decide (keyTraceID128 = k)); auto.
      + intros c' [= <-] _. apply lookup_insert_eq.
    - cbn. repeat split; auto. intros c' [= <-] Hc. congruence.
    - cbn. repeat split; auto. intros c' [=]. }
  destruct H2 as (He2 & Hk2 & Hd2 & Hu2). clearbody s2.
  destruct (String.eqb_spec processtags_GlobalTags_String EmptyString) as [Hp|Hp];
    cbn [negb].
  - split; [exact He2|]. split; [intros k H1 H3; now apply Hk2|].
    split; [intros k Hk; now apply Hd2, Hsub|]. split; [contradiction|].
    intros _. exact Hu2.
  - unfold setMeta. cbn [meta set_meta].
    split.
    { transitivity (set_meta (<[keyProcessTags := processtags_GlobalTags_String]> (meta s2))
                      (set_meta (meta s2) s)); [now rewrite <- He2|reflexivity]. }
    split; [|split; [|split]].
    + intros k H1 H3. rewrite lookup_insert_ne by congruence. now apply Hk2.
    + intros k Hk. rewrite lookup_insert_is_Some.
      destruct (decide (keyProcessTags = k)); [now left|right].
      split; [assumption|]. now apply Hd2, Hsub.
    + intros _. apply lookup_insert_eq.
    + intros Hne c Hc Hu. rewrite lookup_insert_ne by congruence. now apply Hu2.
Qed.

(** ** Peer service: what is written *)

Lemma writes_only_refl (K : list string) (s : Span) : writes_only K s s.
Proof. split; [symmetry; apply set_meta_eta|]. split; auto. Qed.

Lemma writes_only_trans (K : list string) (s1 s2 s3 : Span) :
  writes_only K s1 s2 -> writes_only K s2 s3 -> writes_only K s1 s3.
Proof.
  intros (E1 & F1 & D1) (E2 & F2 & D2). split; [|split].
  - rewrite E2. rewrite E1. reflexivity.
  - intros k Hk. rewrite F2, F1 by exact Hk. reflexivity.
  - intros k Hk. auto.
Qed.

Lemma writes_only_setMeta (K : list string) (k v : string) (s : Span) :
  k ∈ K -> writes_only K s (setMeta k v s).
Proof.
  intros Hk. split; [reflexivity|]. split.
  - intros k' Hk'. cbn. rewrite lookup_insert_ne; [reflexivity|].
    intros ->. contradiction.
  - intros k' Hk'. cbn. rewrite lookup_insert_is_Some.
    destruct (decide (k = k')); auto.
Qed.

Lemma first_source_writes (K : list string) (l : list string) (s : Span) :
  ext_PeerService ∈ K -> writes_only K s (fst (first_source l s)).
Proof.
  intros HK. induction l as [|src l IH]; cbn [first_source].
  - apply writes_only_refl.
  - destruct (meta s !! src); [|exact IH]. now apply writes_only_setMeta.
Qed.

Lemma remapPeerService_writes (K : list string) (m : gmap string string) (s : Span) :
  ext_PeerService ∈ K -> keyPeerServiceRemappedFrom ∈ K ->
  writes_only K s (remapPeerService m s).
Proof.
  intros H1 H2. unfold remapPeerService.
  destruct (m !! meta_get s ext_PeerService) as [to|]; [|apply writes_only_refl].
  eapply writes_only_trans;
    [exact (writes_only_setMeta K keyPeerServiceRemappedFrom
              (meta_get s ext_PeerService) s H2)|].
  now apply writes_only_setMeta.
Qed.

(** X18.  [setPeerService] writes tags only, and only under the three
    keys [peer.service], the source key and the remapped-from key: every
    other tag of the span is as before and no tag is removed, whatever the
    span, the defaults flag and the mapping; it logs nothing, or the one
    debug line that names the span. *)
Theorem setPeerService_writes (s : Span) (peerServiceDefaults : bool)
    (peerServiceMappings : gmap string string) :
  let r := setPeerService s peerServiceDefaults peerServiceMappings in
  writes_only [ext_PeerService; keyPeerServiceSource; keyPeerServiceRemappedFrom]
    s (fst r)
  /\ (snd r = []
      \/ snd r = [LogDebug
                    "No source tag value could be found for span %q, peer.service not set"
                    [name s]]).
Proof.
  set (K := [ext_PeerService; keyPeerServiceSource; keyPeerServiceRemappedFrom]).
  assert (H1 : ext_PeerService ∈ K) by (subst K; apply list_elem_of_In; cbn; tauto).
  assert (H2 : keyPeerServiceSource ∈ K) by (subst K; apply list_elem_of_In; cbn; tauto).
  assert (H3 : keyPeerServiceRemappedFrom ∈ K) by (subst K; apply list_elem_of_In; cbn; tauto).
  intros r. subst r. unfold setPeerService.
  destruct (has s ext_PeerService).
  { cbn [fst snd]. split; [|now left].
    eapply writes_only_trans;
      [exact (writes_only_setMeta K keyPeerServiceSource ext_PeerService s H2)|].
    now apply remapPeerService_writes. }
  destruct (negb _); [split; [apply writes_only_refl|now left]|].
  unfold setPeerServiceFromSource.
  pose proof (first_source_writes K (peer_sources s) s H1) as Hw.
  destruct (first_source (peer_sources s) s) as [s1 src]. cbn [fst] in Hw.
  assert (Hn : name s1 = name s).
  { destruct Hw as [-> _]. reflexivity. }
  destruct (String.eqb src EmptyString); cbn [fst snd].
  - split; [exact Hw|right]. now rewrite Hn.
  - split; [|now left].
    eapply writes_only_trans; [exact Hw|].
    eapply writes_only_trans;
      [exact (writes_only_setMeta K keyPeerServiceSource src s1 H2)|].
    now apply remapPeerService_writes.
Qed.

(** X19.  The cases in which [setPeerService] resolves nothing, and the
    explicit tag.  Without a [peer.service] tag, a span that is not of kind
    client or producer, or any span while the defaults are off, is left as
    it is and nothing is logged; an outbound span with the defaults on
    that has none of its source tags is left as it is and the debug line is
    logged.  With a [peer.service] tag of value [v], the source recorded is
    [peer.service] and the value stays [v] unless the mapping has an entry
    for [v], which then replaces it, [v] being recorded as remapped-from. *)
Theorem setPeerService_cases (s : Span) (peerServiceDefaults : bool)
    (peerServiceMappings : gmap string string) :
  keyPeerServiceSource <> ext_PeerService ->
  keyPeerServiceRemappedFrom <> ext_PeerService ->
  keyPeerServiceRemappedFrom <> keyPeerServiceSource ->
  let r := setPeerService s peerServiceDefaults peerServiceMappings in
  let outbound :=
    String.eqb (meta_get s ext_SpanKind) "client"
    || String.eqb (meta_get s ext_SpanKind) "producer" in
  (meta s !! ext_PeerService = None ->
   outbound && peerServiceDefaults = false ->
   r = (s, []))
  /\ (meta s !! ext_PeerService = None ->
      outbound && peerServiceDefaults = true ->
      Forall (fun k => meta s !! k = None) (peer_sources s) ->
      r = (s, [LogDebug
                 "No source tag value could be found for span %q, peer.service not set"
                 [name s]]))
  /\ (forall v : string,
         meta s !! ext_PeerService = Some v ->
         snd r = []
         /\ meta (fst r) !! keyPeerServiceSource = Some ext_PeerService
         /\ meta (fst r) !! ext_PeerService
            = Some (default v (peerServiceMappings !! v))
         /\ meta (fst r) !! keyPeerServiceRemappedFrom
            = match peerServiceMappings !! v with
              | Some _ => Some v
              | None => meta s !! keyPeerServiceRemappedFrom
              end).
Proof.
  intros Hk1 Hk2 Hk3 r outbound. subst r. unfold setPeerService.
  split; [|split].
  - intros Hps Hoff. rewrite (has_false _ _ Hps).
    change (String.eqb (meta_get s ext_SpanKind) ext_SpanKindClient
            || String.eqb (meta_get s ext_SpanKind) ext_SpanKindProducer)
      with outbound.
    now rewrite Hoff.
  - intros Hps Hon Hnone. rewrite (has_false _ _ Hps).
    change (String.eqb (meta_get s ext_SpanKind) ext_SpanKindClient
            || String.eqb (meta_get s ext_SpanKind) ext_SpanKindProducer)
      with outbound.
    rewrite Hon. cbn [negb]. unfold setPeerServiceFromSource.
    rewrite (first_source_none _ _ Hnone). reflexivity.
  - intros v Hv. rewrite (has_true _ _ _ Hv). cbn [fst snd].
    split; [reflexivity|].
    unfold remapPeerService.
    assert (Hget : meta_get (setMeta keyPeerServiceSource ext_PeerService s)
                     ext_PeerService = v).
    { unfold meta_get, setMeta. cbn.
      rewrite lookup_insert_ne by exact Hk1. now rewrite Hv. }
    rewrite Hget.
    destruct (peerServiceMappings !! v) as [w|]; cbn [default from_option id];
      unfold setMeta; cbn.
    + split; [|split].
      * rewrite lookup_insert_ne by congruence.
        rewrite lookup_insert_ne by exact Hk3. apply lookup_insert_eq.
      * apply lookup_insert_eq.
      * rewrite lookup_insert_ne by congruence. apply lookup_insert_eq.
    + split; [|split].
      * apply lookup_insert_eq.
      * rewrite lookup_insert_ne by exact Hk1. exact Hv.
      * rewrite lookup_insert_ne by congruence. reflexivity.
Qed.

(** ** Iteration over the baggage *)



(** ** The notification of a mock tracer *)

Lemma mock_finished_app (a b : list event) :
  mock_finished (a ++ b) = mock_finished a ++ mock_finished b.
Proof.
  induction a as [|e a IH]; [reflexivity|].
  destruct e; cbn; rewrite ?IH; reflexivity.
Qed.

Lemma setPeerService_logs (s : Span) (d : bool) (m : gmap string string) :
  mock_finished (snd (setPeerService s d m)) = [].
Proof.
  unfold setPeerService. destruct (has s ext_PeerService); [reflexivity|].
  destruct (negb _); [reflexivity|].
  destruct (setPeerServiceFromSource s) as [s1 src].
  destruct (String.eqb src EmptyString); reflexivity.
Qed.

(** The annotation step tells the tracer of the span once when the tracer
    has a [FinishSpan] method, and of no other span. *)
Lemma finish_annotate_mock (tr : Tracer) (s : ptr) (σ : state) :
  is_Some (heap σ !! s) ->
  exists σ' : state,
    finish_annotate tr s σ = Ok σ'
    /\ mock_finished (events σ')
       = mock_finished (events σ) ++ (if has_FinishSpan tr then [s] else []).
Proof.
  intros [sp Hsp]. unfold finish_annotate. cbv zeta.
  rewrite (deref_Some _ _ _ Hsp). cbn [mbind outcome_bind obind].
  pose proof (setPeerService_logs sp (PeerServiceDefaults (conf tr))
                (PeerServiceMappings (conf tr))) as Hlogs.
  destruct (setPeerService sp _ _) as [sp1 logs]. cbn [snd] in Hlogs.
  set (σ1 := emit logs (store s sp1 σ)).
  assert (Hs1 : heap σ1 !! s = Some sp1) by (subst σ1; cbn; apply lookup_insert_eq).
  assert (He1 : mock_finished (events σ1) = mock_finished (events σ)).
  { subst σ1. cbn. now rewrite mock_finished_app, Hlogs, app_nil_r. }
  rewrite (deref_Some _ _ _ Hs1). cbn [mbind outcome_bind obind].
  set (σ2 := if _ : bool then store s _ σ1 else σ1).
  assert (H2 : events σ2 = events σ1 /\ exists x2, heap σ2 !! s = Some x2).
  { subst σ2. destruct (_ && _); (split; [reflexivity|]); [|eauto].
    eexists. cbn. apply lookup_insert_eq. }
  destruct H2 as (He2 & x2 & Hx2). clearbody σ2. clear Hs1.
  assert (H3 : exists σ3 x3,
             match root (buf σ2), priority (buf σ2) with
             | Some r, Some pr =>
                 if (s =? r)%positive then
                   σ ← update r (setMetric keySamplingPriority pr) σ2;
                   Ok (set_buf (set_locked true (buf σ)) σ)
                 else Ok σ2
             | _, _ => Ok σ2
             end = Ok σ3 /\ events σ3 = events σ2 /\ heap σ3 !! s = Some x3).
  { destruct (root (buf σ2)) as [r|]; [|eauto 10].
    destruct (priority (buf σ2)) as [pr|]; [|eauto 10].
    destruct (Pos.eqb_spec s r) as [<-|]; [|eauto 10].
    rewrite (update_spec _ _ _ _ Hx2). cbn [mbind outcome_bind obind].
    eexists _, _. split; [reflexivity|]. split; [reflexivity|].
    cbn. apply lookup_insert_eq. }
  destruct H3 as (σ3 & x3 & -> & He3 & Hx3). cbn [mbind outcome_bind obind].
  assert (H4 : exists σ4,
             match spans (buf σ3) with
             | first :: _ =>
                 if (s =? first)%positive
                 then update s (setTraceTags (buf σ3)) σ3 else Ok σ3
             | [] => Ok σ3
             end = Ok σ4 /\ events σ4 = events σ3).
  { destruct (spans (buf σ3)) as [|first ?]; [eauto|].
    destruct (s =? first)%positive; [|eauto].
    rewrite (update_spec _ _ _ _ Hx3). eauto. }
  destruct H4 as (σ4 & -> & He4). cbn [mbind outcome_bind obind].
  eexists. split; [reflexivity|].
  destruct (has_FinishSpan tr); cbn [events emit].
  - rewrite mock_finished_app, He4, He3, He2, He1. reflexivity.
  - rewrite He4, He3, He2, He1. now rewrite app_nil_r.
Qed.

(** Without partial flush the flush step returns, and tells the tracer of
    no span. *)
Lemma finish_flush_mock (tr : Tracer) (s : ptr) (σ : state) :
  PartialFlush (conf tr) = false ->
  exists σ' : state,
    finish_flush tr s σ = Ok σ'
    /\ mock_finished (events σ') = mock_finished (events σ)
    /\ globalTracer σ' = globalTracer σ
    /\ full (buf σ') = full (buf σ)
    /\ heap σ' = heap σ
    /\ (is_tracer tr = false -> submitted σ' = submitted σ).
Proof.
  intros Hpf. unfold finish_flush. cbv zeta. rewrite Hpf. cbn [andb negb].
  destruct (len (spans (buf σ)) =? finished (buf σ)); [|eauto 10].
  eexists. split; [reflexivity|].
  destruct (is_tracer tr); cbn.
  - rewrite mock_finished_app. cbn. rewrite app_nil_r. repeat split. discriminate.
  - repeat split.
Qed.

Lemma finishedOne_mock (tr : Tracer) (s : ptr) (σ : state) :
  globalTracer σ = Some tr ->
  PartialFlush (conf tr) = false ->
  full (buf σ) = false ->
  is_Some (heap σ !! s) ->
  exists σ' : state,
    finishedOne s σ = Ok σ'
    /\ mock_finished (events σ')
       = mock_finished (events σ) ++ (if has_FinishSpan tr then [s] else [])
    /\ globalTracer σ' = Some tr
    /\ full (buf σ') = false
    /\ (forall p, is_Some (heap σ !! p) -> is_Some (heap σ' !! p))
    /\ (is_tracer tr = false -> submitted σ' = submitted σ).
Proof.
  intros Hg Hpf Hf [sp Hsp]. unfold finishedOne.
  rewrite (deref_Some _ _ _ Hsp). cbn [mbind outcome_bind obind].
  change (buf (store s (set_span_finished true sp) σ)) with (buf σ). rewrite Hf.
  set (σ1 := set_buf _ (store s _ σ)).
  change (globalTracer σ1) with (globalTracer σ). rewrite Hg.
  assert (Hs1 : is_Some (heap σ1 !! s)).
  { subst σ1. cbn. rewrite lookup_insert_eq. eauto. }
  destruct (finish_annotate_mock tr s σ1 Hs1) as (σ2 & Hrun & Hm2).
  destruct (finish_annotate_frame tr s σ1 Hs1) as (σ2' & Hrun' & Hg2 & [b Hb2] & Hfl & Hsub).
  rewrite Hrun in Hrun'. injection Hrun' as <-.
  rewrite Hrun. cbn [mbind outcome_bind obind].
  destruct (finish_flush_mock tr s σ2 Hpf) as (σ' & -> & Hm' & Hg' & Hf' & Hh' & Hs').
  exists σ'. split; [reflexivity|]. split; [now rewrite Hm', Hm2|].
  split; [now rewrite Hg', Hg2|]. split; [now rewrite Hf', Hb2|]. split.
  - intros p Hp. rewrite Hh'. apply (annotated_alloc p σ1 σ2).
    + repeat split; [exact Hg2|eauto|exact Hfl|exact Hsub].
    + subst σ1. cbn. rewrite lookup_insert_is_Some.
      destruct (decide (s = p)); auto.
  - intros Hnt. rewrite (Hs' Hnt), Hsub. reflexivity.
Qed.

(** X21.  Under a registered tracer without partial flush, on a buffer
    that is not full: every sequence of finishes of spans that exist
    returns, and a tracer that has a [FinishSpan] method (the mock tracer)
    is told of exactly the spans finished, each once and in the order of
    the calls, whether or not the finish completes the trace; a tracer
    without the method is told nothing; and a tracer that is not the tracer
    proper is handed no chunk. *)
Theorem mock_tracer_sees_every_finish (tr : Tracer) (l : list ptr) (σ : state) :
  globalTracer σ = Some tr ->
  PartialFlush (conf tr) = false ->
  full (buf σ) = false ->
  Forall (fun p => is_Some (heap σ !! p)) l ->
  exists σ' : state,
    run (map Finish l) σ = Ok σ'
    /\ mock_finished (events σ')
       = mock_finished (events σ) ++ (if has_FinishSpan tr then l else [])
    /\ (is_tracer tr = false -> submitted σ' = submitted σ).
Proof.
  intros Hg Hpf. revert σ Hg.
  induction l as [|s l IH]; intros σ Hg Hf Hall.
  - exists σ. split; [reflexivity|]. split; [|reflexivity].
    destruct (has_FinishSpan tr); now rewrite app_nil_r.
  - inversion Hall as [|? ? Hs Hl]; subst.
    destruct (finishedOne_mock tr s σ Hg Hpf Hf Hs)
      as (σ1 & Hrun & Hm1 & Hg1 & Hf1 & Hal1 & Hs1).
    destruct (IH σ1 Hg1 Hf1) as (σ' & Hrun' & Hm' & Hs').
    { eapply Forall_impl; [exact Hl|]. intros p Hp. now apply Hal1. }
    exists σ'. cbn [map run exec]. rewrite Hrun. cbn [mbind outcome_bind obind].
    split; [exact Hrun'|]. split.
    + rewrite Hm', Hm1. destruct (has_FinishSpan tr); rewrite <- app_assoc; reflexivity.
    + intros Hnt. rewrite (Hs' Hnt), (Hs1 Hnt). reflexivity.
Qed.

(** ** Trace-level tags reach the first span of the chunk *)

Lemma setTraceTags_lookup (t : trace) (s : Span) (k : string) :
  k <> keyTraceID128 -> k <> keyProcessTags ->
  meta (setTraceTags t s) !! k
  = (GetTracerGitMetadataTags ∪ (propagatingTags t ∪ (tags t ∪ meta s))) !! k.
Proof.
  intros H1 H2. unfold setTraceTags. cbv zeta. rewrite !setMetaAll_union.
  cbn [meta set_meta context].
  destruct (negb _); destruct (context s) as [c|];
    try destruct (HasUpper (ctx_traceID c)); cbn;
    rewrite ?lookup_insert_ne by congruence; reflexivity.
Qed.

(** When the span that finishes is the first of the buffer, the annotation
    step ends with the trace-level tags written on it. *)
Lemma finish_annotate_first (tr : Tracer) (s : ptr) (σ : state) (rest : list ptr) :
  is_Some (heap σ !! s) ->
  spans (buf σ) = s :: rest ->
  exists (σ' : state) (x1 : Span),
    finish_annotate tr s σ = Ok σ'
    /\ heap σ' !! s = Some (setTraceTags (buf σ') x1).
Proof.
  intros [sp Hsp] Hfirst. unfold finish_annotate. cbv zeta.
  rewrite (deref_Some _ _ _ Hsp). cbn [mbind outcome_bind obind].
  destruct (setPeerService sp _ _) as [sp1 logs].
  set (σ1 := emit logs (store s sp1 σ)).
  assert (Hs1 : heap σ1 !! s = Some sp1) by (subst σ1; cbn; apply lookup_insert_eq).
  rewrite (deref_Some _ _ _ Hs1). cbn [mbind outcome_bind obind].
  set (σ2 := if _ : bool then store s _ σ1 else σ1).
  assert (H2 : spans (buf σ2) = s :: rest /\ exists x2, heap σ2 !! s = Some x2).
  { subst σ2. destruct (_ && _); (split; [exact Hfirst|]); [|eauto].
    eexists. cbn. apply lookup_insert_eq. }
  destruct H2 as (Hb2 & x2 & Hx2). clearbody σ2. clear Hs1.
  assert (H3 : exists σ3 x3,
             match root (buf σ2), priority (buf σ2) with
             | Some r, Some pr =>
                 if (s =? r)%positive then
                   σ ← update r (setMetric keySamplingPriority pr) σ2;
                   Ok (set_buf (set_locked true (buf σ)) σ)
                 else Ok σ2
             | _, _ => Ok σ2
             end = Ok σ3 /\ spans (buf σ3) = s :: rest /\ heap σ3 !! s = Some x3).
  { destruct (root (buf σ2)) as [r|]; [|eauto 10].
    destruct (priority (buf σ2)) as [pr|]; [|eauto 10].
    destruct (Pos.eqb_spec s r) as [<-|]; [|eauto 10].
    rewrite (update_spec _ _ _ _ Hx2). cbn [mbind outcome_bind obind].
    eexists _, _. split; [reflexivity|]. split; [exact Hb2|].
    cbn. apply lookup_insert_eq. }
  destruct H3 as (σ3 & x3 & -> & Hb3 & Hx3). cbn [mbind outcome_bind obind].
  rewrite Hb3, Pos.eqb_refl, (update_spec _ _ _ _ Hx3).
  cbn [mbind outcome_bind obind].
  eexists _, x3. split; [reflexivity|].
  destruct (has_FinishSpan tr); cbn; apply lookup_insert_eq.
Qed.

(** The flush step writes no tag on the span that finishes when it is the
    first of the buffer. *)
Lemma finish_flush_first (tr : Tracer) (s : ptr) (σ σ' : state) (x : Span)
    (rest : list ptr) :
  finish_flush tr s σ = Ok σ' ->
  spans (buf σ) = s :: rest ->
  heap σ !! s = Some x ->
  exists x' : Span,
    heap σ' !! s = Some x' /\ meta x' = meta x
    /\ span_finished x' = span_finished x.
Proof.
  unfold finish_flush. cbv zeta. intros Hrun Hfirst Hx.
  destruct (len (spans (buf σ)) =? finished (buf σ)).
  { injection Hrun as <-. exists x. destruct (is_tracer tr); cbn; auto. }
  destruct (negb _).
  { injection Hrun as <-. eauto. }
  destruct (_ || _); [discriminate|].
  match type of Hrun with context [split_loop ?h ?l [] []] =>
    destruct (split_loop h l [] []) as [[fs ls]|] end; [|discriminate].
  cbn [mbind outcome_bind obind] in Hrun.
  destruct fs as [|f0 fs]; [discriminate|].
  destruct (priority (buf σ)) as [pr|]; [|discriminate].
  match type of Hrun with context [update f0 _ ?st ≫= _] => set (σe := st) in Hrun end.
  assert (Hhe : heap σe = heap σ) by reflexivity.
  destruct (heap σ !! f0) as [y|] eqn:Hy.
  2:{ rewrite (update_nil f0 _ σe) in Hrun by (rewrite Hhe; exact Hy). discriminate. }
  rewrite (update_spec f0 _ σe y) in Hrun by (rewrite Hhe; exact Hy).
  cbn [mbind outcome_bind obind] in Hrun.
  rewrite Hfirst, Pos.eqb_refl in Hrun. cbn [negb mbind outcome_bind obind] in Hrun.
  injection Hrun as <-.
  assert (Hres : exists x', <[f0 := setMetric keySamplingPriority pr y]> (heap σ) !! s
                            = Some x' /\ meta x' = meta x
                            /\ span_finished x' = span_finished x).
  { destruct (decide (f0 = s)) as [->|Hne].
    - rewrite lookup_insert_eq. eexists. split; [reflexivity|].
      cbn. split; congruence.
    - rewrite lookup_insert_ne by exact Hne. eauto. }
  destruct (is_tracer tr); cbn; exact Hres.
Qed.

(** X22.  Under the tracer proper, when the first span of a well-formed
    buffer finishes (the buffer not being full, a priority being set), the
    span carries the trace-level tags afterwards: every propagating tag of
    the buffer, such as the decision maker, and every trace tag that no
    propagating tag shadows, unless the git metadata has the key or the key
    is one of the two that [setTraceTags] writes last. *)
Theorem first_span_carries_trace_tags (tr : Tracer) (σ : state) (s : ptr)
    (rest : list ptr) :
  is_tracer tr = true ->
  draining tr σ ->
  In s (unfinished σ) ->
  spans (buf σ) = s :: rest ->
  exists (σ' : state) (x' : Span),
    finishedOne s σ = Ok σ'
    /\ heap σ' !! s = Some x'
    /\ span_finished x' = true
    /\ forall k v : string,
         GetTracerGitMetadataTags !! k = None ->
         k <> keyTraceID128 -> k <> keyProcessTags ->
         propagatingTags (buf σ) !! k = Some v
         \/ (propagatingTags (buf σ) !! k = None /\ tags (buf σ) !! k = Some v) ->
         meta x' !! k = Some v.
Proof.
  intros Ht Hd Hin Hfirst.
  destruct (drain_step tr σ s Ht Hd Hin) as (σ' & Hrun & _).
  destruct Hd as (Hg & (Hf & _ & Hall & _) & _).
  assert (Hs : is_Some (heap σ !! s)).
  { unfold unfinished in Hin. apply filter_In in Hin as [Hin _].
    rewrite Forall_forall in Hall. apply Hall. now apply list_elem_of_In. }
  destruct Hs as [sp Hsp].
  pose proof Hrun as Hrun0.
  unfold finishedOne in Hrun. rewrite (deref_Some _ _ _ Hsp) in Hrun.
  cbn [mbind outcome_bind obind] in Hrun.
  change (buf (store s (set_span_finished true sp) σ)) with (buf σ) in Hrun.
  rewrite Hf in Hrun.
  set (σ1 := set_buf _ (store s _ σ)) in Hrun.
  change (globalTracer σ1) with (globalTracer σ) in Hrun. rewrite Hg in Hrun.
  assert (Hs1 : is_Some (heap σ1 !! s)).
  { subst σ1. cbn. rewrite lookup_insert_eq. eauto. }
  destruct (finish_annotate_first tr s σ1 rest Hs1 Hfirst) as (σ2 & x1 & Hann & Hx2).
  destruct (finish_annotate_frame tr s σ1 Hs1)
    as (σ2' & Hann' & Hg2 & [b Hb2] & Hfl2 & _).
  rewrite Hann in Hann'. injection Hann' as <-.
  rewrite Hann in Hrun. cbn [mbind outcome_bind obind] in Hrun.
  destruct (finish_flush_first tr s σ2 σ' _ rest Hrun
              ltac:(rewrite Hb2; exact Hfirst) Hx2) as (x' & Hx' & Hm & Hfin).
  exists σ', x'. split; [exact Hrun0|]. split; [exact Hx'|]. split.
  - rewrite Hfin.
    apply (f_equal (fun m => m !! s)) in Hfl2.
    rewrite !flags_lookup, Hx2 in Hfl2. subst σ1. cbn in Hfl2.
    rewrite lookup_insert_eq in Hfl2. cbn in Hfl2. congruence.
  - intros k v Hgit H1 H2 Hkv. rewrite Hm, setTraceTags_lookup by assumption.
    rewrite Hb2. cbn [propagatingTags tags set_locked set_finished set_buf buf].
    change (propagatingTags (buf σ1)) with (propagatingTags (buf σ)).
    change (tags (buf σ1)) with (tags (buf σ)).
    rewrite lookup_union_r by exact Hgit.
    destruct Hkv as [Hp|[Hp Htg]].
    + now rewrite (lookup_union_Some_l _ _ _ _ Hp).
    + rewrite lookup_union_r by exact Hp. now rewrite (lookup_union_Some_l _ _ _ _ Htg).
Qed.

(** ** A trace of two spans, from the contexts to the chunk *)

Lemma state_eta (σ : state) : set_buf (buf σ) σ = σ.
Proof. now destruct σ. Qed.

(** The state [push] leaves after [newSpanContext] has set the root, on a
    buffer [t] that is not full and has room. *)
Lemma push_rooted (span : ptr) (x : Span) (t : trace) (σ σ' : state) :
  heap σ !! span = Some x ->
  full t = false ->
  len (spans t) < traceMaxSize ->
  push span (set_buf t σ) = Ok σ' ->
  spans (buf σ') = spans t ++ [span]
  /\ root (buf σ') = root t /\ full (buf σ') = false
  /\ finished (buf σ') = finished t /\ decision (buf σ') = decision t
  /\ heap σ' = heap σ /\ globalTracer σ' = globalTracer σ
  /\ submitted σ' = submitted σ.
Proof.
  intros Hx Hf Hlen Hpush.
  pose proof (push_appends span x (set_buf t σ) Hf Hlen Hx) as Hp.
  cbv zeta in Hp. rewrite Hp in Hpush. injection Hpush as <-.
  cbn [buf heap globalTracer events set_buf spans set_spans root full finished
       decision].
  set (t' := match metrics x !! keySamplingPriority with
             | Some v => fst (setSamplingPriorityLocked (Float64.to_int v)
                                samplernames_Unknown t)
             | None => t
             end).
  assert (Ht : root t' = root t /\ full t' = full t /\ finished t' = finished t
               /\ decision t' = decision t).
  { subst t'. destruct (metrics x !! keySamplingPriority) as [v|]; [|auto].
    destruct (setSamplingPriorityLocked_keeps (Float64.to_int v)
                samplernames_Unknown t) as (H1 & _ & _ & _ & H5 & H6 & H7). auto. }
  destruct Ht as (H1 & H2 & H3 & H4).
  repeat split; try congruence.
  unfold submitted. cbn [events]. rewrite submitted_of_app.
  destruct (globalTracer σ); cbn; now rewrite app_nil_r.
Qed.

(** X23.  A trace of two spans under the tracer proper, partial flush
    disabled: [newSpanContext] for a root span without parent and then for
    a second span with the root's context as parent leaves one buffer that
    holds the two spans in this order, the first as root, and nothing is
    submitted; whichever of the two finishes first, its finish submits
    nothing, and the finish of the other submits one chunk with the two
    spans, marked as not to be sent since nobody decided to keep the trace,
    and empties the buffer. *)
Theorem trace_life_cycle (tr : Tracer) (σ : state) (r k : ptr) (xr xk : Span)
    (start start' : Z) (gen128 : bool) :
  globalTracer σ = Some tr ->
  is_tracer tr = true ->
  PartialFlush (conf tr) = false ->
  heap σ !! r = Some xr ->
  heap σ !! k = Some xk ->
  exists (c1 c2 : Context) (σ1 σ2 : state),
    newSpanContext r start None gen128 σ = Ok (c1, σ1)
    /\ newSpanContext k start' (Some c1) gen128 σ1 = Ok (c2, σ2)
    /\ ctx_trace (fields c2) = Some (buf σ2)
    /\ spans (buf σ2) = [r; k]
    /\ root (buf σ2) = Some r
    /\ submitted σ2 = submitted σ
    /\ forall a b : ptr,
         (a = r /\ b = k) \/ (a = k /\ b = r) ->
         exists σ3 σ4 : state,
           finishedOne a σ2 = Ok σ3
           /\ submitted σ3 = submitted σ
           /\ spans (buf σ3) = [r; k]
           /\ finishedOne b σ3 = Ok σ4
           /\ submitted σ4 = submitted σ ++ [mkChunk [r; k] false]
           /\ spans (buf σ4) = [].
Proof.
  intros Hg Ht Hpf Hr Hk.
  destruct (newSpanContext_result r xr start None gen128 σ Hr)
    as (c1 & σ1 & Hrun1 & _ & _ & _ & Hbo1 & _ & _ & _ & _ & Htr1 & Hpush1).
  cbn [parent_trace root newTrace] in Hpush1.
  destruct (push_rooted r xr (set_root (Some r) newTrace) σ σ1 Hr eq_refl eq_refl
              Hpush1)
    as (Hs1 & Hroot1 & Hf1 & Hn1 & Hd1 & Hh1 & Hg1 & Hsub1).
  cbn [spans set_root newTrace app root finished decision] in Hs1, Hroot1, Hn1, Hd1.
  assert (Hk1 : heap σ1 !! k = Some xk) by (rewrite Hh1; exact Hk).
  destruct (newSpanContext_result k xk start' (Some c1) gen128 σ1 Hk1)
    as (c2 & σ2 & Hrun2 & _ & _ & _ & _ & _ & _ & _ & _ & Htr2 & Hpush2).
  assert (Hpt : parent_trace (Some c1) = buf σ1).
  { unfold parent_trace. now rewrite Hbo1, Htr1. }
  rewrite Hpt, Hroot1, state_eta in Hpush2.
  rewrite <- (state_eta σ1) in Hpush2.
  destruct (push_rooted k xk (buf σ1) σ1 σ2 Hk1 Hf1
              ltac:(rewrite Hs1; reflexivity) Hpush2)
    as (Hs2 & Hroot2 & Hf2 & Hn2 & Hd2 & Hh2 & Hg2 & Hsub2).
  rewrite Hs1 in Hs2. cbn [app] in Hs2.
  exists c1, c2, σ1, σ2.
  split; [exact Hrun1|]. split; [exact Hrun2|]. split; [exact Htr2|].
  split; [exact Hs2|]. split; [congruence|]. split; [congruence|].
  intros a b Hab.
  assert (Ha : is_Some (heap σ2 !! a) /\ is_Some (heap σ2 !! b)).
  { rewrite Hh2, Hh1. destruct Hab as [[-> ->]|[-> ->]]; eauto. }
  destruct Ha as [Ha Hb].
  destruct (finishedOne_no_flush tr σ2 a) as (σ3 & Hfin3 & Hg3 & [l3 Hb3] & Hfl3 & Hsub3).
  { congruence. }
  { exact Hf2. }
  { exact Ha. }
  { rewrite Hn2, Hn1. unfold GoInt.minInt, GoInt.maxInt. lia. }
  { rewrite Hs2, Hn2, Hn1. discriminate. }
  { unfold partial_flush_at. now rewrite Hpf. }
  assert (Hb3' : is_Some (heap σ3 !! b)).
  { apply (f_equal (fun m => m !! b)) in Hfl3.
    rewrite flags_lookup in Hfl3. destruct (heap σ3 !! b); [eauto|].
    destruct (decide (a = b)) as [->|Hne].
    - rewrite lookup_insert_eq in Hfl3. discriminate.
    - rewrite lookup_insert_ne, flags_lookup in Hfl3 by exact Hne.
      destruct Hb as [y Hy]. rewrite Hy in Hfl3. discriminate. }
  destruct (finishedOne_full_flush tr σ3 b) as (σ4 & Hfin4 & _ & [l4 Hb4] & _ & Hsub4).
  { congruence. }
  { exact Ht. }
  { rewrite Hb3. exact Hf2. }
  { exact Hb3'. }
  { rewrite Hb3. cbn. rewrite Hn2, Hn1. lia. }
  { rewrite Hb3. cbn. rewrite Hs2, Hn2, Hn1. reflexivity. }
  { rewrite Hb3. cbn [spans set_locked set_spans set_finished]. rewrite Hs2.
    unfold len, traceMaxSize. cbn [length]. lia. }
  exists σ3, σ4. split; [exact Hfin3|].
  rewrite app_nil_r in Hsub3.
  split; [congruence|]. split; [rewrite Hb3; exact Hs2|]. split; [exact Hfin4|].
  split.
  - rewrite Hsub4, Hsub3, Hsub2, Hsub1, Hb3. cbn [spans set_locked set_spans].
    rewrite Hs2. unfold will_send. cbn [decision set_locked set_spans set_finished].
    rewrite Hd2, Hd1. reflexivity.
  - rewrite Hb4. reflexivity.
Qed.

(** ** What a finish writes on the finishing span *)

(** The annotation step leaves [annotate_span] at the finishing span and
    the other spans as they are. *)
Lemma finish_annotate_span (tr : Tracer) (s : ptr) (σ : state) (x : Span) :
  heap σ !! s = Some x ->
  exists σ' : state,
    finish_annotate tr s σ = Ok σ'
    /\ heap σ' !! s = Some (annotate_span tr (buf σ) s x)
    /\ (forall p, p <> s -> heap σ' !! p = heap σ !! p).
Proof.
  intros Hx. unfold finish_annotate, annotate_span. cbv zeta.
  rewrite (deref_Some _ _ _ Hx). cbn [mbind outcome_bind obind].
  destruct (setPeerService x _ _) as [x1 logs]. cbn [fst].
  set (σ1 := emit logs (store s x1 σ)).
  assert (Hs1 : heap σ1 !! s = Some x1) by (subst σ1; cbn; apply lookup_insert_eq).
  rewrite (deref_Some _ _ _ Hs1). cbn [mbind outcome_bind obind].
  set (x2 := if _ : bool then set_meta _ x1 else x1).
  set (σ2 := if _ : bool then store s _ σ1 else σ1).
  assert (H2 : buf σ2 = buf σ /\ heap σ2 !! s = Some x2
               /\ forall p, p <> s -> heap σ2 !! p = heap σ !! p).
  { subst σ2 x2 σ1. destruct (_ && _); cbn.
    - split; [reflexivity|]. split; [apply lookup_insert_eq|].
      intros p Hp. now rewrite !lookup_insert_ne by congruence.
    - split; [reflexivity|]. split; [apply lookup_insert_eq|].
      intros p Hp. now rewrite lookup_insert_ne by congruence. }
  destruct H2 as (Hb2 & Hx2 & Hfr2). clearbody σ2 x2. clear Hs1 σ1.
  rewrite Hb2.
  set (x3 := match root_lock (buf σ) s with
             | Some pr => setMetric keySamplingPriority pr x2
             | None => x2
             end).
  set (t3 := match root_lock (buf σ) s with
             | Some _ => set_locked true (buf σ)
             | None => buf σ
             end).
  assert (H3 : exists σ3,
             match root (buf σ), priority (buf σ) with
             | Some r, Some pr =>
                 if (s =? r)%positive then
                   σ0 ← update r (setMetric keySamplingPriority pr) σ2;
                   Ok (set_buf (set_locked true (buf σ0)) σ0)
                 else Ok σ2
             | _, _ => Ok σ2
             end = Ok σ3
             /\ buf σ3 = t3 /\ heap σ3 !! s = Some x3
             /\ forall p, p <> s -> heap σ3 !! p = heap σ !! p).
  { subst x3 t3. unfold root_lock.
    destruct (root (buf σ)) as [r|]; [|eauto 10].
    destruct (priority (buf σ)) as [pr|]; [|eauto 10].
    destruct (Pos.eqb_spec s r) as [<-|]; [|eauto 10].
    rewrite (update_spec _ _ _ _ Hx2). cbn [mbind outcome_bind obind].
    eexists. split; [reflexivity|]. cbn. rewrite Hb2.
    split; [reflexivity|]. split; [apply lookup_insert_eq|].
    intros p Hp. rewrite lookup_insert_ne by congruence. now apply Hfr2. }
  destruct H3 as (σ3 & -> & Hb3 & Hx3 & Hfr3). cbn [mbind outcome_bind obind].
  assert (Hsp : spans t3 = spans (buf σ)).
  { subst t3. destruct (root_lock (buf σ) s); reflexivity. }
  rewrite Hb3, Hsp.
  assert (H4 : exists σ4,
             match spans (buf σ) with
             | first :: _ =>
                 if (s =? first)%positive then update s (setTraceTags t3) σ3 else Ok σ3
             | [] => Ok σ3
             end = Ok σ4
             /\ heap σ4 !! s
                = Some match spans (buf σ) with
                       | first :: _ =>
                           if (s =? first)%positive then setTraceTags t3 x3 else x3
                       | [] => x3
                       end
             /\ forall p, p <> s -> heap σ4 !! p = heap σ !! p).
  { destruct (spans (buf σ)) as [|first ?]; [eauto|].
    destruct (s =? first)%positive; [|eauto].
    rewrite (update_spec _ _ _ _ Hx3). eexists. split; [reflexivity|].
    cbn. split; [apply lookup_insert_eq|].
    intros p Hp. rewrite lookup_insert_ne by congruence. now apply Hfr3. }
  destruct H4 as (σ4 & -> & Hx4 & Hfr4). cbn [mbind outcome_bind obind].
  eexists. split; [reflexivity|].
  destruct (has_FinishSpan tr); cbn [heap emit]; auto.
Qed.

(** The spans after a partial flush: the first span of the chunk is
    rewritten, the others are as they were. *)
Lemma finish_flush_partial_heap (tr : Tracer) (s : ptr) (σ σ' : state) :
  finish_flush tr s σ = Ok σ' ->
  (len (spans (buf σ)) =? finished (buf σ)) = false ->
  partial_flush_at tr (finished (buf σ)) = true ->
  exists (f0 : ptr) (fs ls : list ptr) (pr : float64) (y : Span),
    split_loop (heap σ) (spans (buf σ)) [] [] = Ok (f0 :: fs, ls)
    /\ priority (buf σ) = Some pr
    /\ heap σ !! f0 = Some y
    /\ heap σ' = <[f0 := chunk_head (buf σ) s pr y]> (heap σ).
Proof.
  unfold finish_flush, partial_flush_at. cbv zeta. intros Hrun Hne Hpf.
  rewrite Hne, Hpf in Hrun. cbn [negb] in Hrun.
  destruct (_ || _); [discriminate|].
  match type of Hrun with context [split_loop ?h ?l [] []] =>
    change h with (heap σ) in Hrun;
    destruct (split_loop (heap σ) l [] []) as [[fs ls]|] eqn:Hsplit end;
    [|discriminate].
  cbn [mbind outcome_bind obind] in Hrun.
  destruct fs as [|f0 fs]; [discriminate|].
  destruct (priority (buf σ)) as [pr|] eqn:Hpr; [|discriminate].
  match type of Hrun with context [update f0 _ ?st ≫= _] => set (σe := st) in Hrun end.
  assert (Hhe : heap σe = heap σ) by reflexivity.
  destruct (heap σ !! f0) as [y|] eqn:Hy.
  2:{ rewrite (update_nil f0 _ σe) in Hrun by (rewrite Hhe; exact Hy). discriminate. }
  rewrite (update_spec f0 _ σe y) in Hrun by (rewrite Hhe; exact Hy).
  cbn [mbind outcome_bind obind] in Hrun.
  exists f0, fs, ls, pr, y.
  split; [first [reflexivity|assumption]|].
  split; [first [reflexivity|assumption]|].
  split; [first [reflexivity|assumption]|]. unfold chunk_head. cbv zeta.
  set (σ1 := store f0 (setMetric keySamplingPriority pr y) σe) in Hrun.
  assert (Hy1 : heap σ1 !! f0 = Some (setMetric keySamplingPriority pr y))
    by (subst σ1; cbn; apply lookup_insert_eq).
  assert (Hh1 : heap σ1 = <[f0 := setMetric keySamplingPriority pr y]> (heap σ))
    by reflexivity.
  assert (Hb1 : buf σ1 = buf σ) by reflexivity.
  clearbody σ1.
  destruct (spans (buf σ)) as [|first rest]; [discriminate|].
  destruct (negb (s =? first)%positive).
  - rewrite (update_spec _ _ _ _ Hy1) in Hrun. cbn [mbind outcome_bind obind] in Hrun.
    injection Hrun as <-.
    destruct (is_tracer tr); cbn; rewrite Hh1, Hb1; apply insert_insert_eq.
  - cbn [mbind outcome_bind obind] in Hrun. injection Hrun as <-.
    destruct (is_tracer tr); cbn; exact Hh1.
Qed.

Lemma chunk_head_metrics (t : trace) (s : ptr) (pr : float64) (y : Span) :
  metrics (chunk_head t s pr y) !! keySamplingPriority = Some pr.
Proof.
  unfold chunk_head. cbv zeta.
  destruct (spans t) as [|first ?]; [cbn; apply lookup_insert_eq|].
  destruct (negb _); [rewrite setTraceTags_metrics|]; cbn; apply lookup_insert_eq.
Qed.

(** X24.  When a finish triggers a partial flush under the tracer proper
    (a priority being set, the buffered spans existing), the first span of
    the chunk submitted carries the sampling priority of the buffer as its
    [_sampling_priority_v1] metric and the trace-level tags: every
    propagating tag and every trace tag no propagating tag shadows, unless
    the git metadata has the key or the key is one of the two that
    [setTraceTags] writes last.  This holds whether the span that finishes
    is the first of the buffer or not. *)
Theorem partial_flush_chunk_head (tr : Tracer) (σ : state) (s : ptr)
    (pr : float64) :
  globalTracer σ = Some tr ->
  is_tracer tr = true ->
  full (buf σ) = false ->
  0 <= finished (buf σ) ->
  finished (buf σ) + 1 < len (spans (buf σ)) ->
  len (spans (buf σ)) <= traceMaxSize ->
  partial_flush_at tr (finished (buf σ) + 1) = true ->
  Forall (fun p => is_Some (heap σ !! p)) (spans (buf σ)) ->
  priority (buf σ) = Some pr ->
  In s (spans (buf σ)) ->
  exists (σ' : state) (f0 : ptr) (fs : list ptr) (x0 : Span),
    finishedOne s σ = Ok σ'
    /\ submitted σ' = submitted σ ++ [mkChunk (f0 :: fs) (will_send (buf σ))]
    /\ heap σ' !! f0 = Some x0
    /\ metrics x0 !! keySamplingPriority = Some pr
    /\ forall k v : string,
         GetTracerGitMetadataTags !! k = None ->
         k <> keyTraceID128 -> k <> keyProcessTags ->
         propagatingTags (buf σ) !! k = Some v
         \/ (propagatingTags (buf σ) !! k = None /\ tags (buf σ) !! k = Some v) ->
         meta x0 !! k = Some v.
Proof.
  intros Hg Ht Hf H0 Hlen Hmax Hp Hall Hpr Hin.
  destruct (finishedOne_partial_flush tr σ s Hg Ht Hf H0 Hlen Hmax Hp Hall
              ltac:(eauto) Hin) as (σ' & Hrun & _ & _ & _ & Hsub).
  assert (Hs : is_Some (heap σ !! s)).
  { rewrite Forall_forall in Hall. apply Hall. now apply list_elem_of_In. }
  destruct Hs as [sp Hsp].
  pose proof Hrun as Hrun0.
  unfold finishedOne in Hrun. rewrite (deref_Some _ _ _ Hsp) in Hrun.
  cbn [mbind outcome_bind obind] in Hrun.
  change (buf (store s (set_span_finished true sp) σ)) with (buf σ) in Hrun.
  rewrite Hf in Hrun.
  rewrite to_int_id in Hrun
    by (unfold GoInt.minInt, GoInt.maxInt, traceMaxSize in *; lia).
  set (σ1 := set_buf _ (store s _ σ)) in Hrun.
  change (globalTracer σ1) with (globalTracer σ) in Hrun. rewrite Hg in Hrun.
  assert (Hx1 : heap σ1 !! s = Some (set_span_finished true sp)).
  { subst σ1. cbn. apply lookup_insert_eq. }
  destruct (finish_annotate_span tr s σ1 _ Hx1) as (σ2 & Hann & Hx2 & Hfr2).
  destruct (finish_annotate_frame tr s σ1 ltac:(eauto))
    as (σ2' & Hann' & _ & [b Hb2] & Hfl2 & _).
  rewrite Hann in Hann'. injection Hann' as <-.
  rewrite Hann in Hrun. cbn [mbind outcome_bind obind] in Hrun.
  assert (Hsp2 : spans (buf σ2) = spans (buf σ)) by (rewrite Hb2; reflexivity).
  assert (Hfin2 : finished (buf σ2) = finished (buf σ) + 1) by (rewrite Hb2; reflexivity).
  assert (Hpr2 : priority (buf σ2) = Some pr) by (rewrite Hb2; exact Hpr).
  assert (Htg2 : tags (buf σ2) = tags (buf σ)
                 /\ propagatingTags (buf σ2) = propagatingTags (buf σ))
    by (rewrite Hb2; split; reflexivity).
  destruct (finish_flush_partial_heap tr s σ2 σ' Hrun)
    as (f0 & fs & ls & pr' & y & Hsplit & Hpr' & Hy & Hh').
  { rewrite Hsp2, Hfin2. apply Z.eqb_neq. lia. }
  { rewrite Hfin2. exact Hp. }
  assert (pr' = pr) by congruence. subst pr'.
  (* the chunk is the finished spans in buffer order *)
  assert (Hall2 : Forall (fun p => is_Some (heap σ2 !! p)) (spans (buf σ2))).
  { rewrite Hsp2. rewrite Forall_forall in *. intros p Hp'.
    destruct (decide (p = s)) as [->|Hne]; [rewrite Hx2; eauto|].
    rewrite (Hfr2 p Hne). subst σ1. cbn. rewrite lookup_insert_ne by congruence.
    now apply Hall. }
  rewrite (split_loop_filter _ _ [] [] Hall2) in Hsplit.
  rewrite !app_nil_l in Hsplit. injection Hsplit as Hfilter _.
  assert (Hflag : flagged (flags (heap σ2)) s = true).
  { unfold flagged. rewrite Hfl2. subst σ1. cbn. unfold flags.
    rewrite fmap_insert, lookup_insert_eq. reflexivity. }
  exists σ', f0, fs, (chunk_head (buf σ2) s pr y).
  split; [exact Hrun0|]. split.
  { rewrite Hsub. do 3 f_equal. rewrite <- Hfilter, Hsp2, Hfl2.
    subst σ1. cbn. unfold flags. now rewrite fmap_insert. }
  split; [rewrite Hh'; apply lookup_insert_eq|].
  split; [apply chunk_head_metrics|].
  intros k v Hgit H1 H2 Hkv.
  assert (Hlook : forall (t : trace) (z : Span),
             tags t = tags (buf σ) -> propagatingTags t = propagatingTags (buf σ) ->
             meta (setTraceTags t z) !! k = Some v).
  { intros t z Et Ep. rewrite setTraceTags_lookup by assumption. rewrite Et, Ep.
    rewrite lookup_union_r by exact Hgit.
    destruct Hkv as [Hq|[Hq Htg]].
    - now rewrite (lookup_union_Some_l _ _ _ _ Hq).
    - rewrite lookup_union_r by exact Hq.
      now rewrite (lookup_union_Some_l _ _ _ _ Htg). }
  unfold chunk_head. cbv zeta. rewrite Hsp2.
  destruct (spans (buf σ)) as [|first rest] eqn:Hspans; [contradiction|].
  destruct (Pos.eqb_spec s first) as [<-|Hne]; cbn [negb].
  - (* the span that finishes is the first of the buffer, hence of the chunk *)
    rewrite Hsp2 in Hfilter. cbn [List.filter] in Hfilter. rewrite Hflag in Hfilter.
    injection Hfilter as <- _.
    rewrite Hx2 in Hy. injection Hy as <-.
    cbn [meta setMetric set_metrics].
    unfold annotate_span. cbv zeta.
    change (spans (set_finished (finished (buf σ) + 1) (buf σ)))
      with (spans (buf σ)).
    rewrite Hspans, Pos.eqb_refl.
    apply Hlook; destruct (root_lock _ s); reflexivity.
  - apply Hlook; [apply Htg2|apply Htg2].
Qed.

End ContextProperties.

(** * Instances of the theorems on concrete inputs *)

#[local] Existing Instance upstream.

Lemma decision_first_call_wins_witness :
  decision (decide_all newTrace [CallDrop; CallKeep; CallDrop]) = decisionDrop
  /\ decision (decide_all (keep newTrace) [CallDrop; CallKeep]) = decisionKeep.
Proof.
  split.
  - apply (proj1 (proj2 decision_first_call_wins) newTrace CallDrop [CallKeep; CallDrop]).
    reflexivity.
  - apply (proj2 (proj2 decision_first_call_wins) (keep newTrace) [CallDrop; CallKeep]).
    discriminate.
Defined.



Lemma peer_service_cassandra_witness :
  meta (fst (setPeerService Scenario.cassandra_span true ∅)) !! "peer.service"%string
    = Some "10.0.0.1,10.0.0.2"%string
  /\ meta (fst (setPeerService Scenario.cassandra_span true Scenario.remap))
       !! "peer.service"%string
     = Some "cassandra-prod"%string.
Proof.
  split.
  - exact (proj1 (proj2 (proj2
      (@peer_service_cassandra upstream Scenario.cassandra_span "client"
         "10.0.0.1,10.0.0.2" ∅
         ltac:(discriminate) ltac:(discriminate) ltac:(discriminate)
         eq_refl eq_refl eq_refl (or_introl eq_refl) eq_refl eq_refl)))).
  - exact (proj1 (proj2 (proj2
      (@peer_service_cassandra upstream Scenario.cassandra_span "client"
         "10.0.0.1,10.0.0.2" Scenario.remap
         ltac:(discriminate) ltac:(discriminate) ltac:(discriminate)
         eq_refl eq_refl eq_refl (or_introl eq_refl) eq_refl eq_refl)))).
Defined.

(** The span of C8 with an [aws_service] tag resolves through the network
    destination; with a mapping for [V] it carries the mapped value. *)
Lemma peer_service_cassandra_counterexample :
  let s := Scenario.cassandra_aws_span in
  let V := "10.0.0.1,10.0.0.2"%string in
  (meta s !! "span.kind"%string = Some "client"%string
   /\ meta s !! "peer.service"%string = None
   /\ meta s !! "db.system"%string = Some "cassandra"%string
   /\ meta s !! "db.cassandra.contact.points"%string = Some V
   /\ meta s !! "network.destination.name"%string = Some "db-host"%string)
  /\ meta (fst (setPeerService s true ∅)) !! "peer.service"%string
     = Some "db-host"%string
  /\ meta (fst (setPeerService s true ∅)) !! "_dd.peer.service.source"%string
     = Some "network.destination.name"%string
  /\ meta (fst (setPeerService Scenario.cassandra_span true Scenario.remap))
       !! "peer.service"%string
     <> Some V.
Proof.
  cbv zeta. repeat split; try (vm_compute; reflexivity).
  vm_compute. discriminate.
Qed.

Lemma trace_id_upper_hex_witness :
  UpperHex (fst (SetUpperFromHex emptyTraceID "00AbC")) = "0000000000000abc"%string
  /\ SetUpperFromHex emptyTraceID "0x12"
     = (emptyTraceID, Some (Malformed "0x12" GoLib.ErrSyntax))
  /\ HasUpper (apply_setters emptyTraceID [CallSetUpper 0; CallSetLower 7]) = false.
Proof.
  split; [|split].
  - exact (proj2 (proj2 (proj1 trace_id_upper_hex emptyTraceID "00AbC"%string 2748
                           eq_refl)) ltac:(cbn; lia)).
  - exact (proj1 (proj2 trace_id_upper_hex) emptyTraceID "0x12"%string 0
             GoLib.ErrSyntax eq_refl).
  - apply (proj2 (proj2 (proj2 trace_id_upper_hex)) [CallSetUpper 0; CallSetLower 7]).
    + repeat constructor; cbn; lia.
    + reflexivity.
Defined.

(** After [SetUpper(5)] and [SetUpper(0)] a setter has stored a value that is
    not zero and [HasUpper] is false; a parseable string of 17 characters is
    not read back by [UpperHex]. *)
Lemma trace_id_upper_hex_counterexample :
  (stored_upper (CallSetUpper 5) = Some 5
   /\ HasUpper (apply_setters emptyTraceID [CallSetUpper 5; CallSetUpper 0]) = false)
  /\ (GoLib.ParseUint16 "00000000000000001" = (1, None)
      /\ UpperHex (fst (SetUpperFromHex emptyTraceID "00000000000000001"))
         = "0000000000000001"%string
      /\ zero_pad 16 (lower_string "00000000000000001") = "00000000000000001"%string).
Proof. repeat split. Qed.

Lemma overflow_abandons_trace_witness :
  exists σ1,
    push 2%positive Scenario.at_capacity = Ok σ1
    /\ full (buf σ1) = true /\ spans (buf σ1) = [] /\ submitted σ1 = [].
Proof.
  destruct (proj2 (@overflow_abandons_trace upstream 2%positive Scenario.at_capacity
                     ltac:(intros H; discriminate H)
                     ltac:(apply Z.leb_le; vm_compute; reflexivity)))
    as (σ1 & Hp & Hf & Hs & Hsub & _).
  exists σ1. auto.
Defined.


Lemma partial_flush_accounting_witness :
  let σ0 := set_buf (set_priority (Some (Float64.of_int 1)) newTrace)
              (init (Some (Scenario.tracer true 2)) Scenario.heap3) in
  exists σ',
    run ([Push 1%positive; Push 2%positive; Push 3%positive]
         ++ [Finish 3%positive; Finish 2%positive; Finish 1%positive]) σ0 = Ok σ'
    /\ Permutation (flushed σ') [1%positive; 2%positive; 3%positive]
    /\ submitted σ'
       = [mkChunk [2%positive; 3%positive] false; mkChunk [1%positive] false].
Proof.
  intros σ0.
  destruct (proj2 (@partial_flush_accounting upstream (Scenario.tracer true 2) eq_refl)
              σ0 [Push 1%positive; Push 2%positive; Push 3%positive]
              [Finish 3%positive; Finish 2%positive; Finish 1%positive]
              eq_refl eq_refl eq_refl eq_refl ltac:(eexists; reflexivity)
              eq_refl eq_refl)
    as (σ' & Hr & Hp & _).
  - cbn. compute_done.
  - cbn. repeat constructor; unfold allocated; vm_compute; eauto.
  - apply Z.leb_le. reflexivity.
  - cbn. apply Permutation_rev.
  - exists σ'. split; [exact Hr|]. split; [exact Hp|].
    vm_compute in Hr. injection Hr as <-. reflexivity.
Defined.

(** C6.  On a fresh buffer under a tracer with partial flush enabled at
    threshold 1, two spans without a priority metric are pushed and one
    finishes: the partial flush fires with no sampling priority set and
    [finishedOne] panics on the nil priority instead of returning. *)
Theorem finishedOne_panics_without_priority :
  exists σ,
    run [Push 1%positive; Push 2%positive]
      (init (Some (Scenario.tracer true 1)) Scenario.heap3) = Ok σ
    /\ priority (buf σ) = None
    /\ spans (buf σ) = [1%positive; 2%positive]
    /\ finishedOne 2%positive σ = Panic NilDereference.
Proof.
  eexists. split; [vm_compute; reflexivity|].
  split; [reflexivity|]. split; [reflexivity|]. vm_compute. reflexivity.
Qed.


(** Under a tracer that is not the tracer proper, with partial flush enabled
    at threshold 2 and a priority set: the second of three spans finishes,
    the finished count reaches the threshold, no chunk is submitted and the
    counter is not reset. *)
Lemma partial_flush_accounting_counterexample :
  exists σ1 σ2,
    run [Push 1%positive; Push 2%positive; Push 3%positive; Finish 3%positive]
      (Scenario.sampled (Scenario.othertracer 2)) = Ok σ1
    /\ spans (buf σ1) = [1%positive; 2%positive; 3%positive]
    /\ finished (buf σ1) + 1 = 2
    /\ finishedOne 2%positive σ1 = Ok σ2
    /\ submitted σ2 = []
    /\ spans (buf σ2) = [1%positive]
    /\ finished (buf σ2) = 2.
Proof.
  eexists. eexists. split; [vm_compute; reflexivity|].
  split; [reflexivity|]. split; [reflexivity|].
  split; [vm_compute; reflexivity|]. repeat split.
Qed.

Lemma traceID_halves_round_trip_witness :
  Upper (SetUpper Examples.id128 3735928559) = 3735928559
  /\ Lower (SetLower Examples.id128 3735928559) = 3735928559
  /\ Lower (SetUpper Examples.id128 3735928559) = Lower Examples.id128
  /\ Upper (SetLower Examples.id128 3735928559) = Upper Examples.id128
  /\ length (SetUpper Examples.id128 3735928559) = 16%nat
  /\ length (SetLower Examples.id128 3735928559) = 16%nat.
Proof. apply traceID_halves_round_trip; [reflexivity|lia]. Defined.

Lemma traceID_hex_of_halves_witness :
  HexEncoded Examples.id128 = "123456789abcdef000000000000000ff"%string
  /\ UpperHex Examples.id128 = "123456789abcdef0"%string.
Proof.
  destruct (traceID_hex_of_halves Examples.id128
              ltac:(apply wf_SetLower, wf_SetUpper, wf_emptyTraceID))
    as (H1 & H2 & _).
  split; [rewrite H1|rewrite H2]; reflexivity.
Defined.

Lemma traceID_determined_by_halves_witness :
  Empty Examples.id128 = false
  /\ HasUpper Examples.id128 = true
  /\ HasUpper (SetLower emptyTraceID 255) = false.
Proof.
  destruct (traceID_determined_by_halves Examples.id128
              ltac:(apply wf_SetLower, wf_SetUpper, wf_emptyTraceID))
    as (H1 & H2 & _).
  destruct (traceID_determined_by_halves (SetLower emptyTraceID 255)
              ltac:(apply wf_SetLower, wf_emptyTraceID))
    as (_ & H3 & _).
  split; [|split].
  - destruct (Empty Examples.id128); [|reflexivity].
    destruct (proj1 H1 eq_refl) as [He _]. discriminate He.
  - rewrite H2. reflexivity.
  - rewrite H3. reflexivity.
Defined.



Lemma upper_hex_round_trip_witness :
  SetUpperFromHex emptyTraceID (UpperHex Examples.id128)
  = (SetUpper emptyTraceID 1311768467463790320, None)
  /\ Upper (fst (SetUpperFromHex emptyTraceID (UpperHex Examples.id128)))
     = Upper Examples.id128.
Proof.
  destruct (upper_hex_round_trip Examples.id128 emptyTraceID
              ltac:(apply wf_SetLower, wf_SetUpper, wf_emptyTraceID)
              wf_emptyTraceID)
    as (_ & H2 & _).
  split; [reflexivity|exact H2].
Defined.

Lemma sampling_priority_round_trip_witness :
  samplingPriority (fst (setSamplingPriority 2 4 newTrace)) = (2, true)
  /\ setSamplingPriority 2 4 (fst (setSamplingPriority 2 4 newTrace))
     = (fst (setSamplingPriority 2 4 newTrace), false).
Proof.
  destruct (sampling_priority_round_trip 2 4 newTrace ltac:(lia) eq_refl)
    as (H1 & H2 & _).
  split; [exact H1|exact H2].
Defined.

Lemma context_sampling_priority_witness :
  SamplingPriority (Some (SpanContext_setSamplingPriority (-1) 4 zeroSpanContext))
  = (-1, true)
  /\ updated (SpanContext_setSamplingPriority (-1) 4 zeroSpanContext) = true.
Proof.
  destruct (context_sampling_priority (-1) 4 zeroSpanContext ltac:(lia))
    as (_ & H2 & _ & _ & H5).
  split; [apply H2; now left|apply (H5 eq_refl)].
Defined.

Lemma baggage_set_get_witness :
  baggageItem "a" (setBaggageItem "a" "9" Examples.parent) = "9"%string
  /\ baggageItem "b" (setBaggageItem "a" "9" Examples.parent) = "2"%string
  /\ baggageItem "k" (setBaggageItem "k" "v" (mkContext zeroSpanContext false))
     = "v"%string.
Proof.
  destruct (baggage_set_get "a" "9" Examples.parent
              ltac:(right; discriminate)) as (H1 & H2 & _).
  destruct (baggage_set_get "k" "v" (mkContext zeroSpanContext false)
              ltac:(left; reflexivity)) as (H3 & _).
  split; [exact H1|]. split; [|exact H3].
  rewrite (H2 "b"%string ltac:(discriminate)). reflexivity.
Defined.

Lemma baggage_flag_not_raised_witness :
  baggage_of (setBaggageItem "k" "v" Examples.adopted) !! "k"%string = Some "v"%string
  /\ baggageItem "k" (setBaggageItem "k" "v" Examples.adopted) = ""%string
  /\ Examples.adopted = FromGenericCtx (generic (Some (set_ctx_spanID 5 zeroSpanContext)) None).
Proof.
  destruct (baggage_flag_not_raised "k" "v" Examples.adopted eq_refl eq_refl)
    as (H1 & H2 & _).
  split; [exact H1|]. split; [apply H2|reflexivity].
Defined.

Lemma push_adopts_priority_witness :
  exists σ' : state,
    push 1%positive Examples.fresh = Ok σ'
    /\ spans (buf σ') = [1%positive]
    /\ priority (buf σ') = Some (Float64.of_int 2)
    /\ propagatingTags (buf σ') = ∅.
Proof.
  destruct (push_adopts_priority 1%positive Examples.keep_span
              Examples.fresh
              eq_refl eq_refl eq_refl)
    as (σ' & H1 & H2 & _ & _ & _ & _ & _ & H8 & _).
  exists σ'. split; [exact H1|]. split; [exact H2|].
  change (metrics Examples.keep_span !! keySamplingPriority)
    with (Some (Float64.of_int 2)) in H8.
  cbn [Examples.fresh buf locked newTrace] in H8. destruct H8 as [H8 H9].
  split; [exact H8|]. rewrite H9. reflexivity.
Defined.

Lemma newSpanContext_identifiers_witness :
  exists (c : Context) (σ' : state),
    newSpanContext 1%positive 1700000000123456789 None true Examples.fresh
    = Ok (c, σ')
    /\ TraceID (Some (fields c)) = "6553f1000000000000000000000000ff"%string
    /\ SpanID (Some (fields c)) = 9.
Proof.
  destruct (newSpanContext_identifiers 1%positive Examples.keep_span
              1700000000123456789 None true
              Examples.fresh
              eq_refl ltac:(cbn; lia)
              ltac:(intros par H; discriminate H))
    as (c & σ' & H1 & _ & H3 & _ & _ & _ & _ & H8).
  exists c, σ'. split; [exact H1|]. split; [|exact H3].
  rewrite (H8 eq_refl eq_refl). reflexivity.
Defined.

Lemma newSpanContext_baggage_witness :
  exists (c : Context) (σ' : state),
    newSpanContext 1%positive 0 (Some Examples.parent) true Examples.fresh
    = Ok (c, σ')
    /\ baggageItem "a" c = "1"%string
    /\ baggageItem "b" c = "2"%string.
Proof.
  destruct (newSpanContext_baggage 1%positive Examples.keep_span 0
              (Some Examples.parent) true
              Examples.fresh
              eq_refl)
    as (c & σ' & H1 & _ & H3 & _).
  exists c, σ'. split; [exact H1|]. split; rewrite H3; reflexivity.
Defined.

Lemma newSpanContext_trace_witness :
  exists (c : Context) (σ' : state),
    newSpanContext 1%positive 0 (Some Examples.parent) true Examples.fresh
    = Ok (c, σ')
    /\ ctx_trace (fields c) = Some (buf σ')
    /\ spans (buf σ') = [1%positive]
    /\ root (buf σ') = Some 1%positive
    /\ origin (fields c) = "synthetics"%string.
Proof.
  destruct (newSpanContext_trace 1%positive Examples.keep_span 0
              (Some Examples.parent) true
              Examples.fresh
              eq_refl)
    as (c & σ' & H1 & H2 & _ & H4 & H5 & _ & _ & H8).
  exists c, σ'. split; [exact H1|]. split; [exact H2|].
  split; [apply (H5 eq_refl eq_refl)|]. split; [exact H4|].
  apply (H8 Examples.parent eq_refl eq_refl).
Defined.


Lemma setPeerService_cases_witness :
  setPeerService Scenario.blank true ∅ = (Scenario.blank, [])
  /\ meta (fst (setPeerService
                  (set_meta (<["peer.service" := "db"]> ∅) Scenario.blank) false
                  (<["db" := "db-prod"]> ∅)))
       !! "peer.service"%string = Some "db-prod"%string.
Proof.
  split.
  - apply (proj1 (@setPeerService_cases upstream Scenario.blank true ∅
                    ltac:(discriminate) ltac:(discriminate) ltac:(discriminate)));
      reflexivity.
  - destruct (proj2 (proj2 (@setPeerService_cases upstream
                              (set_meta (<["peer.service" := "db"]> ∅) Scenario.blank)
                              false (<["db" := "db-prod"]> ∅)
                              ltac:(discriminate) ltac:(discriminate)
                              ltac:(discriminate)))
                "db"%string eq_refl) as (_ & _ & H & _).
    exact H.
Defined.

Lemma mock_tracer_sees_every_finish_witness :
  exists σ' : state,
    run (map Finish [2%positive; 1%positive])
      (set_buf (set_spans [1%positive; 2%positive] newTrace)
         (init (Some Scenario.mocktracer) Scenario.heap3)) = Ok σ'
    /\ mock_finished (events σ') = [2%positive; 1%positive]
    /\ submitted σ' = [].
Proof.
  destruct (mock_tracer_sees_every_finish Scenario.mocktracer
              [2%positive; 1%positive]
              (set_buf (set_spans [1%positive; 2%positive] newTrace)
                 (init (Some Scenario.mocktracer) Scenario.heap3))
              eq_refl eq_refl eq_refl)
    as (σ' & H1 & H2 & H3).
  - repeat constructor; vm_compute; eauto.
  - exists σ'. split; [exact H1|]. split; [exact H2|apply (H3 eq_refl)].
Defined.

Lemma first_span_carries_trace_tags_witness :
  exists (σ' : state) (x' : Span),
    finishedOne 1%positive Examples.tagged = Ok σ'
    /\ heap σ' !! 1%positive = Some x'
    /\ meta x' !! "_dd.p.dm"%string = Some "-4"%string
    /\ meta x' !! "env"%string = Some "prod"%string.
Proof.
  destruct (@first_span_carries_trace_tags upstream (Scenario.tracer false 0)
              Examples.tagged 1%positive [2%positive] eq_refl)
    as (σ' & x' & H1 & H2 & _ & H4).
  - split; [reflexivity|]. split; [|split; [eexists; reflexivity|right; reflexivity]].
    split; [reflexivity|]. split; [cbn; compute_done|].
    split; [cbn; repeat constructor; unfold allocated; vm_compute; eauto|].
    split; [reflexivity|]. apply Z.leb_le. reflexivity.
  - vm_compute. auto.
  - reflexivity.
  - exists σ', x'. split; [exact H1|]. split; [exact H2|]. split.
    + apply H4; [reflexivity|discriminate|discriminate|left; reflexivity].
    + apply H4; [reflexivity|discriminate|discriminate|right; split; reflexivity].
Defined.

Lemma trace_life_cycle_witness :
  exists (c1 c2 : Context) (σ1 σ2 σ3 σ4 : state),
    newSpanContext 1%positive 0 None true
      (init (Some (Scenario.tracer false 0)) Scenario.heap3) = Ok (c1, σ1)
    /\ newSpanContext 2%positive 0 (Some c1) true σ1 = Ok (c2, σ2)
    /\ finishedOne 2%positive σ2 = Ok σ3
    /\ submitted σ3 = []
    /\ finishedOne 1%positive σ3 = Ok σ4
    /\ submitted σ4 = [mkChunk [1%positive; 2%positive] false].
Proof.
  destruct (@trace_life_cycle upstream (Scenario.tracer false 0)
              (init (Some (Scenario.tracer false 0)) Scenario.heap3)
              1%positive 2%positive Scenario.blank Scenario.blank 0 0 true
              eq_refl eq_refl eq_refl eq_refl eq_refl)
    as (c1 & c2 & σ1 & σ2 & H1 & H2 & _ & _ & _ & _ & H7).
  destruct (H7 2%positive 1%positive ltac:(right; split; reflexivity))
    as (σ3 & σ4 & H8 & H9 & _ & H11 & H12 & _).
  exists c1, c2, σ1, σ2, σ3, σ4.
  split; [exact H1|]. split; [exact H2|]. split; [exact H8|]. split; [exact H9|].
  split; [exact H11|exact H12].
Defined.

Lemma partial_flush_chunk_head_witness :
  exists (σ' : state) (f0 : ptr) (fs : list ptr) (x0 : Span),
    finishedOne 2%positive Examples.three_spans = Ok σ'
    /\ submitted σ'
       = submitted Examples.three_spans
         ++ [mkChunk (f0 :: fs) (will_send (buf Examples.three_spans))]
    /\ heap σ' !! f0 = Some x0
    /\ metrics x0 !! keySamplingPriority = Some (Float64.of_int 1)
    /\ meta x0 !! "_dd.p.dm"%string = Some "-4"%string
    /\ meta x0 !! "env"%string = Some "prod"%string.
Proof.
  destruct (@partial_flush_chunk_head upstream (Scenario.tracer true 1)
              Examples.three_spans 2%positive (Float64.of_int 1)
              eq_refl eq_refl eq_refl)
    as (σ' & f0 & fs & x0 & H1 & H2 & H3 & H4 & H5).
  - cbn. lia.
  - unfold len. cbn. lia.
  - unfold len, traceMaxSize. cbn. lia.
  - reflexivity.
  - cbn. repeat constructor; vm_compute; eauto.
  - reflexivity.
  - cbn. tauto.
  - exists σ', f0, fs, x0. repeat (split; [assumption|]). split.
    + apply H5; [reflexivity|discriminate|discriminate|left; reflexivity].
    + apply H5; [reflexivity|discriminate|discriminate|right; split; reflexivity].
Defined.
